(** * Esperanto morphological analyzer: the word dispatcher, the ten
    part-of-speech analyzers and the sentence aggregator.

    JavaScript strings are sequences of UTF-16 code units; [length],
    [slice], [endsWith] and the regular expressions of the analyzers all
    work on those units, so a string is a list of code units here.  The
    confidence scores are the decimal constants 0.5, 0.2, 0.3, 0.9, 0.95
    and 1.0 and sums of them; they are rationals here (the double sums
    0.5+0.2, 0.5+0.3 and 0.5+0.2+0.3 round to the doubles of 0.7, 0.8
    and 1.0, so that comparisons between scores agree).  The average of
    the scores of a sentence and the share of its recognised words are
    sums and quotients of doubles, and are computed as such. *)

From Stdlib Require Import List Bool Arith NArith ZArith QArith Qminmax Lia.
From Stdlib Require Import Lqa Sorted.
From Stdlib Require Import Ascii String.
From Stdlib Require Import Floats.SpecFloat.
Import ListNotations.
Local Open Scope list_scope.
Local Abbreviation length := Datatypes.length.

Set Implicit Arguments.

(** ** Strings *)

Definition jsstring := list N.

(** Decoding of a UTF-8 literal of this file into code units (all the
    letters used are in the Basic Multilingual Plane). *)
Fixpoint js (s : string) : jsstring :=
  match s with
  | EmptyString => []
  | String a s1 =>
      let b1 := N_of_ascii a in
      if (b1 <? 128)%N then b1 :: js s1
      else
        match s1 with
        | EmptyString => []
        | String a2 s2 =>
            let b2 := N_of_ascii a2 in
            if (b1 <? 224)%N then ((b1 mod 32) * 64 + b2 mod 64)%N :: js s2
            else
              match s2 with
              | EmptyString => []
              | String a3 s3 =>
                  ((b1 mod 16) * 4096 + (b2 mod 64) * 64
                   + N_of_ascii a3 mod 64)%N :: js s3
              end
        end
  end.

Fixpoint str_eqb (a b : jsstring) : bool :=
  match a, b with
  | [], [] => true
  | x :: a', y :: b' => (x =? y)%N && str_eqb a' b'
  | _, _ => false
  end.

(** [s.startsWith(p)] *)
Fixpoint startsWith (s p : jsstring) {struct p} : bool :=
  match p, s with
  | [], _ => true
  | y :: p', x :: s' => (x =? y)%N && startsWith s' p'
  | _ :: _, [] => false
  end.

(** [s.endsWith(p)] *)
Definition endsWith (s p : jsstring) : bool :=
  startsWith (rev s) (rev p).

(** [s.includes(p)] on strings: [p] occurs somewhere in [s]. *)
Fixpoint str_includes (s p : jsstring) : bool :=
  startsWith s p ||
  match s with
  | [] => false
  | _ :: s' => str_includes s' p
  end.

(** [list.includes(x)] on arrays of strings. *)
Definition includes (l : list jsstring) (x : jsstring) : bool :=
  existsb (fun y => str_eqb y x) l.

(** [s.slice(0, -k)], for [k] positive. *)
Definition dropEnd (k : nat) (s : jsstring) : jsstring :=
  firstn (length s - k) s.

(** [s.substring(k)] *)
Definition substring_from (k : nat) (s : jsstring) : jsstring := skipn k s.

(** WhiteSpace and LineTerminator code points: what [\s] matches and what
    [trim] strips. *)
Definition isWhiteSpace (c : N) : bool :=
  existsb (N.eqb c)
    [9; 10; 11; 12; 13; 32; 160; 5760; 8232; 8233; 8239; 8287; 12288; 65279]%N
  || ((8192 <=? c) && (c <=? 8202))%N.

Fixpoint trimStart (s : jsstring) : jsstring :=
  match s with
  | c :: s' => if isWhiteSpace c then trimStart s' else s
  | [] => []
  end.

Definition trim (s : jsstring) : jsstring :=
  rev (trimStart (rev (trimStart s))).

(** The six circumflexed and breved letters, capital and small, sit next
    to each other in Latin Extended-A: the capital is even. *)
Definition isEsperantoCapital (c : N) : bool :=
  existsb (N.eqb c) [264; 284; 292; 308; 348; 364]%N.

Definition isAsciiCapital (c : N) : bool := ((65 <=? c) && (c <=? 90))%N.

(** [toLowerCase], one code unit at a time.  Beside the capitals of the
    alphabet, the Kelvin sign becomes [k] and the dotted capital I becomes
    [i] followed by a combining dot: these are the only other code units
    whose lower case has a letter of the analyzers' alphabet in it.  Every
    other code unit is kept: neither it nor its lower case is a character
    any comparison of the analyzers looks for. *)
Definition lowerUnit (c : N) : jsstring :=
  if isAsciiCapital c then [c + 32]%N
  else if isEsperantoCapital c then [c + 1]%N
  else if (c =? 8490)%N then [107]%N
  else if (c =? 304)%N then [105; 775]%N
  else [c].

Definition toLowerCase (s : jsstring) : jsstring := flat_map lowerUnit s.

(** Canonicalize of a regular expression with the flags [iu]: simple case
    folding.  The long s folds to [s] and the Kelvin sign to [k]; no other
    code point folds into the analyzers' alphabet. *)
Definition canonicalize (c : N) : N :=
  if isAsciiCapital c then (c + 32)%N
  else if isEsperantoCapital c then (c + 1)%N
  else if (c =? 383)%N then 115%N
  else if (c =? 8490)%N then 107%N
  else c.

(** ** Regular expressions *)

Inductive regex : Type :=
| Void
| Eps
| Cls (p : N -> bool)
| Cat (r1 r2 : regex)
| Alt (r1 r2 : regex)
| Star (r : regex).

Fixpoint nullable (r : regex) : bool :=
  match r with
  | Void => false
  | Eps => true
  | Cls _ => false
  | Cat r1 r2 => nullable r1 && nullable r2
  | Alt r1 r2 => nullable r1 || nullable r2
  | Star _ => true
  end.

Fixpoint deriv (c : N) (r : regex) : regex :=
  match r with
  | Void => Void
  | Eps => Void
  | Cls p => if p c then Eps else Void
  | Cat r1 r2 =>
      if nullable r1 then Alt (Cat (deriv c r1) r2) (deriv c r2)
      else Cat (deriv c r1) r2
  | Alt r1 r2 => Alt (deriv c r1) (deriv c r2)
  | Star r1 => Cat (deriv c r1) (Star r1)
  end.

(** [matches r s]: the whole of [s] is a word of [r], as [/^r$/.test(s)]. *)
Fixpoint matches (r : regex) (s : jsstring) : bool :=
  match s with
  | [] => nullable r
  | c :: s' => matches (deriv c r) s'
  end.

Definition Opt (r : regex) : regex := Alt r Eps.
Definition Plus (r : regex) : regex := Cat r (Star r).
(** [r{2,}] *)
Definition AtLeast2 (r : regex) : regex := Cat r (Cat r (Star r)).
Definition AnyUnit : regex := Cls (fun _ => true).
Definition Chr (c : N) : regex := Cls (N.eqb c).
(** A character of a pattern that has the flag [i]. *)
Definition ChrI (c : N) : regex :=
  Cls (fun x => (canonicalize x =? canonicalize c)%N).
Definition Lit (s : jsstring) : regex :=
  fold_right (fun c r => Cat (Chr c) r) Eps s.
Definition LitI (s : jsstring) : regex :=
  fold_right (fun c r => Cat (ChrI c) r) Eps s.
(** [a|b|c] *)
Definition AnyOf (l : list regex) : regex := fold_right Alt Void l.
(** [list.join('|')] inside a pattern with the flag [i]. *)
Definition JoinI (l : list jsstring) : regex := AnyOf (map LitI l).
Definition Join (l : list jsstring) : regex := AnyOf (map Lit l).

(** [/r/.test(s)], [/^r/.test(s)] and [/r$/.test(s)]. *)
Definition test_anywhere (r : regex) (s : jsstring) : bool :=
  matches (Cat (Star AnyUnit) (Cat r (Star AnyUnit))) s.
Definition test_at_start (r : regex) (s : jsstring) : bool :=
  matches (Cat r (Star AnyUnit)) s.
Definition test_at_end (r : regex) (s : jsstring) : bool :=
  matches (Cat (Star AnyUnit) r) s.

(** [s.match(/r$/)]: the leftmost position from which [r] matches up to
    the end; the matched text [match[0]] is returned. *)
Fixpoint match_at_end (r : regex) (s : jsstring) : option jsstring :=
  if matches r s then Some s
  else
    match s with
    | [] => None
    | _ :: s' => match_at_end r s'
    end.

(** The letters [a-zA-ZĉĝĵĥŝŭĈĜĴĤŜŬ]. *)
Definition isSmallLetter (c : N) : bool :=
  ((97 <=? c) && (c <=? 122))%N
  || existsb (N.eqb c) (js "ĉĝĵĥŝŭ").
Definition isLetter (c : N) : bool :=
  isSmallLetter c || isAsciiCapital c || existsb (N.eqb c) (js "ĈĜĴĤŜŬ").
Definition Letter : regex := Cls isLetter.
(** [[a-zĉĝĵĥŝŭ]] with and without the flag [i]. *)
Definition SmallLetter : regex := Cls isSmallLetter.
Definition SmallLetterI : regex := Cls (fun x => isSmallLetter (canonicalize x)).
(** [(j?n?)] *)
Definition JN : regex := Cat (Opt (Lit (js "j"))) (Opt (Lit (js "n"))).
Definition JNI : regex := Cat (Opt (LitI (js "j"))) (Opt (LitI (js "n"))).
(** A class [[abc]] with and without the flag [i], and its complement. *)
Definition OneOf (l : jsstring) : regex := Cls (fun x => existsb (N.eqb x) l).
Definition OneOfI (l : jsstring) : regex :=
  Cls (fun x => existsb (fun c => (canonicalize x =? canonicalize c)%N) l).
Definition NoneOf (l : jsstring) : regex :=
  Cls (fun x => negb (existsb (N.eqb x) l)).
(** [\s] *)
Definition Space : regex := Cls isWhiteSpace.

(** [([bcd...])\1]: one of the listed characters, twice. *)
Definition Doubled (l : jsstring) : regex :=
  AnyOf (map (fun c => Lit [c; c]) l).

(** ** Numbers

    A JavaScript number is an IEEE 754 binary64 value: 53 bits of
    mantissa, round to nearest, ties to even.  [+], [/] and [>=] on
    numbers are those of the Standard Library's specification of
    floating-point arithmetic at that precision. *)

Definition Double : Type := spec_float.

Definition dadd (x y : Double) : Double := SFadd 53 1024 x y.
Definition ddiv (x y : Double) : Double := SFdiv 53 1024 x y.
(** [x >= y]; false when either side is NaN. *)
Definition dge (x y : Double) : bool := SFleb y x.

(** [Math.min(x, y)] *)
Definition dmin (x y : Double) : Double :=
  match x, y with
  | S754_nan, _ | _, S754_nan => S754_nan
  | S754_zero sx, S754_zero sy => S754_zero (sx || sy)
  | _, _ => if SFltb y x then y else x
  end.

(** The double that a decimal or an integer literal denotes: the
    quotient of numerator and denominator, rounded once.  (The division
    algorithm rounds correctly whatever the size of the two integers.) *)
Definition toDouble (q : Q) : Double :=
  match Qnum q with
  | Z0 => S754_zero false
  | Zpos n => ddiv (S754_finite false n 0) (S754_finite false (Qden q) 0)
  | Zneg n => ddiv (S754_finite true n 0) (S754_finite false (Qden q) 0)
  end.

(** An integer as a number: a length or a count. *)
Definition ofZ (z : Z) : Double := toDouble (inject_Z z).

(** ** Values, errors and the data model (types/index.ts) *)

(** What a caller can pass where the signature says [string]. *)
Inductive JsValue : Type :=
| JUndefined
| JNull
| JBoolean (b : bool)
| JNumber (n : Z)
| JString (s : jsstring)
| JObject.

Inductive PartOfSpeech : Type :=
| Noun | Verb | Adjective | Adverb | Pronoun | Preposition | Conjunction
| Interjection | Article | Numeral | Unknown | Undefined.

Definition PartOfSpeech_eqb (a b : PartOfSpeech) : bool :=
  match a, b with
  | Noun, Noun | Verb, Verb | Adjective, Adjective | Adverb, Adverb
  | Pronoun, Pronoun | Preposition, Preposition | Conjunction, Conjunction
  | Interjection, Interjection | Article, Article | Numeral, Numeral
  | Unknown, Unknown | Undefined, Undefined => true
  | _, _ => false
  end.

(** The tag as the string it is in the source. *)
Definition tagString (p : PartOfSpeech) : jsstring :=
  match p with
  | Noun => js "Noun" | Verb => js "Verb" | Adjective => js "Adjective"
  | Adverb => js "Adverb" | Pronoun => js "Pronoun"
  | Preposition => js "Preposition" | Conjunction => js "Conjunction"
  | Interjection => js "Interjection" | Article => js "Article"
  | Numeral => js "Numeral" | Unknown => js "Unknown"
  | Undefined => js "Undefined"
  end.

Inductive VerbTense : Type :=
| present | past | future | conditional | infinitive.

Inductive VerbMood : Type :=
| mood_indicative | mood_imperative | mood_conditional | mood_infinitive
| mood_participle.

Record AgreementMarkers : Type := mkAgreement {
  plural : bool;
  accusative : bool
}.

(** The interface [MorphologicalFeatures]; a field with [?] is an option.
    The analyzers of the closed word classes add properties of their own
    that the interface does not declare; they are not carried here. *)
Record MorphologicalFeatures : Type := mkFeatures {
  isPlural : bool;
  isAccusative : bool;
  tense : option VerbTense;
  mood : option VerbMood;
  isPossessive : option bool;
  agreement : option AgreementMarkers;
  root : option jsstring
}.

Record AnalysisOptions : Type := mkOptions {
  includeFeatures : option bool;
  strictMode : option bool;
  optimized : option bool
}.

Inductive Error : Type :=
| WordMustBeNonEmptyString
| WordEmptyOrWhitespace
| SentenceMustBeNonEmptyString
| SentenceEmptyOrWhitespace
| ParagraphMustBeNonEmptyString
| WordDoesNotMatchPattern (p : PartOfSpeech)
| InvalidArticleError (value : jsstring).

(** A computation that returns or throws. *)
Inductive Result (A : Type) : Type :=
| Ok (a : A)
| Throw (e : Error).
Arguments Ok {A} a.
Arguments Throw {A} e.

Definition bind {A B : Type} (m : Result A) (f : A -> Result B) : Result B :=
  match m with
  | Ok a => f a
  | Throw e => Throw e
  end.

(** [try { m } catch { h }] *)
Definition try_catch {A : Type} (m : Result A) (h : Error -> Result A)
  : Result A :=
  match m with
  | Ok a => Ok a
  | Throw e => h e
  end.

Notation "x <- m ;; k" := (bind m (fun x => k))
  (at level 61, m at next level, right associativity).

(** ** Speech parts (speech/index.ts) *)

Inductive WordClass : Type :=
| CNoun | CVerb | CAdjective | CAdverb | CArticle | CConjunction
| CInterjection | CNumeral | CPreposition | CPronoun | CUndefinedWord.

Record Word : Type := mkWord {
  wordClass : WordClass;
  value : jsstring
}.

(** [new Article(value)] *)
Definition newArticle (v : jsstring) : Result Word :=
  if negb (str_eqb (toLowerCase v) (js "la")) then Throw (InvalidArticleError v)
  else Ok (mkWord CArticle v).

(** [createWord(value, partOfSpeech)] *)
Definition createWord (v partOfSpeech : jsstring) : Result Word :=
  if str_eqb partOfSpeech (js "Noun") then Ok (mkWord CNoun v)
  else if str_eqb partOfSpeech (js "Verb") then Ok (mkWord CVerb v)
  else if str_eqb partOfSpeech (js "Adjective") then Ok (mkWord CAdjective v)
  else if str_eqb partOfSpeech (js "Adverb") then Ok (mkWord CAdverb v)
  else if str_eqb partOfSpeech (js "Article") then newArticle v
  else if str_eqb partOfSpeech (js "Conjunction") then Ok (mkWord CConjunction v)
  else if str_eqb partOfSpeech (js "Interjection") then Ok (mkWord CInterjection v)
  else if str_eqb partOfSpeech (js "Numeral") then Ok (mkWord CNumeral v)
  else if str_eqb partOfSpeech (js "Preposition") then Ok (mkWord CPreposition v)
  else if str_eqb partOfSpeech (js "Pronoun") then Ok (mkWord CPronoun v)
  else Ok (mkWord CUndefinedWord v).

(** [getPartOfSpeech()] of each class. *)
Definition getPartOfSpeech (x : Word) : jsstring :=
  match wordClass x with
  | CNoun => js "Noun"
  | CVerb => js "Verb"
  | CAdjective => js "Adjective"
  | CAdverb => js "Adverb"
  | CArticle => js "Article"
  | CConjunction => js "Conjunction"
  | CInterjection => js "Interjection"
  | CNumeral => js "Numeral"
  | CPreposition => js "Preposition"
  | CPronoun => js "Pronoun"
  | CUndefinedWord => js "Undefined"
  end.

(** The result of the analysis of one word.  An absent or deleted
    property is [None]; [wordInstance: null] is [None] too. *)
#[warning="-register-all"]
Inductive AnalysisResult : Type := mkAnalysisResult {
  word : jsstring;
  partOfSpeech : PartOfSpeech;
  morphology : option MorphologicalFeatures;
  wordInstance : option Word;
  confidence : option Q;
  alternatives : list AnalysisResult;
  analyzer : option jsstring
}.

(** The interface [MorphologicalAnalyzer] of types/index.ts, as the
    dispatcher uses it.  Both methods may throw. *)
Module Analyzer.
Record t : Type := mk {
  name : jsstring;
  partOfSpeech : PartOfSpeech;
  match_ : jsstring -> Result bool;
  extractMorphology : jsstring -> AnalysisOptions -> Result MorphologicalFeatures
}.
End Analyzer.

(** ** The abstract base class (morphological/base.ts) *)

Module BaseMorphologicalAnalyzer.

Definition getEmptyMorphology : MorphologicalFeatures :=
  mkFeatures false false None None None None None.

Definition checkPlural (w : jsstring) : bool :=
  let baseWord := if endsWith w (js "n") then dropEnd 1 w else w in
  endsWith baseWord (js "j").

Definition checkAccusative (w : jsstring) : bool := endsWith w (js "n").

(** [options && !options.includeFeatures]: an absent property is falsy. *)
Definition featuresOff (options : AnalysisOptions) : bool :=
  match includeFeatures options with
  | Some true => false
  | _ => true
  end.

(** [extractMorphology] of the base class; [checkPlural] and
    [checkAccusative] are those of the subclass that calls it. *)
Definition extractMorphology (checkPlural checkAccusative : jsstring -> bool)
    (w : jsstring) (options : AnalysisOptions) : MorphologicalFeatures :=
  let features := getEmptyMorphology in
  if featuresOff options then features
  else
    mkFeatures (checkPlural w) (checkAccusative w) (tense features)
      (mood features) (isPossessive features) (agreement features)
      (root features).

Definition getDefaultOptions : AnalysisOptions :=
  mkOptions (Some true) (Some false) (Some true).

(** [createWordInstance(value)]: here the value comes first. *)
Definition createWordInstance (this : Analyzer.t) (v : jsstring) : Result Word :=
  createWord v (tagString (Analyzer.partOfSpeech this)).

(** [analyze(word, options)] of an analyzer: [null] is [None]. *)
Definition analyze (this : Analyzer.t) (w : jsstring)
    (options : option AnalysisOptions) : Result (option AnalysisResult) :=
  let options :=
    match options with
    | Some o => o
    | None => getDefaultOptions
    end in
  matched <- Analyzer.match_ this w ;;
  if negb matched then Ok None
  else
    try_catch
      (morphology <- Analyzer.extractMorphology this w options ;;
       wordInstance <- createWordInstance this w ;;
       Ok (Some (mkAnalysisResult w (Analyzer.partOfSpeech this)
                   (Some morphology) (Some wordInstance) (Some 1) []
                   (Some (Analyzer.name this)))))
      (fun _ =>
         Ok (Some (mkAnalysisResult w Undefined (Some getEmptyMorphology)
                     None (Some 0) [] (Some (Analyzer.name this))))).

End BaseMorphologicalAnalyzer.

(** Property updates of an object spread [{...m, root}] and the like. *)
Definition with_root (m : MorphologicalFeatures) (r : jsstring)
  : MorphologicalFeatures :=
  mkFeatures (isPlural m) (isAccusative m) (tense m) (mood m)
    (isPossessive m) (agreement m) (Some r).
Definition with_number_case (m : MorphologicalFeatures) (p a : bool)
  : MorphologicalFeatures :=
  mkFeatures p a (tense m) (mood m) (isPossessive m) (agreement m) (root m).

(** ** Nouns (morphological/noun.ts) *)

Module NounMorphologicalAnalyzer.

Definition name : jsstring := js "NounMorphologicalAnalyzer".
Definition partOfSpeech : PartOfSpeech := Noun.

(** [/^[a-zA-ZĉĝĵĥŝŭĈĜĴĤŜŬ]{2,}o(j?n?)$/u] *)
Definition matchRegex : regex :=
  Cat (AtLeast2 Letter) (Cat (Lit (js "o")) JN).

Definition match_ (w : jsstring) : bool := matches matchRegex w.

Definition extractRoot (w : jsstring) : jsstring :=
  let root := w in
  let root := if endsWith root (js "n") then dropEnd 1 root else root in
  let root := if endsWith root (js "j") then dropEnd 1 root else root in
  let root := if endsWith root (js "o") then dropEnd 1 root else root in
  root.

Definition extractMorphology (w : jsstring) (options : AnalysisOptions)
  : Result MorphologicalFeatures :=
  let baseMorphology :=
    BaseMorphologicalAnalyzer.extractMorphology
      BaseMorphologicalAnalyzer.checkPlural
      BaseMorphologicalAnalyzer.checkAccusative w options in
  if negb (match_ w) then Throw (WordDoesNotMatchPattern Noun)
  else
    let root := extractRoot w in
    Ok (with_root baseMorphology root).

Definition new : Analyzer.t :=
  Analyzer.mk name partOfSpeech (fun w => Ok (match_ w)) extractMorphology.

End NounMorphologicalAnalyzer.

(** ** Verbs (morphological/verb.ts) *)

Module VerbMorphologicalAnalyzer.

Definition name : jsstring := js "VerbMorphologicalAnalyzer".
Definition partOfSpeech : PartOfSpeech := Verb.

Definition VERB_ENDINGS : list jsstring :=
  map js ["i"; "as"; "is"; "os"; "us"; "u"]%string.

Definition PARTICIPLE_ENDINGS : list jsstring :=
  map js ["anta"; "ante"; "antaj"; "antajn"; "antan";
          "inta"; "inte"; "intaj"; "intajn"; "intan";
          "onta"; "onte"; "ontaj"; "ontajn"; "ontan";
          "ata"; "ate"; "ataj"; "atajn"; "atan";
          "ita"; "ite"; "itaj"; "itajn"; "itan";
          "ota"; "ote"; "otaj"; "otajn"; "otan"]%string.

Definition ALL_ENDINGS : list jsstring := VERB_ENDINGS ++ PARTICIPLE_ENDINGS.

(** [^[a-zA-ZĉĝĵĥŝŭĈĜĴĤŜŬ]{2,}(i|as|...|otan)$] with the flag [u]. *)
Definition matchRegex : regex := Cat (AtLeast2 Letter) (Join ALL_ENDINGS).

Definition match_ (w : jsstring) : bool := matches matchRegex w.

Definition isParticiple (w : jsstring) (tenseMarker : option jsstring) : bool :=
  let participlePatterns :=
    match tenseMarker with
    | Some t => [t ++ js "a"; t ++ js "e"; t ++ js "aj"; t ++ js "ajn";
                 t ++ js "an"]
    | None => PARTICIPLE_ENDINGS
    end in
  existsb (fun pattern => endsWith w pattern) participlePatterns.

Definition extractTense (w : jsstring) : VerbTense :=
  let normalizedWord := toLowerCase w in
  if endsWith normalizedWord (js "i") then infinitive
  else if endsWith normalizedWord (js "us") then conditional
  else if endsWith normalizedWord (js "as")
          || isParticiple normalizedWord (Some (js "ant")) then present
  else if endsWith normalizedWord (js "is")
          || isParticiple normalizedWord (Some (js "int")) then past
  else if endsWith normalizedWord (js "os")
          || isParticiple normalizedWord (Some (js "ont")) then future
  else present.

Definition extractMood (w : jsstring) : VerbMood :=
  let normalizedWord := toLowerCase w in
  if endsWith normalizedWord (js "i") then mood_infinitive
  else if endsWith normalizedWord (js "us") then mood_conditional
  else if endsWith normalizedWord (js "u") then mood_imperative
  else if isParticiple normalizedWord None then mood_participle
  else mood_indicative.

Definition extractRoot (w : jsstring) : jsstring :=
  let normalizedWord := toLowerCase w in
  match find (fun ending => endsWith normalizedWord ending) ALL_ENDINGS with
  | Some ending => dropEnd (length ending) normalizedWord
  | None => normalizedWord
  end.

Definition checkPlural (w : jsstring) : bool :=
  let normalizedWord := toLowerCase w in
  if isParticiple normalizedWord None
  then endsWith normalizedWord (js "aj") || endsWith normalizedWord (js "ajn")
  else false.

Definition checkAccusative (w : jsstring) : bool :=
  let normalizedWord := toLowerCase w in
  if isParticiple normalizedWord None then endsWith normalizedWord (js "n")
  else false.

Definition extractMorphology (w : jsstring) (options : AnalysisOptions)
  : Result MorphologicalFeatures :=
  let baseMorphology :=
    BaseMorphologicalAnalyzer.extractMorphology checkPlural checkAccusative
      w options in
  if negb (match_ w) then Throw (WordDoesNotMatchPattern Verb)
  else
    let tense := extractTense w in
    let mood := extractMood w in
    let root := extractRoot w in
    Ok (mkFeatures (isPlural baseMorphology) (isAccusative baseMorphology)
          (Some tense) (Some mood) (isPossessive baseMorphology)
          (agreement baseMorphology) (Some root)).

Definition new : Analyzer.t :=
  Analyzer.mk name partOfSpeech (fun w => Ok (match_ w)) extractMorphology.

End VerbMorphologicalAnalyzer.

(** ** Adjectives (morphological/adjective.ts) *)

Module AdjectiveMorphologicalAnalyzer.

Definition name : jsstring := js "AdjectiveMorphologicalAnalyzer".
Definition partOfSpeech : PartOfSpeech := Adjective.

(** [/^[a-zA-ZĉĝĵĥŝŭĈĜĴĤŜŬ]{2,}a(j?n?)$/u] *)
Definition matchRegex : regex :=
  Cat (AtLeast2 Letter) (Cat (Lit (js "a")) JN).

Definition match_ (w : jsstring) : bool := matches matchRegex w.

Definition extractRoot (w : jsstring) : jsstring :=
  let root := toLowerCase w in
  let root := if endsWith root (js "n") then dropEnd 1 root else root in
  let root := if endsWith root (js "j") then dropEnd 1 root else root in
  let root := if endsWith root (js "a") then dropEnd 1 root else root in
  root.

Definition extractMorphology (w : jsstring) (options : AnalysisOptions)
  : Result MorphologicalFeatures :=
  let baseMorphology :=
    BaseMorphologicalAnalyzer.extractMorphology
      BaseMorphologicalAnalyzer.checkPlural
      BaseMorphologicalAnalyzer.checkAccusative w options in
  if negb (match_ w) then Throw (WordDoesNotMatchPattern Adjective)
  else
    let root := extractRoot w in
    let agreement :=
      mkAgreement (isPlural baseMorphology) (isAccusative baseMorphology) in
    Ok (mkFeatures (isPlural baseMorphology) (isAccusative baseMorphology)
          (tense baseMorphology) (mood baseMorphology)
          (isPossessive baseMorphology) (Some agreement) (Some root)).

Definition new : Analyzer.t :=
  Analyzer.mk name partOfSpeech (fun w => Ok (match_ w)) extractMorphology.

End AdjectiveMorphologicalAnalyzer.

(** ** Adverbs (morphological/adverb.ts) *)

Module AdverbMorphologicalAnalyzer.

Definition name : jsstring := js "AdverbMorphologicalAnalyzer".
Definition partOfSpeech : PartOfSpeech := Adverb.

Definition SPECIAL_ADVERBS : list jsstring :=
  map js ["nun"; "tuj"; "jam"; "ankoraŭ"; "baldaŭ"; "hieraŭ"; "hodiaŭ";
          "morgaŭ"; "tre"; "pli"; "plej"; "tro"; "nur"; "eĉ"; "preskaŭ";
          "apenaŭ"; "ĉirkaŭ"; "jen"; "for"; "hejm"; "eksteren"; "supren";
          "malsupren"; "antaŭen"; "malantaŭen"; "dekstren"; "maldekstren";
          "ien"; "nien"; "tien"; "ĉien"]%string.

(** [/^[a-zĉĝĵĥŝŭ]+$/u] on the lower-cased word. *)
Definition hasValidEsperantoCharacters (w : jsstring) : bool :=
  matches (Plus SmallLetter) (toLowerCase w).

Definition englishPatterns : list (jsstring -> bool) :=
  [ test_at_end (Lit (js "ouse"));
    test_anywhere (Lit (js "tion"));
    test_at_start (Lit (js "th"));
    test_anywhere (Lit (js "ght"));
    test_at_end (Lit (js "ple"));
    test_at_end (Lit (js "ble"));
    (* /[^aeiouĉĝĵĥŝŭ]{3,}/ *)
    test_anywhere
      (let c := NoneOf (js "aeiouĉĝĵĥŝŭ") in Cat c (Cat c (Cat c (Star c)))) ].

Definition hasValidEsperantoPhonology (w : jsstring) : bool :=
  let normalizedWord := toLowerCase w in
  if (length normalizedWord <? 4)%nat then false
  else if test_anywhere (OneOf (js "qwxy")) normalizedWord then false
  else if existsb (fun pattern => pattern normalizedWord) englishPatterns
  then false
  else if test_anywhere (Doubled (js "bcdfghjklmnpqrstvwxyz")) normalizedWord
  then false
  else true.

(** [^(nun|tuj|...|ĉien|[a-zĉĝĵĥŝŭ]{2,}e)$] with the flags [iu]. *)
Definition matchRegex : regex :=
  Alt (JoinI SPECIAL_ADVERBS) (Cat (AtLeast2 SmallLetterI) (LitI (js "e"))).

Definition isSpecialAdverb (w : jsstring) : bool :=
  let normalizedWord := toLowerCase w in
  includes SPECIAL_ADVERBS normalizedWord.

Definition match_ (w : jsstring) : bool :=
  if negb (matches matchRegex w) then false
  else if isSpecialAdverb w then true
  else hasValidEsperantoCharacters w && hasValidEsperantoPhonology w.

Definition extractRoot (w : jsstring) : jsstring :=
  let normalizedWord := toLowerCase w in
  if isSpecialAdverb normalizedWord then normalizedWord
  else if endsWith normalizedWord (js "e") then dropEnd 1 normalizedWord
  else normalizedWord.

Definition checkPlural (_ : jsstring) : bool := false.
Definition checkAccusative (_ : jsstring) : bool := false.

Definition extractMorphology (w : jsstring) (options : AnalysisOptions)
  : Result MorphologicalFeatures :=
  let baseMorphology :=
    BaseMorphologicalAnalyzer.extractMorphology checkPlural checkAccusative
      w options in
  if negb (match_ w) then Throw (WordDoesNotMatchPattern Adverb)
  else
    let root := extractRoot w in
    Ok (with_number_case (with_root baseMorphology root) false false).

Definition new : Analyzer.t :=
  Analyzer.mk name partOfSpeech (fun w => Ok (match_ w)) extractMorphology.

End AdverbMorphologicalAnalyzer.

(** ** The article (morphological/article.ts) *)

Module ArticleMorphologicalAnalyzer.

Definition name : jsstring := js "ArticleMorphologicalAnalyzer".
Definition partOfSpeech : PartOfSpeech := Article.

(** [/^la$/iu] *)
Definition matchRegex : regex := LitI (js "la").

Definition match_ (w : jsstring) : bool := matches matchRegex w.

Definition checkPlural (_ : jsstring) : bool := false.
Definition checkAccusative (_ : jsstring) : bool := false.

Definition extractMorphology (w : jsstring) (options : AnalysisOptions)
  : Result MorphologicalFeatures :=
  let baseMorphology :=
    BaseMorphologicalAnalyzer.extractMorphology checkPlural checkAccusative
      w options in
  if negb (match_ w) then Throw (WordDoesNotMatchPattern Article)
  else
    Ok (with_root (with_number_case baseMorphology false false) (js "la")).

Definition new : Analyzer.t :=
  Analyzer.mk name partOfSpeech (fun w => Ok (match_ w)) extractMorphology.

End ArticleMorphologicalAnalyzer.

(** ** Conjunctions (morphological/conjunction.ts) *)

Module ConjunctionMorphologicalAnalyzer.

Definition name : jsstring := js "ConjunctionMorphologicalAnalyzer".
Definition partOfSpeech : PartOfSpeech := Conjunction.

Definition CONJUNCTIONS : list jsstring :=
  map js ["antaŭ kiam"; "antaŭ ol"; "aŭ"; "ĉar"; "ĉu"; "k"; "kaj"; "kaŭ";
          "ke"; "kial"; "kiam"; "kie"; "kiel"; "kune kun"; "kvankam";
          "kvazaŭ"; "minus"; "nek"; "ol"; "plus"; "se"; "sed"; "tial"]%string.

(** [^(antaŭ kiam|...|tial)$] with the flags [iu]. *)
Definition matchRegex : regex := JoinI CONJUNCTIONS.

Definition match_ (w : jsstring) : bool := matches matchRegex w.

Definition checkPlural (_ : jsstring) : bool := false.
Definition checkAccusative (_ : jsstring) : bool := false.

Definition extractMorphology (w : jsstring) (options : AnalysisOptions)
  : Result MorphologicalFeatures :=
  let baseMorphology :=
    BaseMorphologicalAnalyzer.extractMorphology checkPlural checkAccusative
      w options in
  if negb (match_ w) then Throw (WordDoesNotMatchPattern Conjunction)
  else
    let normalizedWord := toLowerCase w in
    Ok (with_root (with_number_case baseMorphology false false)
          normalizedWord).

Definition new : Analyzer.t :=
  Analyzer.mk name partOfSpeech (fun w => Ok (match_ w)) extractMorphology.

End ConjunctionMorphologicalAnalyzer.

(** ** Interjections (morphological/interjection.ts) *)

Module InterjectionMorphologicalAnalyzer.

Definition name : jsstring := js "InterjectionMorphologicalAnalyzer".
Definition partOfSpeech : PartOfSpeech := Interjection.

Definition INTERJECTIONS : list jsstring :=
  map js ["aĥ!"; "aj!"; "ba!"; "baf!"; "baj!"; "be!"; "bis!"; "diable!";
          "ek!"; "fi!"; "fu!"; "ĝis!"; "ha!"; "ha lo!"; "he!"; "hej!";
          "ho!"; "ho ve!"; "hoj!"; "hola!"; "hu!"; "hup!"; "hura!"; "lo!";
          "lu lu!"; "nu!"; "uf!"; "up!"; "ŭa!"; "ve!"; "volapukaĵo!";
          "jen"]%string.

(** The overriding [match]: a lookup in the list, not the pattern. *)
Definition match_ (w : jsstring) : bool :=
  let normalizedWord := toLowerCase w in
  existsb (fun interjection => str_eqb (toLowerCase interjection) normalizedWord)
    INTERJECTIONS.

Definition checkPlural (_ : jsstring) : bool := false.
Definition checkAccusative (_ : jsstring) : bool := false.

Definition extractMorphology (w : jsstring) (options : AnalysisOptions)
  : Result MorphologicalFeatures :=
  let baseMorphology :=
    BaseMorphologicalAnalyzer.extractMorphology checkPlural checkAccusative
      w options in
  if negb (match_ w) then Throw (WordDoesNotMatchPattern Interjection)
  else
    let normalizedWord := toLowerCase w in
    Ok (with_root (with_number_case baseMorphology false false)
          normalizedWord).

Definition new : Analyzer.t :=
  Analyzer.mk name partOfSpeech (fun w => Ok (match_ w)) extractMorphology.

End InterjectionMorphologicalAnalyzer.

(** ** Numerals (morphological/numeral.ts) *)

Module NumeralMorphologicalAnalyzer.

Definition name : jsstring := js "NumeralMorphologicalAnalyzer".
Definition partOfSpeech : PartOfSpeech := Numeral.

Definition BASIC_NUMBERS : list jsstring :=
  map js ["nul"; "unu"; "du"; "tri"; "kvar"; "kvin"; "ses"; "sep"; "ok";
          "naŭ"; "dek"; "cent"; "mil"; "milion"; "miliard"]%string.

Definition SPECIAL_NUMBERS : list jsstring :=
  map js ["ambaŭ"; "paro"; "duopo"; "trio"; "kvarteto"; "dekumo";
          "pecento"; "promilo"]%string.

(** [^((nul|...|miliard)+(a(j?n?)|e|on(j?n?)|obl[ae](j?n?)|op[ae](j?n?))?|
      ambaŭ|paro|...|promilo(j?n?)?)$] with the flags [iu]: the joined
    special words are alternatives of the outer group, so that the final
    [(j?n?)?] belongs to the last of them only. *)
Definition matchRegex : regex :=
  Alt
    (Cat (Plus (JoinI BASIC_NUMBERS))
       (Opt (AnyOf
          [ Cat (LitI (js "a")) JNI;
            LitI (js "e");
            Cat (LitI (js "on")) JNI;
            Cat (LitI (js "obl")) (Cat (OneOfI (js "ae")) JNI);
            Cat (LitI (js "op")) (Cat (OneOfI (js "ae")) JNI) ])))
    (AnyOf
       (map LitI (removelast SPECIAL_NUMBERS)
        ++ [Cat (LitI (last SPECIAL_NUMBERS [])) (Opt JNI)])).

Definition match_ (w : jsstring) : bool := matches matchRegex w.

(** The patterns of [extractNumeralRoot], all anchored at the end. *)
Definition rootPatterns : list regex :=
  [ Cat (Lit (js "a")) JN;
    Lit (js "e");
    Cat (Lit (js "on")) JN;
    Cat (Lit (js "obl")) (Cat (OneOf (js "ae")) JN);
    Cat (Lit (js "op")) (Cat (OneOf (js "ae")) JN);
    JN ].

Fixpoint firstMatch (patterns : list regex) (w : jsstring) : option jsstring :=
  match patterns with
  | [] => None
  | pattern :: rest =>
      match match_at_end pattern w with
      | Some m => Some m
      | None => firstMatch rest w
      end
  end.

Definition extractNumeralRoot (w : jsstring) : jsstring :=
  let lowercaseWord := toLowerCase w in
  match firstMatch rootPatterns lowercaseWord with
  | Some m => firstn (length lowercaseWord - length m) lowercaseWord
  | None => lowercaseWord
  end.

Definition checkPlural (w : jsstring) : bool :=
  test_anywhere (Lit (js "j")) (toLowerCase w).

Definition checkAccusative (w : jsstring) : bool :=
  test_at_end (Lit (js "n")) (toLowerCase w).

Definition extractMorphology (w : jsstring) (options : AnalysisOptions)
  : Result MorphologicalFeatures :=
  let baseMorphology :=
    BaseMorphologicalAnalyzer.extractMorphology checkPlural checkAccusative
      w options in
  if negb (match_ w) then Throw (WordDoesNotMatchPattern Numeral)
  else
    let root := extractNumeralRoot w in
    Ok (with_root baseMorphology root).

Definition new : Analyzer.t :=
  Analyzer.mk name partOfSpeech (fun w => Ok (match_ w)) extractMorphology.

End NumeralMorphologicalAnalyzer.

(** ** Prepositions (morphological/preposition.ts) *)

Module PrepositionMorphologicalAnalyzer.

Definition name : jsstring := js "PrepositionMorphologicalAnalyzer".
Definition partOfSpeech : PartOfSpeech := Preposition.

Definition PREPOSITIONS : list jsstring :=
  map js ["al"; "anstataŭ"; "antaŭ"; "apud"; "ce"; "ĉe"; "ĉirkaŭ"; "da";
          "de"; "dum"; "ekster"; "el"; "en"; "estas"; "for"; "ĝis"; "inter";
          "je"; "kontraŭ"; "krom"; "kun"; "laŭ"; "malgraŭ"; "per"; "po";
          "por"; "post"; "preter"; "pri"; "pro"; "sen"; "sub"; "super";
          "sur"; "tra"; "trans"; "ĉu"]%string.

Definition COMPOUND_PREPOSITIONS : list jsstring :=
  map js ["anstataŭ ol"; "dank' al"; "danke al"; "kune kun"; "rilate al";
          "spite al"; "nome pri"; "koncerne pri"]%string.

(** [^(al|...|koncerne pri)$] with the flags [iu]. *)
Definition matchRegex : regex :=
  JoinI (PREPOSITIONS ++ COMPOUND_PREPOSITIONS).

Definition match_ (w : jsstring) : bool := matches matchRegex w.

Definition checkPlural (_ : jsstring) : bool := false.
Definition checkAccusative (_ : jsstring) : bool := false.

Definition extractMorphology (w : jsstring) (options : AnalysisOptions)
  : Result MorphologicalFeatures :=
  let baseMorphology :=
    BaseMorphologicalAnalyzer.extractMorphology checkPlural checkAccusative
      w options in
  if negb (match_ w) then Throw (WordDoesNotMatchPattern Preposition)
  else
    let normalizedWord := toLowerCase w in
    Ok (with_root (with_number_case baseMorphology false false)
          normalizedWord).

Definition new : Analyzer.t :=
  Analyzer.mk name partOfSpeech (fun w => Ok (match_ w)) extractMorphology.

End PrepositionMorphologicalAnalyzer.

(** ** Pronouns (morphological/pronoun.ts) *)

Module PronounMorphologicalAnalyzer.

Definition name : jsstring := js "PronounMorphologicalAnalyzer".
Definition partOfSpeech : PartOfSpeech := Pronoun.

Definition PERSONAL_PRONOUNS : list jsstring :=
  map js ["mi"; "vi"; "li"; "ŝi"; "ĝi"; "ni"; "ili"; "oni"; "si"]%string.

Definition POSSESSIVE_ROOTS : list jsstring :=
  map js ["mi"; "vi"; "li"; "ŝi"; "ĝi"; "ni"; "ili"; "oni"; "si"]%string.

Definition CORRELATIVE_BEGINNINGS : list jsstring :=
  map js ["ki"; "ti"; "i"; "ĉi"; "neni"]%string.

Definition CORRELATIVE_ENDINGS : list jsstring :=
  map js ["u"; "o"; "a"; "e"; "al"; "am"; "om"; "el"]%string.

Definition SPECIAL_PRONOUNS : list jsstring :=
  map js ["ĉi"; "mem"; "sama"; "tia"; "tial"; "tiam"; "tie"; "tiel";
          "tiom"]%string.

Definition generateCorrelatives : list jsstring :=
  flat_map
    (fun beginning =>
       flat_map
         (fun ending =>
            (beginning ++ ending)
            :: (if str_eqb ending (js "u")
                then [beginning ++ ending ++ js "o"] else []))
         CORRELATIVE_ENDINGS)
    CORRELATIVE_BEGINNINGS.

(** The five alternatives of the pattern, with the flags [iu]. *)
Definition matchRegex : regex :=
  AnyOf
    [ Cat (JoinI PERSONAL_PRONOUNS) (Opt (LitI (js "n")));
      Cat (JoinI POSSESSIVE_ROOTS) (Cat (LitI (js "a")) JNI);
      Cat (JoinI generateCorrelatives) JNI;
      Cat (JoinI SPECIAL_PRONOUNS) JNI;
      (* ĉi\s+(ti[uoael]|ti[ao]m|tiel)(j?n?) *)
      Cat (LitI (js "ĉi"))
        (Cat (Plus Space)
           (Cat (AnyOf
                   [ Cat (LitI (js "ti")) (OneOfI (js "uoael"));
                     Cat (LitI (js "ti"))
                       (Cat (OneOfI (js "ao")) (LitI (js "m")));
                     LitI (js "tiel") ])
              JNI)) ].

Definition match_ (w : jsstring) : bool := matches matchRegex w.

(** The patterns of [extractPronounRoot], all anchored at the end. *)
Definition rootPatterns : list regex :=
  [ Cat (Lit (js "a")) JN; Lit (js "n"); JN ].

Fixpoint firstShorterMatch (patterns : list regex) (w : jsstring)
  : option jsstring :=
  match patterns with
  | [] => None
  | pattern :: rest =>
      match match_at_end pattern w with
      | Some m =>
          if (length m <? length w)%nat then Some m
          else firstShorterMatch rest w
      | None => firstShorterMatch rest w
      end
  end.

Definition extractPronounRoot (w : jsstring) : jsstring :=
  let lowercaseWord := trim (toLowerCase w) in
  if startsWith lowercaseWord (js "ĉi ") then substring_from 3 lowercaseWord
  else
    match firstShorterMatch rootPatterns lowercaseWord with
    | Some m => firstn (length lowercaseWord - length m) lowercaseWord
    | None => lowercaseWord
    end.

(** [/[a-ząęėįšųūž]a(j?n?)$/] and a possessive root followed by [a]. *)
Definition isPossessive_ (w : jsstring) : bool :=
  test_at_end
    (Cat (Cls (fun x => ((97 <=? x) && (x <=? 122))%N
                        || existsb (N.eqb x) (js "ąęėįšųūž")))
       (Cat (Lit (js "a")) JN))
    (toLowerCase w)
  && existsb (fun root => startsWith (toLowerCase w) (root ++ js "a"))
       POSSESSIVE_ROOTS.

Definition checkPlural (w : jsstring) : bool :=
  test_anywhere (Lit (js "j")) (toLowerCase w).

Definition checkAccusative (w : jsstring) : bool :=
  test_at_end (Lit (js "n")) (toLowerCase w).

Definition extractMorphology (w : jsstring) (options : AnalysisOptions)
  : Result MorphologicalFeatures :=
  let baseMorphology :=
    BaseMorphologicalAnalyzer.extractMorphology checkPlural checkAccusative
      w options in
  if negb (match_ w) then Throw (WordDoesNotMatchPattern Pronoun)
  else
    let root := extractPronounRoot w in
    Ok (mkFeatures (isPlural baseMorphology) (isAccusative baseMorphology)
          (tense baseMorphology) (mood baseMorphology)
          (Some (isPossessive_ w)) (agreement baseMorphology) (Some root)).

Definition new : Analyzer.t :=
  Analyzer.mk name partOfSpeech (fun w => Ok (match_ w)) extractMorphology.

End PronounMorphologicalAnalyzer.

(** The analyzers in the order of iteration (morphological/index.ts). *)
Definition ALL_MORPHOLOGICAL_ANALYZERS : list Analyzer.t :=
  [ NounMorphologicalAnalyzer.new;
    VerbMorphologicalAnalyzer.new;
    AdjectiveMorphologicalAnalyzer.new;
    AdverbMorphologicalAnalyzer.new;
    ArticleMorphologicalAnalyzer.new;
    ConjunctionMorphologicalAnalyzer.new;
    InterjectionMorphologicalAnalyzer.new;
    NumeralMorphologicalAnalyzer.new;
    PrepositionMorphologicalAnalyzer.new;
    PronounMorphologicalAnalyzer.new ].

(** ** Arrays *)

(** [Array.prototype.sort] with the comparator
    [(a, b) => key(b) - key(a)]: the sort is stable, and for this
    comparator the stable descending order is unique; it is computed by
    insertion.  [insert_desc x l] puts [x], which comes before the
    elements of [l] in the array, after those that the comparator ranks
    strictly before it. *)
Fixpoint insert_desc {A : Type} (key : A -> Q) (x : A) (l : list A) : list A :=
  match l with
  | [] => [x]
  | y :: l' =>
      if Qle_bool (key y - key x) 0 then x :: y :: l'
      else y :: insert_desc key x l'
  end.

Definition sort_desc {A : Type} (key : A -> Q) (l : list A) : list A :=
  fold_right (insert_desc key) [] l.

(** [array.slice(from, to)] with relative indices. *)
Definition relativeIndex (len i : Z) : Z :=
  if (i <? 0)%Z then Z.max (len + i) 0 else Z.min i len.

Definition array_slice {A : Type} (from to : Z) (l : list A) : list A :=
  let len := Z.of_nat (length l) in
  let k := relativeIndex len from in
  let final := relativeIndex len to in
  firstn (Z.to_nat (final - k)) (skipn (Z.to_nat k) l).

Definition isEmpty (s : jsstring) : bool :=
  match s with
  | [] => true
  | _ => false
  end.

(** ** The word dispatcher (analyzers/morphological-analyzer.ts) *)

Module MorphologicalAnalyzer.

Record t : Type := mk {
  analyzers : list Analyzer.t
}.

(** The constructor instantiates every class of the list. *)
Definition new : t := mk ALL_MORPHOLOGICAL_ANALYZERS.

Module Match.
Record t : Type := mk {
  analyzer : Analyzer.t;
  confidence : Q
}.
End Match.

Definition getDefaultOptions : AnalysisOptions :=
  mkOptions (Some true) (Some false) (Some true).

Definition basicNumbers : list jsstring :=
  map js ["nul"; "unu"; "du"; "tri"; "kvar"; "kvin"; "ses"; "sep"; "ok";
          "naŭ"; "dek"; "cent"; "mil"; "milion"; "miliard"]%string.

Definition correlativePronouns : list jsstring :=
  map js ["kiu"; "kio"; "kia"; "kie"; "kial"; "kiam"; "kiom"; "kiel";
          "tiu"; "tio"; "tia"; "tie"; "tial"; "tiam"; "tiom"; "tiel";
          "iu"; "io"; "ia"; "ie"; "ial"; "iam"; "iom"; "iel";
          "ĉiu"; "ĉio"; "ĉia"; "ĉie"; "ĉial"; "ĉiam"; "ĉiom"; "ĉiel";
          "neniu"; "nenio"; "nenia"; "nenie"; "nenial"; "neniam"; "neniom";
          "neniel"]%string.

(** The stricter shapes of the [switch]; none has a flag. *)
Definition nounShape : regex := Cat (Plus Letter) (Cat (Lit (js "o")) JN).
Definition verbShape : regex :=
  Cat (Plus Letter) (Join (map js ["as"; "is"; "os"; "us"; "u"; "i"]%string)).
Definition adjectiveShape : regex := Cat (Plus Letter) (Cat (Lit (js "a")) JN).
Definition adverbShape : regex := Cat (Plus Letter) (Lit (js "e")).

Definition calculateConfidence (analyzer : Analyzer.t) (w : jsstring) : Q :=
  let tag := Analyzer.partOfSpeech analyzer in
  let confidence := 0.5 in
  let confidence :=
    if PartOfSpeech_eqb tag Article && str_eqb (toLowerCase w) (js "la")
    then 1.0 else confidence in
  let confidence :=
    if PartOfSpeech_eqb tag Numeral
    then if includes basicNumbers (toLowerCase w) then 0.95 else confidence
    else confidence in
  let confidence :=
    if PartOfSpeech_eqb tag Pronoun
    then if includes correlativePronouns (toLowerCase w) then 0.9
         else confidence
    else confidence in
  let confidence :=
    if (5 <? length w)%nat
       && existsb (PartOfSpeech_eqb tag) [Verb; Noun; Adjective]
    then confidence + 0.2 else confidence in
  let confidence :=
    match tag with
    | Noun => if matches nounShape w then confidence + 0.3 else confidence
    | Verb => if matches verbShape w then confidence + 0.3 else confidence
    | Adjective =>
        if matches adjectiveShape w then confidence + 0.3 else confidence
    | Adverb => if matches adverbShape w then confidence + 0.3 else confidence
    | _ => confidence
    end in
  Qmin confidence 1.0.

(** The same arithmetic on the doubles themselves: it gives the double
    of the rational score (lemma [calculateConfidence_double]). *)
Definition calculateConfidenceDouble (analyzer : Analyzer.t) (w : jsstring)
  : Double :=
  let tag := Analyzer.partOfSpeech analyzer in
  let confidence := toDouble 0.5 in
  let confidence :=
    if PartOfSpeech_eqb tag Article && str_eqb (toLowerCase w) (js "la")
    then toDouble 1.0 else confidence in
  let confidence :=
    if PartOfSpeech_eqb tag Numeral
    then if includes basicNumbers (toLowerCase w) then toDouble 0.95
         else confidence
    else confidence in
  let confidence :=
    if PartOfSpeech_eqb tag Pronoun
    then if includes correlativePronouns (toLowerCase w) then toDouble 0.9
         else confidence
    else confidence in
  let confidence :=
    if (5 <? length w)%nat
       && existsb (PartOfSpeech_eqb tag) [Verb; Noun; Adjective]
    then dadd confidence (toDouble 0.2) else confidence in
  let confidence :=
    match tag with
    | Noun =>
        if matches nounShape w then dadd confidence (toDouble 0.3)
        else confidence
    | Verb =>
        if matches verbShape w then dadd confidence (toDouble 0.3)
        else confidence
    | Adjective =>
        if matches adjectiveShape w then dadd confidence (toDouble 0.3)
        else confidence
    | Adverb =>
        if matches adverbShape w then dadd confidence (toDouble 0.3)
        else confidence
    | _ => confidence
    end in
  dmin confidence (toDouble 1.0).

Definition createUnknownWordResult (w : jsstring) : AnalysisResult :=
  mkAnalysisResult w Unknown
    (Some (mkFeatures false false None None None None (Some w)))
    None (Some 0) [] (Some (js "Unknown")).

(** The loop over the analyzers: an analyzer whose [match] throws is
    skipped. *)
Fixpoint collectMatches (l : list Analyzer.t) (cleanWord : jsstring)
  : list Match.t :=
  match l with
  | [] => []
  | analyzer :: rest =>
      match Analyzer.match_ analyzer cleanWord with
      | Ok true =>
          Match.mk analyzer (calculateConfidence analyzer cleanWord)
          :: collectMatches rest cleanWord
      | Ok false => collectMatches rest cleanWord
      | Throw _ => collectMatches rest cleanWord
      end
  end.

(** One analysis from an analyzer and a score.  The factory is called
    with the tag first and the word second, as in the source. *)
Definition buildResult (analyzer : Analyzer.t) (c : Q) (w : jsstring)
    (options : AnalysisOptions) (alts : list AnalysisResult)
  : Result AnalysisResult :=
  morphology <- Analyzer.extractMorphology analyzer w options ;;
  let speechPart := Analyzer.partOfSpeech analyzer in
  wordInstance <- createWord (tagString speechPart) w ;;
  Ok (mkAnalysisResult w speechPart (Some morphology) (Some wordInstance)
        (Some c) alts (Some (Analyzer.name analyzer))).

Definition getAlternatives (ms : list Match.t) (w : jsstring)
    (options : AnalysisOptions) : list AnalysisResult :=
  map
    (fun m =>
       match buildResult (Match.analyzer m) (Match.confidence m) w options []
       with
       | Ok r => r
       | Throw _ =>
           mkAnalysisResult w Unknown
             (Some (mkFeatures false false None None None None (Some w)))
             None (Some 0) [] (Some (Analyzer.name (Match.analyzer m)))
       end)
    (array_slice 0 3 ms).

Definition analyze (this : t) (w : JsValue) (options : option AnalysisOptions)
  : Result AnalysisResult :=
  let options :=
    match options with
    | Some o => o
    | None => getDefaultOptions
    end in
  match w with
  | JString w =>
      if isEmpty w then Throw WordMustBeNonEmptyString
      else
        let cleanWord := trim w in
        if isEmpty cleanWord then Throw WordEmptyOrWhitespace
        else
          let found := collectMatches (analyzers this) cleanWord in
          if (length found =? 0)%nat
          then Ok (createUnknownWordResult cleanWord)
          else
            let found := sort_desc Match.confidence found in
            match found with
            | [] => Ok (createUnknownWordResult cleanWord)
            | bestMatch :: _ =>
                try_catch
                  (buildResult (Match.analyzer bestMatch)
                     (Match.confidence bestMatch) cleanWord options
                     (getAlternatives (skipn 1 found) cleanWord options))
                  (fun _ => Ok (createUnknownWordResult cleanWord))
            end
  | _ => Throw WordMustBeNonEmptyString
  end.

(** [(r.confidence || 0)] *)
Definition confidenceOrZero (r : AnalysisResult) : Q :=
  match confidence r with
  | Some c => c
  | None => 0
  end.

Fixpoint collectResults (l : list Analyzer.t) (cleanWord : jsstring)
    (options : AnalysisOptions) : list AnalysisResult :=
  match l with
  | [] => []
  | analyzer :: rest =>
      match Analyzer.match_ analyzer cleanWord with
      | Ok true =>
          match buildResult analyzer (calculateConfidence analyzer cleanWord)
                  cleanWord options [] with
          | Ok r => r :: collectResults rest cleanWord options
          | Throw _ => collectResults rest cleanWord options
          end
      | Ok false => collectResults rest cleanWord options
      | Throw _ => collectResults rest cleanWord options
      end
  end.

Definition analyzeAll (this : t) (w : JsValue) (options : option AnalysisOptions)
  : Result (list AnalysisResult) :=
  let options :=
    match options with
    | Some o => o
    | None => mkOptions None None None
    end in
  match w with
  | JString w =>
      if isEmpty w then Throw WordMustBeNonEmptyString
      else
        let cleanWord := trim w in
        if isEmpty cleanWord then Throw WordEmptyOrWhitespace
        else
          let results := collectResults (analyzers this) cleanWord options in
          Ok (sort_desc confidenceOrZero results)
  | _ => Throw WordMustBeNonEmptyString
  end.

Definition canAnalyze (this : t) (w : JsValue) : bool :=
  match w with
  | JString w =>
      if isEmpty w then false
      else
        let cleanWord := trim w in
        if isEmpty cleanWord then false
        else
          existsb
            (fun analyzer =>
               match Analyzer.match_ analyzer cleanWord with
               | Ok b => b
               | Throw _ => false
               end)
            (analyzers this)
  | _ => false
  end.

Definition getAnalyzer (this : t) (tag : PartOfSpeech) : option Analyzer.t :=
  find (fun analyzer => PartOfSpeech_eqb (Analyzer.partOfSpeech analyzer) tag)
    (analyzers this).

End MorphologicalAnalyzer.

(** ** The sentence analyzer (analyzers/morphological-sentence-analyzer.ts) *)

Module MorphologicalSentenceAnalyzer.

(** The options as the caller passes them: an absent property is [None]. *)
Record SentenceAnalysisOptions : Type := mkSentenceOptions {
  includeConfidence : option bool;
  includeAlternatives : option bool;
  includeMorphology : option bool;
  maxAlternatives : option Z;
  preserveCase : option bool
}.

(** [{includeConfidence: true, ..., ...options}] *)
Record MergedOptions : Type := mkMerged {
  m_includeConfidence : bool;
  m_includeAlternatives : bool;
  m_includeMorphology : bool;
  m_maxAlternatives : Z;
  m_preserveCase : bool
}.

Definition orDefault {A : Type} (o : option A) (d : A) : A :=
  match o with
  | Some a => a
  | None => d
  end.

Definition mergeOptions (options : SentenceAnalysisOptions) : MergedOptions :=
  mkMerged (orDefault (includeConfidence options) true)
    (orDefault (includeAlternatives options) false)
    (orDefault (includeMorphology options) true)
    (orDefault (maxAlternatives options) 2%Z)
    (orDefault (preserveCase options) false).

Definition noOptions : SentenceAnalysisOptions :=
  mkSentenceOptions None None None None None.

(** [Record<string, number>]: the keys in the order of their insertion. *)
Definition Counts : Type := list (PartOfSpeech * Z).

Fixpoint getCount (counts : Counts) (tag : PartOfSpeech) : option Z :=
  match counts with
  | [] => None
  | (k, n) :: rest => if PartOfSpeech_eqb k tag then Some n else getCount rest tag
  end.

Fixpoint setCount (counts : Counts) (tag : PartOfSpeech) (n : Z) : Counts :=
  match counts with
  | [] => [(tag, n)]
  | (k, m) :: rest =>
      if PartOfSpeech_eqb k tag then (k, n) :: rest
      else (k, m) :: setCount rest tag n
  end.

Record Statistics : Type := mkStatistics {
  totalWords : Z;
  analyzedWords : Z;
  unknownWords : Z;
  averageConfidence : Double;
  partOfSpeechCounts : Counts
}.

Record SentenceAnalysisResult : Type := mkSentenceResult {
  originalSentence : jsstring;
  words : list AnalysisResult;
  statistics : Statistics
}.

Record t : Type := mk {
  wordAnalyzer : MorphologicalAnalyzer.t
}.

Definition new : t := mk MorphologicalAnalyzer.new.

Definition isPunctuation (c : N) : bool := existsb (N.eqb c) (js ".!?;:,").

(** [replace(/([.!?;:,])/g, ' $1 ')] *)
Definition spacePunctuation (s : jsstring) : jsstring :=
  flat_map (fun c => if isPunctuation c then [32%N; c; 32%N] else [c]) s.

(** [replace(/\s+/g, ' ')]: every run of white space becomes one space;
    [inRun] tells that the run being read has been replaced already. *)
Fixpoint collapseFrom (inRun : bool) (s : jsstring) : jsstring :=
  match s with
  | [] => []
  | c :: s' =>
      if isWhiteSpace c
      then if inRun then collapseFrom true s' else 32%N :: collapseFrom true s'
      else c :: collapseFrom false s'
  end.

Definition collapseWhitespace (s : jsstring) : jsstring :=
  collapseFrom false s.

(** [split(/\s+/)]: the pieces between the runs of white space; [cur]
    is the piece being read, backwards. *)
Fixpoint splitWhitespace (cur : jsstring) (s : jsstring) : list jsstring :=
  match s with
  | [] => [rev cur]
  | c :: s' =>
      if isWhiteSpace c
      then
        match s' with
        | [] => [rev cur; []]
        | c' :: _ =>
            if isWhiteSpace c' then splitWhitespace cur s'
            else rev cur :: splitWhitespace [] s'
        end
      else splitWhitespace (c :: cur) s'
  end.

Definition tokenize (sentence : jsstring) : list jsstring :=
  let tokens :=
    splitWhitespace [] (trim (collapseWhitespace (spacePunctuation sentence))) in
  let tokens := filter (fun token => (0 <? length token)%nat) tokens in
  filter (fun token => negb (matches (Plus (Cls isPunctuation)) token)) tokens.

Definition isNumber (c : option Q) : bool :=
  match c with
  | Some _ => true
  | None => false
  end.

(** The counts are integers; the sum and the quotient of the average
    are those of doubles.  A score is held as the rational whose double
    it is (lemma [calculateConfidence_double]). *)
Definition calculateStatistics (wordAnalyses : list AnalysisResult)
  : Statistics :=
  let totalWords := Z.of_nat (length wordAnalyses) in
  let analyzedWords :=
    Z.of_nat
      (length
         (filter (fun w => negb (PartOfSpeech_eqb (partOfSpeech w) Unknown))
            wordAnalyses)) in
  let unknownWords := (totalWords - analyzedWords)%Z in
  let confidenceSum :=
    fold_left
      (fun sum w =>
         dadd sum (toDouble (MorphologicalAnalyzer.confidenceOrZero w)))
      (filter
         (fun w => negb (PartOfSpeech_eqb (partOfSpeech w) Unknown)
                   && isNumber (confidence w))
         wordAnalyses)
      (toDouble 0) in
  let wordsWithConfidence :=
    Z.of_nat (length (filter (fun w => isNumber (confidence w)) wordAnalyses)) in
  let averageConfidence :=
    if (0 <? wordsWithConfidence)%Z
    then ddiv confidenceSum (ofZ wordsWithConfidence)
    else toDouble 0 in
  let partOfSpeechCounts :=
    fold_left
      (fun counts w =>
         let pos := partOfSpeech w in
         let old :=
           match getCount counts pos with
           | Some n => if (n =? 0)%Z then 0%Z else n
           | None => 0%Z
           end in
         setCount counts pos (old + 1)%Z)
      wordAnalyses [] in
  mkStatistics totalWords analyzedWords unknownWords averageConfidence
    partOfSpeechCounts.

Definition with_word (r : AnalysisResult) (w : jsstring) : AnalysisResult :=
  mkAnalysisResult w (partOfSpeech r) (morphology r) (wordInstance r)
    (confidence r) (alternatives r) (analyzer r).
Definition with_alternatives (r : AnalysisResult) (l : list AnalysisResult)
  : AnalysisResult :=
  mkAnalysisResult (word r) (partOfSpeech r) (morphology r) (wordInstance r)
    (confidence r) l (analyzer r).
Definition delete_confidence (r : AnalysisResult) : AnalysisResult :=
  mkAnalysisResult (word r) (partOfSpeech r) (morphology r) (wordInstance r)
    None (alternatives r) (analyzer r).
Definition delete_morphology (r : AnalysisResult) : AnalysisResult :=
  mkAnalysisResult (word r) (partOfSpeech r) None (wordInstance r)
    (confidence r) (alternatives r) (analyzer r).

(** The body of the [try] block for one token. *)
Definition analyzeToken (this : t) (analysisOptions : MergedOptions)
    (token : jsstring) : Result AnalysisResult :=
  analysisResult <-
    (if m_includeAlternatives analysisOptions
     then
       allAnalyses <-
         MorphologicalAnalyzer.analyzeAll (wordAnalyzer this) (JString token)
           None ;;
       match allAnalyses with
       | fullResult :: _ =>
           Ok (mkAnalysisResult (word fullResult) (partOfSpeech fullResult)
                 (morphology fullResult) (wordInstance fullResult)
                 (confidence fullResult)
                 (array_slice 1 (m_maxAlternatives analysisOptions + 1)
                    allAnalyses)
                 (analyzer fullResult))
       | [] =>
           MorphologicalAnalyzer.analyze (wordAnalyzer this) (JString token)
             None
       end
     else
       MorphologicalAnalyzer.analyze (wordAnalyzer this) (JString token) None) ;;
  let analysisResult :=
    if negb (m_includeConfidence analysisOptions)
    then delete_confidence analysisResult else analysisResult in
  let analysisResult :=
    if negb (m_includeMorphology analysisOptions)
    then delete_morphology analysisResult else analysisResult in
  let analysisResult :=
    if negb (m_includeAlternatives analysisOptions)
    then with_alternatives analysisResult [] else analysisResult in
  let analysisResult :=
    if m_preserveCase analysisOptions
    then with_word analysisResult token else analysisResult in
  Ok analysisResult.

(** The result pushed by the [catch] block. *)
Definition failedToken (analysisOptions : MergedOptions) (token : jsstring)
  : AnalysisResult :=
  mkAnalysisResult
    (if m_preserveCase analysisOptions then token else toLowerCase token)
    Unknown
    (Some (mkFeatures false false None None None None
             (Some (toLowerCase token))))
    None (Some 0) [] (Some (js "Unknown")).

Definition analyzeTokens (this : t) (analysisOptions : MergedOptions)
    (tokens : list jsstring) : list AnalysisResult :=
  map
    (fun token =>
       match analyzeToken this analysisOptions token with
       | Ok r => r
       | Throw _ => failedToken analysisOptions token
       end)
    tokens.

Definition analyzeSentence (this : t) (sentence : JsValue)
    (options : option SentenceAnalysisOptions) : Result SentenceAnalysisResult :=
  let options := orDefault options noOptions in
  match sentence with
  | JString sentence =>
      if isEmpty sentence then Throw SentenceMustBeNonEmptyString
      else
        let cleanSentence := trim sentence in
        if isEmpty cleanSentence then Throw SentenceEmptyOrWhitespace
        else
          let analysisOptions := mergeOptions options in
          let tokens := tokenize cleanSentence in
          let wordAnalyses := analyzeTokens this analysisOptions tokens in
          let statistics := calculateStatistics wordAnalyses in
          Ok (mkSentenceResult cleanSentence wordAnalyses statistics)
  | _ => Throw SentenceMustBeNonEmptyString
  end.

Fixpoint analyzeSentences (this : t) (sentences : list jsstring)
    (options : option SentenceAnalysisOptions)
  : Result (list SentenceAnalysisResult) :=
  match sentences with
  | [] => Ok []
  | sentence :: rest =>
      r <- analyzeSentence this (JString sentence) options ;;
      rs <- analyzeSentences this rest options ;;
      Ok (r :: rs)
  end.

Definition isTerminator (c : N) : bool := existsb (N.eqb c) (js ".!?").

(** [split(/[.!?]+/)]: the pieces between the runs of terminators;
    [cur] is the piece being read, backwards. *)
Fixpoint splitTerminators (cur : jsstring) (s : jsstring) : list jsstring :=
  match s with
  | [] => [rev cur]
  | c :: s' =>
      if isTerminator c
      then
        match s' with
        | [] => [rev cur; []]
        | c' :: _ =>
            if isTerminator c' then splitTerminators cur s'
            else rev cur :: splitTerminators [] s'
        end
      else splitTerminators (c :: cur) s'
  end.

Definition splitIntoSentences (paragraph : jsstring) : list jsstring :=
  filter (fun s => (0 <? length s)%nat)
    (map trim (splitTerminators [] paragraph)).

Definition analyzeParagraph (this : t) (paragraph : JsValue)
    (options : option SentenceAnalysisOptions)
  : Result (list SentenceAnalysisResult) :=
  match paragraph with
  | JString paragraph =>
      if isEmpty paragraph then Throw ParagraphMustBeNonEmptyString
      else
        let sentences := splitIntoSentences paragraph in
        analyzeSentences this sentences options
  | _ => Throw ParagraphMustBeNonEmptyString
  end.

Definition getSummary (this : t) (sentence : JsValue) : Result Counts :=
  result <-
    analyzeSentence this sentence
      (Some (mkSentenceOptions (Some false) (Some false) (Some false) None
               None)) ;;
  Ok (partOfSpeechCounts (statistics result)).

(** [isValidEsperanto(sentence, threshold = 0.8)]; the threshold is the
    decimal the caller writes.  With no word at all the rate is 0/0,
    which is NaN, and no comparison with NaN holds. *)
Definition isValidEsperanto (this : t) (sentence : JsValue)
    (threshold : option Q) : bool :=
  let threshold := toDouble (orDefault threshold 0.8) in
  match
    analyzeSentence this sentence
      (Some (mkSentenceOptions (Some true) (Some false) (Some false) None None))
  with
  | Ok result =>
      let analysisRate :=
        ddiv (ofZ (analyzedWords (statistics result)))
          (ofZ (totalWords (statistics result))) in
      dge analysisRate threshold
  | Throw _ => false
  end.

End MorphologicalSentenceAnalyzer.

(** ** The entry points (index.ts)

    The two module-level analyzers are created on first use and never
    changed afterwards; each is the value its constructor builds. *)

Definition getWordAnalyzer : MorphologicalAnalyzer.t :=
  MorphologicalAnalyzer.new.

Definition getSentenceAnalyzer : MorphologicalSentenceAnalyzer.t :=
  MorphologicalSentenceAnalyzer.new.

Definition analyzeWord (w : JsValue) : Result AnalysisResult :=
  MorphologicalAnalyzer.analyze getWordAnalyzer w None.

Definition analyzeSentence (sentence : JsValue)
  : Result MorphologicalSentenceAnalyzer.SentenceAnalysisResult :=
  MorphologicalSentenceAnalyzer.analyzeSentence getSentenceAnalyzer sentence
    None.

Definition isEsperantoWord (w : JsValue) : bool :=
  MorphologicalAnalyzer.canAnalyze getWordAnalyzer w.

Definition analyzeWordAll (w : JsValue) : Result (list AnalysisResult) :=
  MorphologicalAnalyzer.analyzeAll getWordAnalyzer w None.

Definition isEsperantoSentence (sentence : JsValue) (threshold : option Q)
  : bool :=
  MorphologicalSentenceAnalyzer.isValidEsperanto getSentenceAnalyzer sentence
    threshold.

Definition getPartOfSpeechSummary (sentence : JsValue)
  : Result MorphologicalSentenceAnalyzer.Counts :=
  MorphologicalSentenceAnalyzer.getSummary getSentenceAnalyzer sentence.

(** ** Vocabulary of the properties *)

(** The words of a regular expression. *)
Inductive lang : regex -> jsstring -> Prop :=
| lang_Eps : lang Eps []
| lang_Cls : forall p c, p c = true -> lang (Cls p) [c]
| lang_Cat : forall r1 r2 s1 s2,
    lang r1 s1 -> lang r2 s2 -> lang (Cat r1 r2) (s1 ++ s2)
| lang_AltL : forall r1 r2 s, lang r1 s -> lang (Alt r1 r2) s
| lang_AltR : forall r1 r2 s, lang r2 s -> lang (Alt r1 r2) s
| lang_Star0 : forall r, lang (Star r) []
| lang_StarS : forall r s1 s2,
    lang r s1 -> lang (Star r) s2 -> lang (Star r) (s1 ++ s2).

(** A noun as the grammar builds it: root, [o], and the two endings. *)
Definition nounForm (stem : jsstring) (j n : bool) : jsstring :=
  stem ++ js "o" ++ (if j then js "j" else []) ++ (if n then js "n" else []).

(** The correlatives that have the form of a noun. *)
Definition nounLikeCorrelatives : list jsstring :=
  map js ["kio"; "tio"; "ĉio"; "nenio"]%string.

(** The endings of a noun after a stem of two units or more. *)
Definition nounEnding (s : jsstring) : bool :=
  existsb
    (fun ending =>
       endsWith s ending && (2 + length ending <=? length s)%nat)
    (map js ["o"; "oj"; "on"; "ojn"]%string).

(** What the first property of the specification says of one noun. *)
Definition analyzedAsNoun (stem : jsstring) (j n : bool) : Prop :=
  exists r m,
    analyzeWord (JString (nounForm stem j n)) = Ok r
    /\ partOfSpeech r = Noun
    /\ morphology r = Some m
    /\ root m = Some stem
    /\ isPlural m = j
    /\ isAccusative m = n.

(** The options [analyze] works with. *)
Definition optionsOrDefault (options : option AnalysisOptions)
  : AnalysisOptions :=
  match options with
  | Some o => o
  | None => MorphologicalAnalyzer.getDefaultOptions
  end.

(** The scores of a result and of its alternatives, in order. *)
Definition ranking (r : AnalysisResult) : list Q :=
  MorphologicalAnalyzer.confidenceOrZero r
  :: map MorphologicalAnalyzer.confidenceOrZero (alternatives r).

(** Every score is at most the one before it. *)
Definition nonIncreasing (l : list Q) : Prop := Sorted (fun a b => b <= a) l.

(** How many of the words carry the tag. *)
Definition occurrences (tag : PartOfSpeech) (ws : list AnalysisResult) : nat :=
  length (filter (fun w => PartOfSpeech_eqb (partOfSpeech w) tag) ws).

(** The confidence values that are present, and their mean. *)
Definition confidencesOf (ws : list AnalysisResult) : list Q :=
  flat_map
    (fun w =>
       match confidence w with
       | Some c => [c]
       | None => []
       end)
    ws.

Definition Qsum (l : list Q) : Q := fold_right Qplus 0 l.

Definition mean (l : list Q) : Q :=
  match l with
  | [] => 0
  | _ => Qsum l / inject_Z (Z.of_nat (length l))
  end.

(** The mean as double arithmetic gives it: the values are added from
    left to right, starting from 0, and the sum is divided by their
    number. *)
Definition doubleSum (l : list Q) : Double :=
  fold_left (fun sum c => dadd sum (toDouble c)) l (toDouble 0).

Definition doubleMean (l : list Q) : Double :=
  match l with
  | [] => toDouble 0
  | _ => ddiv (doubleSum l) (ofZ (Z.of_nat (length l)))
  end.

(** A double whose sign bit is clear, or NaN. *)
Definition notNegative (x : Double) : bool :=
  match x with
  | S754_zero s | S754_infinity s | S754_finite s _ _ => negb s
  | S754_nan => true
  end.

(** An Unknown word has confidence 0, or none. *)
Definition unknownScoresZero (r : AnalysisResult) : Prop :=
  partOfSpeech r = Unknown -> confidence r = None \/ confidence r = Some 0.

(** No unit of the string is white space. *)
Definition noSpace (w : jsstring) : bool :=
  forallb (fun c => negb (isWhiteSpace c)) w.

(** The input is not a string that has something else than white space
    in it. *)
Definition invalidInput (v : JsValue) : Prop :=
  match v with
  | JString s => trim s = []
  | _ => True
  end.

(** No analyzer of the dispatcher recognises the input. *)
Definition unmatchedInput (v : JsValue) : Prop :=
  match v with
  | JString s =>
      forall a, In a (MorphologicalAnalyzer.analyzers getWordAnalyzer) ->
                Analyzer.match_ a (trim s) <> Ok true
  | _ => True
  end.

(** The spellings of the article. *)
Definition articleSpellings : list jsstring :=
  map js ["la"; "La"; "lA"; "LA"]%string.

(** The fields of a verb analysis that the specification lists. *)
Definition verbReading (r : Result AnalysisResult)
  : option (PartOfSpeech * option jsstring * option VerbTense
            * option VerbMood) :=
  match r with
  | Ok r =>
      match morphology r with
      | Some m => Some (partOfSpeech r, root m, tense m, mood m)
      | None => None
      end
  | Throw _ => None
  end.

(** No unit of the string is one of [. ! ? ; : ,]. *)
Definition noPunctuation (w : jsstring) : bool :=
  forallb (fun c => negb (MorphologicalSentenceAnalyzer.isPunctuation c)) w.

Definition nextIsSpace (s : jsstring) : bool :=
  match s with
  | [] => true
  | d :: _ => isWhiteSpace d
  end.

(** Every punctuation mark of the string stands alone: white space or an
    end of the string on either side.  [prev] tells that of the unit
    before the string. *)
Fixpoint isolated (prev : bool) (s : jsstring) : bool :=
  match s with
  | [] => true
  | c :: s' =>
      if MorphologicalSentenceAnalyzer.isPunctuation c
      then prev && nextIsSpace s' && isolated false s'
      else isolated (isWhiteSpace c) s'
  end.

(** A piece without punctuation, or one punctuation mark. *)
Definition goodPiece (t : jsstring) : bool :=
  noPunctuation t
  || match t with
     | [p] => MorphologicalSentenceAnalyzer.isPunctuation p
     | _ => false
     end.

(** The spellings of [jen]. *)
Definition jenSpellings : list jsstring :=
  map js ["jen"; "jeN"; "jEn"; "jEN"; "Jen"; "JeN"; "JEn"; "JEN"]%string.

Definition Zsum (l : list Z) : Z := fold_right Z.add 0%Z l.

(** The sentence has no word in it: the input is no sentence at all, or
    nothing is left of it when the punctuation is taken away. *)
Definition wordless (v : JsValue) : Prop :=
  match v with
  | JString s => MorphologicalSentenceAnalyzer.tokenize (trim s) = []
  | _ => True
  end.

(** An entry of [analyzeAll] that reports the match [m] of [analyze]:
    same tag, score and analyzer name, on the word [w]. *)
Definition sameReading (w : jsstring) (m : MorphologicalAnalyzer.Match.t)
    (r : AnalysisResult) : Prop :=
  word r = w
  /\ partOfSpeech r
     = Analyzer.partOfSpeech (MorphologicalAnalyzer.Match.analyzer m)
  /\ confidence r = Some (MorphologicalAnalyzer.Match.confidence m)
  /\ alternatives r = []
  /\ analyzer r
     = Some (Analyzer.name (MorphologicalAnalyzer.Match.analyzer m)).

(** Two analyses that agree on everything but the optional features and
    the alternatives. *)
Definition sameVerdict (r1 r2 : AnalysisResult) : Prop :=
  word r1 = word r2
  /\ partOfSpeech r1 = partOfSpeech r2
  /\ confidence r1 = confidence r2
  /\ analyzer r1 = analyzer r2.

(** The tag [analyzeWord] gives a token taken alone. *)
Definition wordTag (token : jsstring) : PartOfSpeech :=
  match analyzeWord (JString token) with
  | Ok r => partOfSpeech r
  | Throw _ => Unknown
  end.

(** The tokens of a sentence that [analyzeWord] recognises. *)
Definition recognisedTokens (tokens : list jsstring) : list jsstring :=
  filter (fun token => negb (PartOfSpeech_eqb (wordTag token) Unknown)) tokens.

(** What every entry of [analyzeWordAll] on the word [w] looks like. *)
Definition plainEntry (w : jsstring) (r : AnalysisResult) : Prop :=
  word r = w
  /\ partOfSpeech r <> Unknown
  /\ (exists c, confidence r = Some c /\ 0.5 <= c /\ c <= 1)
  /\ alternatives r = []
  /\ wordInstance r <> None
  /\ (exists m, morphology r = Some m
                /\ isPlural m = false /\ isAccusative m = false).

(** The ten names that the word factory knows. *)
Definition tagNames : list jsstring :=
  map tagString
    [Noun; Verb; Adjective; Adverb; Article; Conjunction; Interjection;
     Numeral; Preposition; Pronoun].

(** The finite endings of the verb, with the tense and the mood the
    analyzer reports for each. *)
Definition finiteVerbEndings : list (jsstring * VerbTense * VerbMood) :=
  [ (js "as", present, mood_indicative);
    (js "is", past, mood_indicative);
    (js "os", future, mood_indicative);
    (js "us", conditional, mood_conditional);
    (js "u", present, mood_imperative);
    (js "i", infinitive, mood_infinitive) ].

(** A finite ending after a stem of two units or more. *)
Definition verbEnding (s : jsstring) : bool :=
  existsb
    (fun ending =>
       endsWith s ending && (2 + length ending <=? length s)%nat)
    VerbMorphologicalAnalyzer.VERB_ENDINGS.

(** The basic numbers and the correlatives that have the form of a verb. *)
Definition verbLikeNumbers : list jsstring := map js ["unu"; "tri"]%string.
Definition verbLikeCorrelatives : list jsstring :=
  map js ["kiu"; "tiu"; "ĉiu"; "neniu"]%string.

(** What the analysis of a finite verb form is. *)
Definition analyzedAsVerb (w stem : jsstring) (t : VerbTense) (m : VerbMood)
  : Prop :=
  exists r f,
    analyzeWord (JString w) = Ok r
    /\ partOfSpeech r = Verb
    /\ morphology r = Some f
    /\ root f = Some (toLowerCase stem)
    /\ tense f = Some t
    /\ mood f = Some m
    /\ isPlural f = false
    /\ isAccusative f = false.

(** An adjective as the grammar builds it: root, [a], and the two
    endings. *)
Definition adjectiveForm (stem : jsstring) (j n : bool) : jsstring :=
  stem ++ js "a" ++ (if j then js "j" else []) ++ (if n then js "n" else []).

(** The endings of an adjective after a stem of two units or more. *)
Definition adjectiveEnding (s : jsstring) : bool :=
  existsb
    (fun ending =>
       endsWith s ending && (2 + length ending <=? length s)%nat)
    (map js ["a"; "aj"; "an"; "ajn"]%string).

(** The correlatives that have the form of an adjective. *)
Definition adjectiveLikeCorrelatives : list jsstring :=
  map js ["kia"; "tia"; "ĉia"; "nenia"]%string.

(** What the analysis of an adjective is. *)
Definition analyzedAsAdjective (stem : jsstring) (j n : bool) : Prop :=
  exists r f,
    analyzeWord (JString (adjectiveForm stem j n)) = Ok r
    /\ partOfSpeech r = Adjective
    /\ morphology r = Some f
    /\ root f = Some (toLowerCase stem)
    /\ isPlural f = j
    /\ isAccusative f = n
    /\ agreement f = Some (mkAgreement j n).

(** The features that go with a tag: a root always; tense and mood for
    verbs only, agreement for adjectives only, the possessive flag for
    pronouns only; no plural and no accusative for the parts of speech
    that are not declined. *)
Definition featuresFit (tag : PartOfSpeech) (f : MorphologicalFeatures)
  : Prop :=
  root f <> None
  /\ (tense f <> None <-> tag = Verb)
  /\ (mood f <> None <-> tag = Verb)
  /\ (agreement f <> None <-> tag = Adjective)
  /\ (isPossessive f <> None <-> tag = Pronoun)
  /\ (In tag [Adverb; Article; Conjunction; Interjection; Preposition;
              Unknown] ->
      isPlural f = false /\ isAccusative f = false).

(** A unit that case folding and lower case leave alone, and that is
    the lower case of nothing that folds elsewhere. *)
Definition plainUnit (x : N) : bool :=
  (canonicalize x =? x)%N && negb (x =? 383)%N && negb (x =? 775)%N
  && negb (isWhiteSpace x).

(** The string ends like none of the three shapes of the dispatcher. *)
Definition shapeless (b : jsstring) : bool :=
  negb
    (existsb (fun e => endsWith b e)
       (map js ["o"; "oj"; "on"; "ojn"; "as"; "is"; "os"; "us"; "u"; "i";
                "a"; "aj"; "an"; "ajn"]%string)).

(** One of the marks [.], [!] and [?]. *)
Definition sentenceEnd (c : N) : bool :=
  (c =? 46)%N || (c =? 33)%N || (c =? 63)%N.

(** [s] without its prefix [p]. *)
Fixpoint dropPrefix (p s : jsstring) : option jsstring :=
  match p, s with
  | [], _ => Some s
  | x :: p', y :: s' => if (x =? y)%N then dropPrefix p' s' else None
  | _ :: _, [] => None
  end.

(** [s] without the marks it starts with. *)
Fixpoint dropSentenceEnds (s : jsstring) : jsstring :=
  match s with
  | c :: s' => if sentenceEnd c then dropSentenceEnds s' else s
  | [] => []
  end.

(** [pieces] are the stretches of [s] between its runs of [.], [!] and
    [?]: no piece holds such a mark, each piece but the last is followed
    by one, the next piece starts where that run of marks ends, and the
    last piece ends the string. *)
Fixpoint cutAtSentenceEnds (s : jsstring) (pieces : list jsstring) : bool :=
  match pieces with
  | [] => false
  | p :: rest =>
      forallb (fun c => negb (sentenceEnd c)) p
      && match dropPrefix p s with
         | None => false
         | Some r =>
             match rest with
             | [] => isEmpty r
             | _ :: _ =>
                 match r with
                 | c :: _ =>
                     sentenceEnd c
                     && cutAtSentenceEnds (dropSentenceEnds r) rest
                 | [] => false
                 end
             end
         end
  end.

(** * Properties *)

Unset Implicit Arguments.

(** ** Strings *)

Lemma str_eqb_eq : forall a b, str_eqb a b = true <-> a = b.
Proof.
  induction a as [|x a IH]; destruct b as [|y b]; simpl; split;
    try discriminate; try reflexivity; intro H.
  - apply andb_true_iff in H. destruct H as [Hx Hs].
    apply N.eqb_eq in Hx. apply IH in Hs. congruence.
  - injection H as -> ->. rewrite N.eqb_refl. simpl. now apply IH.
Qed.

Lemma str_eqb_refl : forall a, str_eqb a a = true.
Proof. intro a. now apply str_eqb_eq. Qed.

Lemma includes_In : forall l x, includes l x = true <-> In x l.
Proof.
  intros l x. unfold includes. rewrite existsb_exists. split.
  - intros [y [Hy He]]. apply str_eqb_eq in He. now subst.
  - intro H. exists x. split; [assumption | apply str_eqb_refl].
Qed.

(** A list lookup can be narrowed to the entries that pass a test the
    looked-up string passes. *)
Lemma includes_filter : forall (P : jsstring -> bool) l x,
  includes l x = true -> P x = true -> includes (filter P l) x = true.
Proof.
  intros P l x Hin HP. apply includes_In. apply filter_In.
  split; [now apply includes_In | assumption].
Qed.

Lemma endsWith_snoc : forall a x y, endsWith (a ++ [x]) [y] = (x =? y)%N.
Proof.
  intros a x y. unfold endsWith. rewrite rev_app_distr. simpl.
  now rewrite andb_true_r.
Qed.

Lemma dropEnd_snoc : forall a (x : N), dropEnd 1 (a ++ [x]) = a.
Proof.
  intros a x. unfold dropEnd. rewrite length_app. simpl.
  replace (length a + 1 - 1)%nat with (length a + 0)%nat by lia.
  rewrite firstn_app_2. simpl. now rewrite app_nil_r.
Qed.

Lemma trimStart_head : forall c s,
  isWhiteSpace c = false -> trimStart (c :: s) = c :: s.
Proof. intros c s H. simpl. now rewrite H. Qed.

(** ** The alphabet *)

Lemma isLetter_cases : forall c,
  isLetter c = true ->
  ((97 <= c <= 122) \/ (65 <= c <= 90)
   \/ In c [264; 265; 284; 285; 292; 293; 308; 309; 348; 349; 364; 365])%N.
Proof.
  intros c H. unfold isLetter, isSmallLetter, isAsciiCapital in H.
  assert (Hex : forall l : jsstring,
             existsb (N.eqb c) l = true -> In c l).
  { intros l Hl. apply existsb_exists in Hl. destruct Hl as [y [Hy He]].
    apply N.eqb_eq in He. now subst y. }
  apply orb_true_iff in H. destruct H as [H|H].
  - apply orb_true_iff in H. destruct H as [H|H].
    + apply orb_true_iff in H. destruct H as [H|H].
      * apply andb_true_iff in H. destruct H as [H1 H2].
        apply N.leb_le in H1, H2. left. lia.
      * apply Hex in H. vm_compute in H. right. right. simpl. intuition.
    + apply andb_true_iff in H. destruct H as [H1 H2].
      apply N.leb_le in H1, H2. right. left. lia.
  - apply Hex in H. vm_compute in H. right. right. simpl. intuition.
Qed.

Lemma letter_not_space : forall c, isLetter c = true -> isWhiteSpace c = false.
Proof.
  intros c H. apply isLetter_cases in H.
  destruct H as [H | [H | H]].
  - unfold isWhiteSpace. apply orb_false_iff. split.
    + simpl. repeat (apply orb_false_iff; split); try reflexivity;
        apply N.eqb_neq; lia.
    + apply andb_false_iff. left. apply N.leb_gt. lia.
  - unfold isWhiteSpace. apply orb_false_iff. split.
    + simpl. repeat (apply orb_false_iff; split); try reflexivity;
        apply N.eqb_neq; lia.
    + apply andb_false_iff. left. apply N.leb_gt. lia.
  - simpl in H. repeat (destruct H as [H | H]; [subst c; reflexivity|]).
    contradiction.
Qed.

(** A letter has one code unit of lower case. *)
Lemma lowerUnit_letter : forall c,
  isLetter c = true -> exists c', lowerUnit c = [c'].
Proof.
  intros c H. unfold lowerUnit.
  destruct (isAsciiCapital c); [eexists; reflexivity|].
  destruct (isEsperantoCapital c); [eexists; reflexivity|].
  destruct (N.eqb_spec c 8490); [eexists; reflexivity|].
  destruct (N.eqb_spec c 304) as [->|]; [|eexists; reflexivity].
  vm_compute in H. discriminate.
Qed.

Lemma toLowerCase_app : forall a b,
  toLowerCase (a ++ b) = toLowerCase a ++ toLowerCase b.
Proof. intros a b. unfold toLowerCase. apply flat_map_app. Qed.

Lemma toLowerCase_length : forall s,
  forallb isLetter s = true -> length (toLowerCase s) = length s.
Proof.
  induction s as [|c s IH]; simpl; intro H; [reflexivity|].
  apply andb_true_iff in H. destruct H as [Hc Hs].
  destruct (lowerUnit_letter c Hc) as [c' Hc'].
  unfold toLowerCase in *. simpl. rewrite Hc'. simpl. now rewrite IH.
Qed.

(** ** Regular expressions: every word of the language is matched *)

Lemma nullable_complete : forall r s, lang r s -> s = [] -> nullable r = true.
Proof.
  induction 1; intro E; simpl; try reflexivity; try discriminate.
  - apply app_eq_nil in E. destruct E as [E1 E2].
    now rewrite IHlang1, IHlang2.
  - now rewrite IHlang.
  - rewrite IHlang by assumption. apply orb_true_r.
Qed.

Lemma deriv_complete : forall r s, lang r s ->
  forall c s', s = c :: s' -> lang (deriv c r) s'.
Proof.
  induction 1; intros c0 t E; simpl; try discriminate.
  - injection E as -> <-. rewrite H. constructor.
  - destruct s1 as [|x s1].
    + simpl in E. subst s2.
      rewrite (nullable_complete _ _ H eq_refl).
      apply lang_AltR. now apply IHlang2.
    + simpl in E. injection E as -> <-.
      destruct (nullable r1).
      * apply lang_AltL. constructor; [now apply IHlang1 | assumption].
      * constructor; [now apply IHlang1 | assumption].
  - apply lang_AltL. now apply IHlang.
  - apply lang_AltR. now apply IHlang.
  - destruct s1 as [|x s1].
    + simpl in E. now apply IHlang2.
    + simpl in E. injection E as -> <-.
      constructor; [now apply IHlang1 | assumption].
Qed.

Theorem matches_complete : forall s r, lang r s -> matches r s = true.
Proof.
  induction s as [|c s IH]; intros r H; simpl.
  - now apply (nullable_complete _ _ H).
  - apply IH. now apply (deriv_complete _ _ H).
Qed.

Lemma lang_Lit : forall s, lang (Lit s) s.
Proof.
  induction s as [|c s IH]; simpl; [constructor|].
  change (c :: s) with ([c] ++ s). constructor; [|assumption].
  constructor. apply N.eqb_refl.
Qed.

Lemma lang_Star_letters : forall s,
  forallb isLetter s = true -> lang (Star Letter) s.
Proof.
  induction s as [|c s IH]; simpl; intro H; [constructor|].
  apply andb_true_iff in H. destruct H as [Hc Hs].
  change (c :: s) with ([c] ++ s). constructor; [|now apply IH].
  now constructor.
Qed.

Lemma lang_JN : forall j n : bool,
  lang JN ((if j then js "j" else []) ++ (if n then js "n" else [])).
Proof.
  intros j n. unfold JN. constructor.
  - destruct j; [apply lang_AltL; apply lang_Lit | apply lang_AltR; constructor].
  - destruct n; [apply lang_AltL; apply lang_Lit | apply lang_AltR; constructor].
Qed.

(** A noun in the grammar's form is matched by the analyzer's pattern and
    by the stricter shape of the dispatcher. *)
Lemma noun_match : forall stem j n,
  (2 <= length stem)%nat -> forallb isLetter stem = true ->
  NounMorphologicalAnalyzer.match_ (nounForm stem j n) = true.
Proof.
  intros stem j n Hlen Hl. unfold NounMorphologicalAnalyzer.match_.
  apply matches_complete. unfold NounMorphologicalAnalyzer.matchRegex, nounForm.
  constructor.
  - destruct stem as [|a [|b stem]]; simpl in Hlen; try lia.
    simpl in Hl. apply andb_true_iff in Hl. destruct Hl as [Ha Hl].
    apply andb_true_iff in Hl. destruct Hl as [Hb Hl].
    unfold AtLeast2.
    change (a :: b :: stem) with ([a] ++ [b] ++ stem).
    repeat constructor; try assumption. now apply lang_Star_letters.
  - constructor; [apply lang_Lit | apply lang_JN].
Qed.

Lemma noun_shape : forall stem j n,
  (2 <= length stem)%nat -> forallb isLetter stem = true ->
  matches MorphologicalAnalyzer.nounShape (nounForm stem j n) = true.
Proof.
  intros stem j n Hlen Hl. apply matches_complete.
  unfold MorphologicalAnalyzer.nounShape, nounForm. constructor.
  - destruct stem as [|a stem]; simpl in Hlen; try lia.
    simpl in Hl. apply andb_true_iff in Hl. destruct Hl as [Ha Hl].
    unfold Plus. change (a :: stem) with ([a] ++ stem).
    constructor; [now constructor | now apply lang_Star_letters].
  - constructor; [apply lang_Lit | apply lang_JN].
Qed.

(** ** The stable descending sort *)

Section SortDesc.

Variable A : Type.
Variable key : A -> Q.

Lemma Qle_bool_minus : forall a b : Q, Qle_bool (a - b) 0 = true <-> a <= b.
Proof. intros a b. rewrite Qle_bool_iff. split; intro H; lra. Qed.

Lemma insert_desc_In : forall x y l,
  In y (insert_desc key x l) <-> y = x \/ In y l.
Proof.
  intros x y l. induction l as [|z l IH]; simpl.
  - intuition.
  - destruct (Qle_bool (key z - key x) 0); simpl; [intuition|].
    rewrite IH. intuition.
Qed.

Lemma sort_desc_In : forall y l, In y (sort_desc key l) <-> In y l.
Proof.
  intros y l. induction l as [|x l IH]; simpl; [reflexivity|].
  rewrite insert_desc_In, IH. intuition.
Qed.

Lemma sort_desc_length : forall l, length (sort_desc key l) = length l.
Proof.
  assert (Hi : forall x l, length (insert_desc key x l) = S (length l)).
  { intros x l. induction l as [|z l IH]; simpl; [reflexivity|].
    destruct (Qle_bool (key z - key x) 0); simpl; [reflexivity|].
    now rewrite IH. }
  induction l as [|x l IH]; simpl; [reflexivity|]. now rewrite Hi, IH.
Qed.

Lemma insert_desc_sorted : forall x l,
  Sorted (fun a b => key b <= key a) l ->
  Sorted (fun a b => key b <= key a) (insert_desc key x l).
Proof.
  intros x l. induction l as [|z l IH]; simpl; intro H.
  - repeat constructor.
  - destruct (Qle_bool (key z - key x) 0) eqn:E.
    + constructor; [assumption|]. constructor.
      now apply Qle_bool_minus.
    + assert (Hlt : key x <= key z).
      { destruct (Qlt_le_dec (key x) (key z)) as [Hl|Hl]; [lra|].
        apply Qle_bool_minus in Hl. congruence. }
      inversion H as [|? ? Hs Hh]; subst.
      constructor; [now apply IH|].
      destruct l as [|u l]; simpl.
      * constructor. exact Hlt.
      * destruct (Qle_bool (key u - key x) 0); constructor;
          [exact Hlt | now inversion Hh].
Qed.

Lemma sort_desc_sorted : forall l,
  Sorted (fun a b => key b <= key a) (sort_desc key l).
Proof.
  induction l as [|x l IH]; simpl; [constructor|].
  now apply insert_desc_sorted.
Qed.

(** The first element stays first when nothing after it scores higher. *)
Lemma sort_desc_head : forall x l,
  (forall y, In y l -> key y <= key x) ->
  sort_desc key (x :: l) = x :: sort_desc key l.
Proof.
  intros x l H. simpl.
  destruct (sort_desc key l) as [|y l'] eqn:E; [reflexivity|]. simpl.
  assert (Hy : key y <= key x).
  { apply H. apply sort_desc_In. rewrite E. now left. }
  apply Qle_bool_minus in Hy. now rewrite Hy.
Qed.

Lemma sorted_map_key : forall l,
  Sorted (fun a b => key b <= key a) l -> nonIncreasing (map key l).
Proof.
  induction 1 as [|a l Hs IH Hh]; simpl; [constructor|].
  constructor; [exact IH|].
  destruct Hh; simpl; constructor. assumption.
Qed.

End SortDesc.

Lemma nonIncreasing_prefix : forall n a l,
  nonIncreasing (a :: l) -> nonIncreasing (a :: firstn n l).
Proof.
  unfold nonIncreasing. intros n a l. revert n a.
  induction l as [|b l IH]; intros n a H.
  - now rewrite firstn_nil.
  - destruct n as [|n]; simpl.
    + repeat constructor.
    + inversion H as [|? ? Hs Hh]; subst.
      constructor; [now apply IH|].
      constructor. now inversion Hh.
Qed.

Lemma In_firstn : forall (A : Type) n (x : A) l, In x (firstn n l) -> In x l.
Proof.
  intros A n x l. revert n. induction l as [|y l IH]; intros [|n]; simpl;
    try contradiction.
  intros [H|H]; [now left | right; now apply (IH n)].
Qed.

Lemma array_slice_0_3 : forall (A : Type) (l : list A),
  array_slice 0 3 l = firstn 3 l.
Proof.
  intros A l. unfold array_slice, relativeIndex.
  change (0 <? 0)%Z with false. change (3 <? 0)%Z with false. cbv iota.
  rewrite (Z.min_l 0) by lia. rewrite Z.sub_0_r.
  change (Z.to_nat 0) with 0%nat. rewrite skipn_O.
  destruct (Z.min_spec 3 (Z.of_nat (length l))) as [[Hlt ->]|[Hle ->]].
  - reflexivity.
  - rewrite Nat2Z.id. rewrite firstn_all.
    symmetry. apply firstn_all2. lia.
Qed.

(** ** The confidence heuristic *)

Ltac split_conditions :=
  repeat match goal with
         | |- context [if ?b then _ else _] => destruct b
         end.

Ltac closed_Qle := apply Qle_bool_iff; vm_compute; reflexivity.

Lemma calculateConfidence_range : forall a w,
  0.5 <= MorphologicalAnalyzer.calculateConfidence a w
  /\ MorphologicalAnalyzer.calculateConfidence a w <= 1.
Proof.
  intros a w. unfold MorphologicalAnalyzer.calculateConfidence.
  destruct (Analyzer.partOfSpeech a);
    cbn [PartOfSpeech_eqb existsb andb orb];
    split_conditions; split; closed_Qle.
Qed.

(** A word of at most five units that is neither the article nor a basic
    number nor a listed correlative scores at most 0.8 with any analyzer. *)
Lemma calculateConfidence_short : forall a w,
  (length w <= 5)%nat ->
  str_eqb (toLowerCase w) (js "la") = false ->
  includes MorphologicalAnalyzer.basicNumbers (toLowerCase w) = false ->
  includes MorphologicalAnalyzer.correlativePronouns (toLowerCase w) = false ->
  MorphologicalAnalyzer.calculateConfidence a w <= 0.8.
Proof.
  intros a w Hlen Hla Hnum Hcor.
  unfold MorphologicalAnalyzer.calculateConfidence.
  rewrite Hla, Hnum, Hcor.
  assert (Hl : (5 <? length w)%nat = false) by (apply Nat.ltb_ge; lia).
  rewrite Hl.
  destruct (Analyzer.partOfSpeech a);
    cbn [PartOfSpeech_eqb existsb andb orb];
    split_conditions; closed_Qle.
Qed.

(** The score of the noun analyzer on a word of the noun shape. *)
Lemma calculateConfidence_noun : forall w,
  matches MorphologicalAnalyzer.nounShape w = true ->
  MorphologicalAnalyzer.calculateConfidence NounMorphologicalAnalyzer.new w
  == (if (5 <? length w)%nat then 1 else 0.8).
Proof.
  intros w H. unfold MorphologicalAnalyzer.calculateConfidence.
  cbn [Analyzer.partOfSpeech NounMorphologicalAnalyzer.new
       NounMorphologicalAnalyzer.partOfSpeech PartOfSpeech_eqb existsb andb
       orb].
  rewrite H. destruct (5 <? length w)%nat;
    apply Qeq_bool_iff; vm_compute; reflexivity.
Qed.

Lemma collectMatches_In : forall l w m,
  In m (MorphologicalAnalyzer.collectMatches l w) ->
  In (MorphologicalAnalyzer.Match.analyzer m) l
  /\ Analyzer.match_ (MorphologicalAnalyzer.Match.analyzer m) w = Ok true
  /\ MorphologicalAnalyzer.Match.confidence m
     = MorphologicalAnalyzer.calculateConfidence
         (MorphologicalAnalyzer.Match.analyzer m) w.
Proof.
  induction l as [|a l IH]; simpl; intros w m H; [contradiction|].
  destruct (Analyzer.match_ a w) as [[|]|e] eqn:E.
  - destruct H as [<-|H]; simpl.
    + auto.
    + apply IH in H. intuition.
  - apply IH in H. intuition.
  - apply IH in H. intuition.
Qed.

(** ** The factory *)

(** The factory throws only in the branch of the article: when the
    string it switches on is [Article] and the value is not [la]. *)
Lemma createWord_ok : forall v w,
  str_eqb w (js "Article") = false -> exists x, createWord v w = Ok x.
Proof.
  intros v w H. unfold createWord. rewrite H.
  split_conditions; eexists; reflexivity.
Qed.

(** Called with a tag where the value is expected, it throws in that
    branch. *)
Lemma createWord_tag_throw : forall tag w,
  str_eqb w (js "Article") = true ->
  exists e, createWord (tagString tag) w = Throw e.
Proof.
  intros tag w H. apply str_eqb_eq in H. subst w.
  destruct tag; eexists; reflexivity.
Qed.

(** ** The ten analyzers *)

Ltac each_analyzer H :=
  unfold ALL_MORPHOLOGICAL_ANALYZERS in H; simpl in H;
  repeat (destruct H as [H|H]; [subst|]); [..|contradiction].

(** Extraction succeeds wherever the match predicate holds. *)
Lemma extractMorphology_total : forall a,
  In a ALL_MORPHOLOGICAL_ANALYZERS ->
  forall w options, Analyzer.match_ a w = Ok true ->
  exists m, Analyzer.extractMorphology a w options = Ok m.
Proof.
  intros a H w options E. each_analyzer H; simpl in E |- *;
    injection E as E;
    [ unfold NounMorphologicalAnalyzer.extractMorphology
    | unfold VerbMorphologicalAnalyzer.extractMorphology
    | unfold AdjectiveMorphologicalAnalyzer.extractMorphology
    | unfold AdverbMorphologicalAnalyzer.extractMorphology
    | unfold ArticleMorphologicalAnalyzer.extractMorphology
    | unfold ConjunctionMorphologicalAnalyzer.extractMorphology
    | unfold InterjectionMorphologicalAnalyzer.extractMorphology
    | unfold NumeralMorphologicalAnalyzer.extractMorphology
    | unfold PrepositionMorphologicalAnalyzer.extractMorphology
    | unfold PronounMorphologicalAnalyzer.extractMorphology ];
    rewrite E; simpl; eexists; reflexivity.
Qed.

Lemma analyzer_tag_known : forall a,
  In a ALL_MORPHOLOGICAL_ANALYZERS -> Analyzer.partOfSpeech a <> Unknown.
Proof. intros a H. each_analyzer H; simpl; discriminate. Qed.

(** ** The dispatcher *)

Lemma trim_nonempty : forall w, isEmpty (trim w) = false -> isEmpty w = false.
Proof. intros [|c w] H; [discriminate H | reflexivity]. Qed.

(** The two ways [analyze] returns on a word that is not blank: the
    Unknown result, or the analysis of the best-ranked match. *)
Lemma analyze_cases : forall this w options,
  isEmpty (trim w) = false ->
  MorphologicalAnalyzer.analyze this (JString w) options
  = Ok (MorphologicalAnalyzer.createUnknownWordResult (trim w))
  \/ exists best rest morph inst,
      sort_desc MorphologicalAnalyzer.Match.confidence
        (MorphologicalAnalyzer.collectMatches
           (MorphologicalAnalyzer.analyzers this) (trim w))
      = best :: rest
      /\ Analyzer.extractMorphology
           (MorphologicalAnalyzer.Match.analyzer best) (trim w)
           (optionsOrDefault options) = Ok morph
      /\ createWord
           (tagString
              (Analyzer.partOfSpeech (MorphologicalAnalyzer.Match.analyzer best)))
           (trim w) = Ok inst
      /\ MorphologicalAnalyzer.analyze this (JString w) options
         = Ok (mkAnalysisResult (trim w)
                 (Analyzer.partOfSpeech
                    (MorphologicalAnalyzer.Match.analyzer best))
                 (Some morph) (Some inst)
                 (Some (MorphologicalAnalyzer.Match.confidence best))
                 (MorphologicalAnalyzer.getAlternatives rest (trim w)
                    (optionsOrDefault options))
                 (Some (Analyzer.name
                          (MorphologicalAnalyzer.Match.analyzer best)))).
Proof.
  intros this w options H. unfold MorphologicalAnalyzer.analyze.
  rewrite (trim_nonempty w H), H.
  fold (optionsOrDefault options).
  destruct (length _ =? 0)%nat; [now left|].
  destruct (sort_desc _ _) as [|best rest] eqn:E; [now left|].
  unfold MorphologicalAnalyzer.buildResult, bind, try_catch.
  destruct (Analyzer.extractMorphology _ _ _) as [morph|e] eqn:Em; [|now left].
  destruct (createWord _ _) as [inst|e] eqn:Ec; [|now left].
  right. exists best, rest, morph, inst. simpl. auto.
Qed.

(** With the ten analyzers, the alternatives of a successful analysis are
    the next three matches, each with its own score. *)
Lemma getAlternatives_scores : forall ms w options inst tag,
  (forall m, In m ms ->
     In (MorphologicalAnalyzer.Match.analyzer m) ALL_MORPHOLOGICAL_ANALYZERS
     /\ Analyzer.match_ (MorphologicalAnalyzer.Match.analyzer m) w = Ok true) ->
  createWord (tagString tag) w = Ok inst ->
  map MorphologicalAnalyzer.confidenceOrZero
    (MorphologicalAnalyzer.getAlternatives ms w options)
  = map MorphologicalAnalyzer.Match.confidence (firstn 3 ms).
Proof.
  intros ms w options inst tag Hms Hc.
  unfold MorphologicalAnalyzer.getAlternatives.
  rewrite array_slice_0_3, map_map. apply map_ext_in.
  intros m Hm. apply In_firstn in Hm. destruct (Hms m Hm) as [Ha Hmatch].
  destruct (extractMorphology_total _ Ha w options Hmatch) as [morph Hmorph].
  assert (Hart : str_eqb w (js "Article") = false).
  { destruct (str_eqb w (js "Article")) eqn:E; [|reflexivity].
    destruct (createWord_tag_throw tag w E) as [e He]. congruence. }
  destruct (createWord_ok
              (tagString
                 (Analyzer.partOfSpeech (MorphologicalAnalyzer.Match.analyzer m)))
              w Hart) as [x Hx].
  unfold MorphologicalAnalyzer.buildResult, bind. rewrite Hmorph, Hx.
  reflexivity.
Qed.

(** ** Nouns *)

Lemma forallb_rev : forall (f : N -> bool) l,
  forallb f l = true -> forallb f (rev l) = true.
Proof.
  intros f l H. apply forallb_forall. intros x Hx.
  apply in_rev in Hx. revert x Hx. now apply forallb_forall.
Qed.

Lemma trimStart_letters : forall w,
  forallb isLetter w = true -> trimStart w = w.
Proof.
  intros [|c w] H; [reflexivity|]. simpl in H.
  apply andb_true_iff in H. destruct H as [Hc _].
  apply trimStart_head. now apply letter_not_space.
Qed.

Lemma trim_letters : forall w, forallb isLetter w = true -> trim w = w.
Proof.
  intros w H. unfold trim. rewrite (trimStart_letters w H).
  rewrite (trimStart_letters (rev w) (forallb_rev _ _ H)).
  apply rev_involutive.
Qed.

Lemma nounForm_letters : forall stem j n,
  forallb isLetter stem = true -> forallb isLetter (nounForm stem j n) = true.
Proof.
  intros stem j n H. unfold nounForm. rewrite forallb_app, H.
  destruct j, n; reflexivity.
Qed.

Lemma nounForm_length : forall stem j n,
  (length stem < length (nounForm stem j n))%nat.
Proof.
  intros stem j n. unfold nounForm. rewrite length_app.
  destruct j, n; simpl; lia.
Qed.

(** The four forms, written from the last unit backwards. *)
Lemma nounForm_cases : forall stem j n,
  nounForm stem j n
  = match j, n with
    | false, false => stem ++ [111%N]
    | true, false => (stem ++ [111%N]) ++ [106%N]
    | false, true => (stem ++ [111%N]) ++ [110%N]
    | true, true => ((stem ++ [111%N]) ++ [106%N]) ++ [110%N]
    end.
Proof.
  intros stem j n. unfold nounForm.
  destruct j, n; simpl; rewrite <- ?app_assoc; reflexivity.
Qed.

Lemma noun_extractRoot : forall stem j n,
  NounMorphologicalAnalyzer.extractRoot (nounForm stem j n) = stem.
Proof.
  intros stem j n. rewrite nounForm_cases.
  unfold NounMorphologicalAnalyzer.extractRoot.
  change (js "n") with [110%N]. change (js "j") with [106%N].
  change (js "o") with [111%N].
  destruct j, n; cbv zeta;
    repeat (rewrite endsWith_snoc; simpl N.eqb; cbv iota;
            rewrite ?dropEnd_snoc);
    reflexivity.
Qed.

Lemma noun_checkPlural : forall stem j n,
  BaseMorphologicalAnalyzer.checkPlural (nounForm stem j n) = j.
Proof.
  intros stem j n. rewrite nounForm_cases.
  unfold BaseMorphologicalAnalyzer.checkPlural.
  change (js "n") with [110%N]. change (js "j") with [106%N].
  destruct j, n; cbv zeta;
    repeat (rewrite endsWith_snoc; simpl N.eqb; cbv iota;
            rewrite ?dropEnd_snoc);
    reflexivity.
Qed.

Lemma noun_checkAccusative : forall stem j n,
  BaseMorphologicalAnalyzer.checkAccusative (nounForm stem j n) = n.
Proof.
  intros stem j n. rewrite nounForm_cases.
  unfold BaseMorphologicalAnalyzer.checkAccusative.
  change (js "n") with [110%N].
  destruct j, n; rewrite endsWith_snoc; reflexivity.
Qed.

Lemma noun_not_Article : forall stem j n,
  str_eqb (nounForm stem j n) (js "Article") = false.
Proof.
  intros stem j n.
  destruct (str_eqb (nounForm stem j n) (js "Article")) eqn:E; [|reflexivity].
  apply str_eqb_eq in E.
  assert (H : endsWith (nounForm stem j n) [101%N] = true)
    by (rewrite E; reflexivity).
  rewrite nounForm_cases in H.
  destruct j, n; rewrite endsWith_snoc in H; discriminate H.
Qed.

Lemma startsWith_app : forall p s, startsWith (p ++ s) p = true.
Proof.
  induction p as [|c p IH]; intro s; simpl; [reflexivity|].
  now rewrite N.eqb_refl, IH.
Qed.

Lemma endsWith_app : forall a b, endsWith (a ++ b) b = true.
Proof.
  intros a b. unfold endsWith. rewrite rev_app_distr. apply startsWith_app.
Qed.

(** The lower-cased noun still ends like a noun. *)
Lemma noun_lower_ending : forall stem j n,
  (2 <= length stem)%nat -> forallb isLetter stem = true ->
  nounEnding (toLowerCase (nounForm stem j n)) = true.
Proof.
  intros stem j n Hlen Hl. unfold nounForm.
  rewrite toLowerCase_app.
  pose proof (toLowerCase_length stem Hl) as Hlow.
  unfold nounEnding. apply existsb_exists.
  exists (js "o" ++ (if j then js "j" else []) ++ (if n then js "n" else [])).
  split.
  - destruct j, n; simpl; auto.
  - replace (toLowerCase
               (js "o" ++ (if j then js "j" else [])
                ++ (if n then js "n" else [])))
      with (js "o" ++ (if j then js "j" else []) ++ (if n then js "n" else []))
      by (destruct j, n; reflexivity).
    rewrite endsWith_app. rewrite andb_true_l. apply Nat.leb_le.
    rewrite (length_app (toLowerCase stem)), Hlow. lia.
Qed.

Lemma noun_lower_length : forall stem j n,
  forallb isLetter stem = true ->
  length (toLowerCase (nounForm stem j n)) = length (nounForm stem j n).
Proof.
  intros stem j n H. apply toLowerCase_length. now apply nounForm_letters.
Qed.

(** ** The best match *)

Lemma collectMatches_cons : forall a l w,
  Analyzer.match_ a w = Ok true ->
  MorphologicalAnalyzer.collectMatches (a :: l) w
  = MorphologicalAnalyzer.Match.mk a
      (MorphologicalAnalyzer.calculateConfidence a w)
    :: MorphologicalAnalyzer.collectMatches l w.
Proof. intros a l w H. simpl. now rewrite H. Qed.

Lemma analyze_best : forall this w options best rest morph inst,
  isEmpty (trim w) = false ->
  sort_desc MorphologicalAnalyzer.Match.confidence
    (MorphologicalAnalyzer.collectMatches
       (MorphologicalAnalyzer.analyzers this) (trim w))
  = best :: rest ->
  Analyzer.extractMorphology (MorphologicalAnalyzer.Match.analyzer best)
    (trim w) (optionsOrDefault options) = Ok morph ->
  createWord
    (tagString
       (Analyzer.partOfSpeech (MorphologicalAnalyzer.Match.analyzer best)))
    (trim w) = Ok inst ->
  MorphologicalAnalyzer.analyze this (JString w) options
  = Ok (mkAnalysisResult (trim w)
          (Analyzer.partOfSpeech (MorphologicalAnalyzer.Match.analyzer best))
          (Some morph) (Some inst)
          (Some (MorphologicalAnalyzer.Match.confidence best))
          (MorphologicalAnalyzer.getAlternatives rest (trim w)
             (optionsOrDefault options))
          (Some (Analyzer.name (MorphologicalAnalyzer.Match.analyzer best)))).
Proof.
  intros this w options best rest morph inst Hw Hs Hm Hc.
  unfold MorphologicalAnalyzer.analyze.
  rewrite (trim_nonempty w Hw), Hw.
  fold (optionsOrDefault options).
  assert (Hlen : (length
                    (MorphologicalAnalyzer.collectMatches
                       (MorphologicalAnalyzer.analyzers this) (trim w))
                  =? 0)%nat = false).
  { apply Nat.eqb_neq.
    rewrite <- (sort_desc_length _ MorphologicalAnalyzer.Match.confidence).
    rewrite Hs. discriminate. }
  rewrite Hlen, Hs.
  unfold MorphologicalAnalyzer.buildResult, bind, try_catch.
  now rewrite Hm, Hc.
Qed.

(** ** The claims on single words *)

(** C2: the verb endings of [kur-]: [kuras] is a verb of root [kur] in
    the present tense, [kuris] is past, [kuros] future, [kurus] has the
    conditional mood, [kuru] the imperative and [kuri] the infinitive. *)
Theorem C2_verb_endings :
  verbReading (analyzeWord (JString (js "kuras")))
  = Some (Verb, Some (js "kur"), Some present, Some mood_indicative)
  /\ verbReading (analyzeWord (JString (js "kuris")))
     = Some (Verb, Some (js "kur"), Some past, Some mood_indicative)
  /\ verbReading (analyzeWord (JString (js "kuros")))
     = Some (Verb, Some (js "kur"), Some future, Some mood_indicative)
  /\ verbReading (analyzeWord (JString (js "kurus")))
     = Some (Verb, Some (js "kur"), Some conditional, Some mood_conditional)
  /\ verbReading (analyzeWord (JString (js "kuru")))
     = Some (Verb, Some (js "kur"), Some present, Some mood_imperative)
  /\ verbReading (analyzeWord (JString (js "kuri")))
     = Some (Verb, Some (js "kur"), Some infinitive, Some mood_infinitive).
Proof. repeat apply conj; vm_compute; reflexivity. Qed.

(** The strings whose lower case is [la]. *)
Lemma lowerUnit_shape : forall c,
  lowerUnit c = [105; 775]%N \/ exists x, lowerUnit c = [x].
Proof.
  intro c. unfold lowerUnit. split_conditions; eauto.
Qed.

Lemma lowerUnit_small : forall c x,
  lowerUnit c = [x] -> (97 <= x <= 122)%N -> x <> 107%N ->
  c = x \/ c = (x - 32)%N.
Proof.
  intros c x H Hx Hk. unfold lowerUnit in H.
  destruct (isAsciiCapital c) eqn:E1.
  { injection H as H. right. lia. }
  destruct (isEsperantoCapital c) eqn:E2.
  { injection H as H. exfalso.
    unfold isEsperantoCapital in E2. apply existsb_exists in E2.
    destruct E2 as [y [Hy He]]. apply N.eqb_eq in He. subst y.
    simpl in Hy. repeat (destruct Hy as [Hy|Hy]; [lia|]). contradiction. }
  destruct (N.eqb_spec c 8490).
  { injection H as H. congruence. }
  destruct (N.eqb_spec c 304); [discriminate H|].
  injection H as H. now left.
Qed.

Lemma lower_la_spellings : forall w,
  toLowerCase w = js "la" -> In w articleSpellings.
Proof.
  intros w H. unfold toLowerCase in H.
  destruct w as [|c1 w]; [discriminate H|]. simpl in H.
  destruct (lowerUnit_shape c1) as [E1|[x1 E1]]; rewrite E1 in H;
    [discriminate H|].
  destruct w as [|c2 w]; [discriminate H|]. simpl in H.
  destruct (lowerUnit_shape c2) as [E2|[x2 E2]]; rewrite E2 in H;
    [discriminate H|].
  destruct w as [|c3 w].
  - simpl in H. injection H as H1 H2. subst x1 x2.
    destruct (lowerUnit_small c1 _ E1) as [->| ->]; [lia|discriminate| |];
      (destruct (lowerUnit_small c2 _ E2) as [->| ->]; [lia|discriminate| |]);
      unfold articleSpellings; simpl; auto.
  - simpl in H.
    destruct (lowerUnit_shape c3) as [E3|[x3 E3]]; rewrite E3 in H;
      discriminate H.
Qed.

(** C3: [la], in any letter case, is the article, with confidence exactly
    1.0. *)
Theorem C3_article_confidence_one : forall w,
  toLowerCase w = js "la" ->
  exists r c,
    analyzeWord (JString w) = Ok r
    /\ partOfSpeech r = Article
    /\ confidence r = Some c
    /\ c == 1.
Proof.
  intros w H. apply lower_la_spellings in H.
  unfold articleSpellings in H. simpl in H.
  destruct H as [H|[H|[H|[H|H]]]]; try contradiction; subst w;
    eexists; eexists; (split; [vm_compute; reflexivity|]);
    (split; [reflexivity|]); (split; [reflexivity|]);
    apply Qeq_bool_iff; vm_compute; reflexivity.
Qed.

Lemma C3_article_witness :
  exists r c,
    analyzeWord (JString (js "La")) = Ok r
    /\ partOfSpeech r = Article
    /\ confidence r = Some c
    /\ c == 1.
Proof.
  apply (C3_article_confidence_one (js "La")). reflexivity.
Defined.

(** C4: when no analyzer matches a word that is not blank, the result is
    the Unknown one: tag Unknown, confidence 0, the word as root, neither
    plural nor accusative, no alternatives. *)
Theorem C4_unknown_when_no_match : forall this w options,
  isEmpty (trim w) = false ->
  (forall a, In a (MorphologicalAnalyzer.analyzers this) ->
             Analyzer.match_ a (trim w) <> Ok true) ->
  MorphologicalAnalyzer.analyze this (JString w) options
  = Ok (mkAnalysisResult (trim w) Unknown
          (Some (mkFeatures false false None None None None (Some (trim w))))
          None (Some 0) [] (Some (js "Unknown"))).
Proof.
  intros this w options Hw Hno.
  destruct (analyze_cases this w options Hw) as [H|H]; [exact H|].
  destruct H as [best [rest [morph [inst [Hs _]]]]].
  assert (Hin : In best
                  (MorphologicalAnalyzer.collectMatches
                     (MorphologicalAnalyzer.analyzers this) (trim w))).
  { apply (sort_desc_In _ MorphologicalAnalyzer.Match.confidence).
    rewrite Hs. now left. }
  apply collectMatches_In in Hin. destruct Hin as [Ha [Hm _]].
  exfalso. exact (Hno _ Ha Hm).
Qed.

Lemma C4_unknown_witness :
  analyzeWord (JString (js "notaword"))
  = Ok (mkAnalysisResult (js "notaword") Unknown
          (Some (mkFeatures false false None None None None
                   (Some (js "notaword"))))
          None (Some 0) [] (Some (js "Unknown"))).
Proof.
  apply (C4_unknown_when_no_match MorphologicalAnalyzer.new (js "notaword")
           None).
  - reflexivity.
  - intros a H. change (MorphologicalAnalyzer.analyzers MorphologicalAnalyzer.new)
      with ALL_MORPHOLOGICAL_ANALYZERS in H.
    each_analyzer H; vm_compute; discriminate.
Defined.

Lemma ranked_matches : forall this w best rest,
  sort_desc MorphologicalAnalyzer.Match.confidence
    (MorphologicalAnalyzer.collectMatches
       (MorphologicalAnalyzer.analyzers this) w) = best :: rest ->
  forall m, In m (best :: rest) ->
    In (MorphologicalAnalyzer.Match.analyzer m)
       (MorphologicalAnalyzer.analyzers this)
    /\ Analyzer.match_ (MorphologicalAnalyzer.Match.analyzer m) w = Ok true
    /\ MorphologicalAnalyzer.Match.confidence m
       = MorphologicalAnalyzer.calculateConfidence
           (MorphologicalAnalyzer.Match.analyzer m) w.
Proof.
  intros this w best rest Hs m Hm. apply collectMatches_In.
  apply (sort_desc_In _ MorphologicalAnalyzer.Match.confidence).
  now rewrite Hs.
Qed.

(** C5: the confidence values of the primary result followed by its
    alternatives never increase, and there are at most three
    alternatives. *)
Theorem C5_alternatives_ranked : forall w options,
  isEmpty (trim w) = false ->
  exists r,
    MorphologicalAnalyzer.analyze MorphologicalAnalyzer.new (JString w) options
    = Ok r
    /\ nonIncreasing (ranking r)
    /\ (length (alternatives r) <= 3)%nat.
Proof.
  intros w options Hw.
  destruct (analyze_cases MorphologicalAnalyzer.new w options Hw) as [H|H].
  - eexists. split; [exact H|]. split.
    + unfold ranking, nonIncreasing. simpl. repeat constructor.
    + simpl. lia.
  - destruct H as [best [rest [morph [inst [Hs [Hm [Hc H]]]]]]].
    eexists. split; [exact H|].
    pose proof (ranked_matches _ _ _ _ Hs) as Hall.
    assert (Hscores :
      map MorphologicalAnalyzer.confidenceOrZero
        (MorphologicalAnalyzer.getAlternatives rest (trim w)
           (optionsOrDefault options))
      = map MorphologicalAnalyzer.Match.confidence (firstn 3 rest)).
    { apply getAlternatives_scores with (inst := inst)
        (tag := Analyzer.partOfSpeech
                  (MorphologicalAnalyzer.Match.analyzer best));
        [|exact Hc].
      intros m Hin. destruct (Hall m (or_intror Hin)) as [Ha [Hb _]].
      split; assumption. }
    split.
    + unfold ranking. cbn [alternatives MorphologicalAnalyzer.confidenceOrZero
                           confidence].
      rewrite Hscores, <- firstn_map. apply nonIncreasing_prefix.
      change (nonIncreasing
                (map MorphologicalAnalyzer.Match.confidence (best :: rest))).
      apply sorted_map_key. rewrite <- Hs. apply sort_desc_sorted.
    + cbn [alternatives]. unfold MorphologicalAnalyzer.getAlternatives.
      rewrite length_map, array_slice_0_3. apply firstn_le_length.
Qed.

Lemma C5_alternatives_witness :
  exists r,
    MorphologicalAnalyzer.analyze MorphologicalAnalyzer.new
      (JString (js "kio")) None = Ok r
    /\ nonIncreasing (ranking r)
    /\ (length (alternatives r) <= 3)%nat.
Proof.
  apply (C5_alternatives_ranked (js "kio") None). reflexivity.
Defined.

(** C10: the confidence of the primary result of a word that is not
    blank is 0, and then the tag is Unknown, or lies between 0.5 and 1,
    and then the tag is not Unknown. *)
Theorem C10_confidence_zero_or_above_half : forall w options,
  isEmpty (trim w) = false ->
  exists r c,
    MorphologicalAnalyzer.analyze MorphologicalAnalyzer.new (JString w) options
    = Ok r
    /\ confidence r = Some c
    /\ ((c == 0 /\ partOfSpeech r = Unknown)
        \/ (0.5 <= c /\ c <= 1 /\ partOfSpeech r <> Unknown)).
Proof.
  intros w options Hw.
  destruct (analyze_cases MorphologicalAnalyzer.new w options Hw) as [H|H].
  - eexists. exists 0. split; [exact H|]. split; [reflexivity|].
    left. split; reflexivity.
  - destruct H as [best [rest [morph [inst [Hs [Hm [Hc H]]]]]]].
    eexists. eexists. split; [exact H|]. split; [reflexivity|]. right.
    destruct (ranked_matches _ _ _ _ Hs best (or_introl eq_refl))
      as [Ha [_ Hconf]].
    rewrite Hconf.
    destruct (calculateConfidence_range
                (MorphologicalAnalyzer.Match.analyzer best) (trim w))
      as [Hlo Hhi].
    repeat split; try assumption.
    cbn [partOfSpeech]. now apply analyzer_tag_known.
Qed.

Lemma C10_confidence_witness :
  exists r c,
    MorphologicalAnalyzer.analyze MorphologicalAnalyzer.new
      (JString (js "hundon")) None = Ok r
    /\ confidence r = Some c
    /\ ((c == 0 /\ partOfSpeech r = Unknown)
        \/ (0.5 <= c /\ c <= 1 /\ partOfSpeech r <> Unknown)).
Proof.
  apply (C10_confidence_zero_or_above_half (js "hundon") None). reflexivity.
Defined.

(** C7: the empty string, a string of white space only and anything that
    is not a string make [analyzeWord] and [analyzeSentence] throw, and the
    error reaches the caller. *)
Theorem C7_invalid_input_raises : forall v,
  invalidInput v ->
  (exists e, analyzeWord v = Throw e)
  /\ (exists e, analyzeSentence v = Throw e).
Proof.
  intros v H.
  destruct v as [| |b|n|s|]; simpl; try (split; eexists; reflexivity).
  simpl in H. unfold analyzeWord, analyzeSentence,
    MorphologicalAnalyzer.analyze,
    MorphologicalSentenceAnalyzer.analyzeSentence.
  destruct s as [|c s]; simpl isEmpty; cbv iota;
    [split; eexists; reflexivity|].
  rewrite H. simpl. split; eexists; reflexivity.
Qed.

Lemma C7_invalid_input_witness :
  ((exists e, analyzeWord (JString (js "   ")) = Throw e)
   /\ (exists e, analyzeSentence (JString (js "   ")) = Throw e))
  /\ ((exists e, analyzeWord (JString []) = Throw e)
      /\ (exists e, analyzeSentence (JString []) = Throw e))
  /\ ((exists e, analyzeWord JNull = Throw e)
      /\ (exists e, analyzeSentence JNull = Throw e)).
Proof.
  split; [|split].
  - apply (C7_invalid_input_raises (JString (js "   "))). reflexivity.
  - apply (C7_invalid_input_raises (JString [])). reflexivity.
  - apply (C7_invalid_input_raises JNull). exact I.
Defined.

(** C8: [isEsperantoWord] is a total function to the booleans (every
    exception of a match predicate is caught inside [canAnalyze]); it is
    false on the empty string, on white space, on what is not a string, and
    on every word that no analyzer matches. *)
Theorem C8_isEsperantoWord_false : forall v,
  invalidInput v \/ unmatchedInput v ->
  isEsperantoWord v = false.
Proof.
  intros v H. unfold isEsperantoWord, MorphologicalAnalyzer.canAnalyze.
  destruct v as [| |b|n|s|]; try reflexivity.
  destruct (isEmpty s) eqn:Es; [reflexivity|].
  destruct (isEmpty (trim s)) eqn:Et; [reflexivity|].
  destruct H as [H|H]; simpl in H.
  - rewrite H in Et. discriminate.
  - destruct (existsb _ _) eqn:E; [|reflexivity].
    apply existsb_exists in E. destruct E as [a [Ha Hm]].
    specialize (H a Ha).
    destruct (Analyzer.match_ a (trim s)) as [[|]|e]; try discriminate.
    now contradiction H.
Qed.

Lemma C8_isEsperantoWord_witness :
  isEsperantoWord (JString (js "house")) = false
  /\ isEsperantoWord (JString []) = false
  /\ isEsperantoWord (JString (js "  ")) = false
  /\ isEsperantoWord JNull = false.
Proof.
  split; [|split; [|split]].
  - apply (C8_isEsperantoWord_false (JString (js "house"))). right.
    intros a H.
    change (MorphologicalAnalyzer.analyzers getWordAnalyzer)
      with ALL_MORPHOLOGICAL_ANALYZERS in H.
    each_analyzer H; vm_compute; discriminate.
  - apply (C8_isEsperantoWord_false (JString [])). left. reflexivity.
  - apply (C8_isEsperantoWord_false (JString (js "  "))). left. reflexivity.
  - apply (C8_isEsperantoWord_false JNull). left. exact I.
Defined.

(** ** The claim on nouns *)

Lemma noun_outranks : forall stem j n,
  (2 <= length stem)%nat -> forallb isLetter stem = true ->
  includes nounLikeCorrelatives (toLowerCase (nounForm stem j n)) = false ->
  forall a,
    MorphologicalAnalyzer.calculateConfidence a (nounForm stem j n)
    <= MorphologicalAnalyzer.calculateConfidence NounMorphologicalAnalyzer.new
         (nounForm stem j n).
Proof.
  intros stem j n Hlen Hl Hcor a.
  pose proof (noun_lower_ending stem j n Hlen Hl) as Hend.
  rewrite (calculateConfidence_noun _ (noun_shape stem j n Hlen Hl)).
  destruct (5 <? length (nounForm stem j n))%nat eqn:E.
  - apply calculateConfidence_range.
  - apply Nat.ltb_ge in E. apply calculateConfidence_short.
    + exact E.
    + destruct (str_eqb (toLowerCase (nounForm stem j n)) (js "la")) eqn:Ela;
        [|reflexivity].
      apply str_eqb_eq in Ela. rewrite Ela in Hend. vm_compute in Hend.
      discriminate Hend.
    + destruct (includes MorphologicalAnalyzer.basicNumbers
                  (toLowerCase (nounForm stem j n))) eqn:Eb; [|reflexivity].
      pose proof (includes_filter nounEnding _ _ Eb Hend) as Hf.
      replace (filter nounEnding MorphologicalAnalyzer.basicNumbers)
        with [js "milion"] in Hf by (vm_compute; reflexivity).
      apply includes_In in Hf. destruct Hf as [Hf|[]].
      pose proof (noun_lower_length stem j n Hl) as Hlow.
      rewrite <- Hf in Hlow. simpl in Hlow. lia.
    + destruct (includes MorphologicalAnalyzer.correlativePronouns
                  (toLowerCase (nounForm stem j n))) eqn:Ec; [|reflexivity].
      pose proof (includes_filter nounEnding _ _ Ec Hend) as Hf.
      replace (filter nounEnding MorphologicalAnalyzer.correlativePronouns)
        with nounLikeCorrelatives in Hf by (vm_compute; reflexivity).
      congruence.
Qed.

(** C1, amended: a noun [stem + o (+ j) (+ n)] with a stem of two letters
    or more is analyzed as a noun with that stem as root, plural exactly
    when the [j] is there and accusative exactly when the [n] is there,
    unless its lower case is one of the correlatives [kio], [tio], [ĉio],
    [nenio], which the dispatcher ranks as pronouns. *)
Theorem C1_noun_analysis : forall stem j n,
  (2 <= length stem)%nat -> forallb isLetter stem = true ->
  includes nounLikeCorrelatives (toLowerCase (nounForm stem j n)) = false ->
  analyzedAsNoun stem j n.
Proof.
  intros stem j n Hlen Hl Hcor.
  pose proof (nounForm_letters stem j n Hl) as Hletters.
  pose proof (trim_letters _ Hletters) as Htrim.
  pose proof (noun_match stem j n Hlen Hl) as Hmatch.
  pose proof (nounForm_length stem j n) as Hlong.
  remember (nounForm stem j n) as w eqn:Ew.
  assert (Hne : isEmpty (trim w) = false).
  { rewrite Htrim. destruct w; [simpl in Hlong; lia | reflexivity]. }
  set (x := MorphologicalAnalyzer.Match.mk NounMorphologicalAnalyzer.new
              (MorphologicalAnalyzer.calculateConfidence
                 NounMorphologicalAnalyzer.new w)).
  assert (Hsort :
    sort_desc MorphologicalAnalyzer.Match.confidence
      (MorphologicalAnalyzer.collectMatches
         (MorphologicalAnalyzer.analyzers MorphologicalAnalyzer.new) (trim w))
    = x :: sort_desc MorphologicalAnalyzer.Match.confidence
             (MorphologicalAnalyzer.collectMatches
                (tl ALL_MORPHOLOGICAL_ANALYZERS) w)).
  { rewrite Htrim.
    change (MorphologicalAnalyzer.analyzers MorphologicalAnalyzer.new)
      with (NounMorphologicalAnalyzer.new :: tl ALL_MORPHOLOGICAL_ANALYZERS).
    rewrite collectMatches_cons
      by (cbn [Analyzer.match_ NounMorphologicalAnalyzer.new];
          now rewrite Hmatch).
    apply sort_desc_head. intros y Hy.
    apply collectMatches_In in Hy. destruct Hy as [_ [_ Hy]].
    rewrite Hy. subst w. cbn [MorphologicalAnalyzer.Match.confidence x].
    now apply noun_outranks. }
  assert (Hext :
    Analyzer.extractMorphology NounMorphologicalAnalyzer.new (trim w)
      (optionsOrDefault None)
    = Ok (mkFeatures j n None None None None (Some stem))).
  { rewrite Htrim.
    cbn [Analyzer.extractMorphology NounMorphologicalAnalyzer.new].
    unfold NounMorphologicalAnalyzer.extractMorphology.
    rewrite Hmatch. subst w.
    rewrite noun_extractRoot.
    unfold BaseMorphologicalAnalyzer.extractMorphology.
    cbn [optionsOrDefault MorphologicalAnalyzer.getDefaultOptions
         BaseMorphologicalAnalyzer.featuresOff includeFeatures negb].
    rewrite noun_checkPlural, noun_checkAccusative. reflexivity. }
  assert (Hart : str_eqb (trim w) (js "Article") = false).
  { rewrite Htrim. subst w. apply noun_not_Article. }
  destruct (createWord_ok (tagString Noun) (trim w) Hart) as [inst Hinst].
  pose proof (analyze_best MorphologicalAnalyzer.new w None x _ _ inst
                Hne Hsort Hext Hinst) as Hres.
  unfold analyzedAsNoun, analyzeWord, getWordAnalyzer. rewrite <- Ew.
  eexists. eexists. split; [exact Hres|].
  repeat split.
Qed.

Lemma C1_noun_witness : analyzedAsNoun (js "dom") true true.
Proof.
  apply (C1_noun_analysis (js "dom") true true).
  - simpl. lia.
  - reflexivity.
  - reflexivity.
Defined.

(** C1 as the specification states it fails on [kio]: the stem [ki] has
    two letters of the alphabet, and the word is analyzed as a pronoun. *)
Lemma C1_noun_counterexample :
  (2 <= length (js "ki"))%nat
  /\ forallb isLetter (js "ki") = true
  /\ (exists r, analyzeWord (JString (nounForm (js "ki") false false)) = Ok r
                /\ partOfSpeech r = Pronoun)
  /\ ~ analyzedAsNoun (js "ki") false false.
Proof.
  split; [simpl; lia|]. split; [reflexivity|]. split.
  - eexists. split; [vm_compute; reflexivity | reflexivity].
  - intros [r [m [Hr [Hp _]]]]. vm_compute in Hr.
    injection Hr as <-. discriminate Hp.
Qed.

(** ** Statistics *)

Lemma PartOfSpeech_eqb_eq : forall a b, PartOfSpeech_eqb a b = true <-> a = b.
Proof. intros a b. destruct a, b; simpl; split; congruence. Qed.

Lemma getCount_setCount : forall counts tag n tag',
  MorphologicalSentenceAnalyzer.getCount
    (MorphologicalSentenceAnalyzer.setCount counts tag n) tag'
  = if PartOfSpeech_eqb tag tag' then Some n
    else MorphologicalSentenceAnalyzer.getCount counts tag'.
Proof.
  induction counts as [|[k m] counts IH]; intros tag n tag'; simpl.
  - reflexivity.
  - destruct (PartOfSpeech_eqb k tag) eqn:E; simpl.
    + apply PartOfSpeech_eqb_eq in E. subst k.
      now destruct (PartOfSpeech_eqb tag tag').
    + destruct (PartOfSpeech_eqb k tag') eqn:E'.
      * apply PartOfSpeech_eqb_eq in E'. subst k.
        destruct (PartOfSpeech_eqb tag tag') eqn:E2; [|reflexivity].
        apply PartOfSpeech_eqb_eq in E2. subst tag.
        rewrite (proj2 (PartOfSpeech_eqb_eq tag' tag') eq_refl) in E.
        discriminate E.
      * apply IH.
Qed.

(** One step of the counting loop. *)
Lemma count_step : forall counts tag tag',
  MorphologicalSentenceAnalyzer.getCount
    (MorphologicalSentenceAnalyzer.setCount counts tag
       ((match MorphologicalSentenceAnalyzer.getCount counts tag with
         | Some n => if (n =? 0)%Z then 0%Z else n
         | None => 0%Z
         end) + 1)%Z) tag'
  = if PartOfSpeech_eqb tag tag'
    then Some (MorphologicalSentenceAnalyzer.orDefault
                 (MorphologicalSentenceAnalyzer.getCount counts tag') 0 + 1)%Z
    else MorphologicalSentenceAnalyzer.getCount counts tag'.
Proof.
  intros counts tag tag'. rewrite getCount_setCount.
  destruct (PartOfSpeech_eqb tag tag') eqn:E; [|reflexivity].
  apply PartOfSpeech_eqb_eq in E. subst tag'.
  destruct (MorphologicalSentenceAnalyzer.getCount counts tag) as [n|];
    simpl; [|reflexivity].
  destruct (Z.eqb_spec n 0); [subst n|]; reflexivity.
Qed.

Lemma occurrences_cons : forall tag w ws,
  occurrences tag (w :: ws)
  = if PartOfSpeech_eqb (partOfSpeech w) tag then S (occurrences tag ws)
    else occurrences tag ws.
Proof.
  intros tag w ws. unfold occurrences. simpl.
  now destruct (PartOfSpeech_eqb (partOfSpeech w) tag).
Qed.

Lemma counting_loop : forall ws counts tag,
  MorphologicalSentenceAnalyzer.getCount
    (fold_left
       (fun counts w =>
          let pos := partOfSpeech w in
          let old :=
            match MorphologicalSentenceAnalyzer.getCount counts pos with
            | Some n => if (n =? 0)%Z then 0%Z else n
            | None => 0%Z
            end in
          MorphologicalSentenceAnalyzer.setCount counts pos (old + 1)%Z)
       ws counts) tag
  = if (occurrences tag ws =? 0)%nat
    then MorphologicalSentenceAnalyzer.getCount counts tag
    else Some (MorphologicalSentenceAnalyzer.orDefault
                 (MorphologicalSentenceAnalyzer.getCount counts tag) 0
               + Z.of_nat (occurrences tag ws))%Z.
Proof.
  induction ws as [|w ws IH]; intros counts tag.
  - reflexivity.
  - cbn [fold_left]. rewrite IH. cbv zeta. rewrite count_step.
    rewrite occurrences_cons.
    destruct (PartOfSpeech_eqb (partOfSpeech w) tag).
    + destruct (occurrences tag ws =? 0)%nat eqn:E.
      * apply Nat.eqb_eq in E. rewrite E. reflexivity.
      * cbn [Nat.eqb MorphologicalSentenceAnalyzer.orDefault].
        f_equal. lia.
    + reflexivity.
Qed.

Lemma filter_split_length : forall (A : Type) (p : A -> bool) l,
  (length (filter (fun x => negb (p x)) l) + length (filter p l)
   = length l)%nat.
Proof.
  intros A p l. induction l as [|x l IH]; simpl; [reflexivity|].
  destruct (p x); simpl; lia.
Qed.

Lemma confidencesOf_length : forall ws,
  length (confidencesOf ws)
  = length (filter (fun w => MorphologicalSentenceAnalyzer.isNumber
                               (confidence w)) ws).
Proof.
  induction ws as [|w ws IH]; simpl; [reflexivity|].
  destruct (confidence w); simpl; now rewrite IH.
Qed.

Lemma confidencesOf_cons : forall w ws,
  confidencesOf (w :: ws)
  = match confidence w with
    | Some c => c :: confidencesOf ws
    | None => confidencesOf ws
    end.
Proof. intros w ws. unfold confidencesOf. simpl. now destruct (confidence w). Qed.

(** *** Doubles *)

(** Rounding keeps the sign. *)
Lemma binary_round_aux_sign : forall sx mx ex lx,
  match binary_round_aux 53 1024 sx mx ex lx with
  | S754_zero s | S754_infinity s | S754_finite s _ _ => s = sx
  | S754_nan => True
  end.
Proof.
  intros sx mx ex lx. unfold binary_round_aux.
  destruct (shr_fexp 53 1024 mx ex lx) as [mrs' e'].
  destruct (shr_fexp 53 1024 _ e' loc_Exact) as [mrs'' e''].
  destruct (shr_m mrs''); [reflexivity | | exact I].
  destruct (Z.leb e'' (1024 - 53)); reflexivity.
Qed.

Lemma binary_round_sign : forall sx mx ex,
  match binary_round 53 1024 sx mx ex with
  | S754_zero s | S754_infinity s | S754_finite s _ _ => s = sx
  | S754_nan => True
  end.
Proof.
  intros sx mx ex. unfold binary_round.
  destruct (shl_align mx ex _) as [mz ez]. apply binary_round_aux_sign.
Qed.

Lemma toDouble_notNegative : forall q,
  (0 <= Qnum q)%Z -> notNegative (toDouble q) = true.
Proof.
  intros [n d] H. unfold toDouble. simpl in *.
  destruct n as [|n|n]; [reflexivity | | lia].
  unfold ddiv, SFdiv.
  destruct (SFdiv_core_binary 53 1024 (Z.pos n) 0 (Z.pos d) 0) as [[mz ez] lz].
  cbn [xorb].
  pose proof (binary_round_aux_sign false mz ez lz) as Hs.
  destruct (binary_round_aux 53 1024 false mz ez lz);
    simpl in *; subst; reflexivity.
Qed.

Lemma dadd_notNegative : forall x y,
  notNegative x = true -> notNegative y = true ->
  notNegative (dadd x y) = true.
Proof.
  intros x y Hx Hy. unfold dadd.
  destruct x as [sx|sx| |sx mx ex], y as [sy|sy| |sy my ey];
    simpl in Hx, Hy; try apply negb_true_iff in Hx;
    try apply negb_true_iff in Hy; subst; try reflexivity.
  unfold SFadd. cbn [cond_Zopp].
  destruct (shl_align mx ex (Z.min ex ey)) as [mx' ex'].
  destruct (shl_align my ey (Z.min ex ey)) as [my' ey']. cbn [fst].
  change (Z.pos mx' + Z.pos my')%Z with (Z.pos (mx' + my')).
  cbn [binary_normalize].
  pose proof (binary_round_sign false (mx' + my') (Z.min ex ey)) as Hs.
  destruct (binary_round 53 1024 false (mx' + my') (Z.min ex ey));
    simpl in *; subst; reflexivity.
Qed.

(** Adding 0 changes nothing. *)
Lemma dadd_zero : forall x,
  notNegative x = true -> dadd x (toDouble 0) = x.
Proof.
  intros x Hx. change (toDouble 0) with (S754_zero false).
  destruct x as [sx|sx| |sx mx ex]; simpl in Hx;
    try apply negb_true_iff in Hx; subst; reflexivity.
Qed.

(** The arithmetic of the scores, done on doubles, gives the double of
    the rational score. *)
Lemma calculateConfidence_double : forall a w,
  MorphologicalAnalyzer.calculateConfidenceDouble a w
  = toDouble (MorphologicalAnalyzer.calculateConfidence a w).
Proof.
  intros a w.
  unfold MorphologicalAnalyzer.calculateConfidenceDouble,
    MorphologicalAnalyzer.calculateConfidence.
  destruct (Analyzer.partOfSpeech a);
    cbn [PartOfSpeech_eqb existsb andb orb];
    rewrite ?andb_false_r;
    split_conditions; vm_compute; reflexivity.
Qed.

(** *** The average *)

Lemma Qle_numerator : forall c : Q, 0 <= c -> (0 <= Qnum c)%Z.
Proof. intros [n d] H. unfold Qle in H. simpl in *. lia. Qed.

Lemma analyze_score : forall w options r c,
  MorphologicalAnalyzer.analyze MorphologicalAnalyzer.new (JString w) options
  = Ok r ->
  confidence r = Some c -> 0 <= c.
Proof.
  intros w options r c H Hc.
  destruct (isEmpty (trim w)) eqn:Et.
  - unfold MorphologicalAnalyzer.analyze in H. rewrite Et in H.
    destruct (isEmpty w); discriminate H.
  - destruct (analyze_cases MorphologicalAnalyzer.new w options Et) as [E|E].
    + rewrite E in H. injection H as <-. injection Hc as <-. lra.
    + destruct E as [best [rest [morph [inst [Hs [_ [_ E]]]]]]].
      rewrite E in H. injection H as <-. injection Hc as <-.
      destruct (ranked_matches _ _ _ _ Hs best (or_introl eq_refl))
        as [_ [_ Hbest]].
      rewrite Hbest.
      pose proof (calculateConfidence_range
                    (MorphologicalAnalyzer.Match.analyzer best) (trim w)).
      lra.
Qed.

Lemma collectResults_score : forall l w options r c,
  In r (MorphologicalAnalyzer.collectResults l w options) ->
  confidence r = Some c -> 0 <= c.
Proof.
  induction l as [|a l IH]; simpl; intros w options r c H Hc;
    [contradiction|].
  destruct (Analyzer.match_ a w) as [[|]|e]; try (now apply (IH w options r)).
  destruct (MorphologicalAnalyzer.buildResult a _ w options [])
    as [r0|e] eqn:Eb; [|now apply (IH w options r)].
  destruct H as [<-|H]; [|now apply (IH w options r)].
  unfold MorphologicalAnalyzer.buildResult, bind in Eb.
  destruct (Analyzer.extractMorphology a w options); [|discriminate Eb].
  destruct (createWord _ w); [|discriminate Eb].
  injection Eb as <-. injection Hc as <-.
  pose proof (calculateConfidence_range a w). lra.
Qed.

Lemma analyzeAll_score : forall this w options rs r c,
  MorphologicalAnalyzer.analyzeAll this (JString w) options = Ok rs ->
  In r rs -> confidence r = Some c -> 0 <= c.
Proof.
  intros this w options rs r c H Hr Hc.
  unfold MorphologicalAnalyzer.analyzeAll in H.
  destruct (isEmpty w); [discriminate H|].
  destruct (isEmpty (trim w)); [discriminate H|].
  injection H as <-. apply sort_desc_In in Hr.
  exact (collectResults_score _ _ _ _ _ Hr Hc).
Qed.

Lemma analyzeToken_score : forall analysisOptions token r c,
  MorphologicalSentenceAnalyzer.analyzeToken MorphologicalSentenceAnalyzer.new
    analysisOptions token = Ok r ->
  confidence r = Some c -> 0 <= c.
Proof.
  intros o token r c H Hc.
  unfold MorphologicalSentenceAnalyzer.analyzeToken, bind in H.
  match type of H with
  | match ?first with _ => _ end = _ =>
      destruct first as [r0|e] eqn:E; [|discriminate H]
  end.
  assert (H0 : forall c0, confidence r0 = Some c0 -> 0 <= c0).
  { intros c0 Hc0.
    destruct (MorphologicalSentenceAnalyzer.m_includeAlternatives o).
    - destruct (MorphologicalAnalyzer.analyzeAll _ _ _) as [all|e] eqn:Ea;
        [|discriminate E].
      destruct all as [|fullResult others].
      + exact (analyze_score _ _ _ _ E Hc0).
      + injection E as <-. cbn [confidence] in Hc0.
        exact (analyzeAll_score _ _ _ _ fullResult c0 Ea
                 (or_introl eq_refl) Hc0).
    - exact (analyze_score _ _ _ _ E Hc0). }
  injection H as <-. revert Hc H0.
  destruct r0 as [w0 p0 m0 i0 c0 a0 n0].
  destruct (MorphologicalSentenceAnalyzer.m_includeConfidence o),
    (MorphologicalSentenceAnalyzer.m_includeMorphology o),
    (MorphologicalSentenceAnalyzer.m_includeAlternatives o),
    (MorphologicalSentenceAnalyzer.m_preserveCase o); simpl;
    intros Hc H0; try discriminate Hc; now apply H0.
Qed.

Lemma analyzeTokens_score : forall analysisOptions tokens,
  Forall (fun r => forall c, confidence r = Some c -> 0 <= c)
    (MorphologicalSentenceAnalyzer.analyzeTokens
       MorphologicalSentenceAnalyzer.new analysisOptions tokens).
Proof.
  intros o tokens. unfold MorphologicalSentenceAnalyzer.analyzeTokens.
  apply Forall_forall. intros r Hr. apply in_map_iff in Hr.
  destruct Hr as [token [Hr _]].
  destruct (MorphologicalSentenceAnalyzer.analyzeToken _ o token) as [r0|e]
    eqn:E.
  - subst r0. intros c Hc. exact (analyzeToken_score _ _ _ _ E Hc).
  - subst r. intros c Hc. injection Hc as <-. lra.
Qed.

(** The sum leaves the Unknown words out; they would add 0. *)
Lemma recognised_sum : forall ws,
  Forall unknownScoresZero ws ->
  Forall (fun r => forall c, confidence r = Some c -> 0 <= c) ws ->
  forall sum, notNegative sum = true ->
  fold_left
    (fun sum w =>
       dadd sum (toDouble (MorphologicalAnalyzer.confidenceOrZero w)))
    (filter
       (fun w => negb (PartOfSpeech_eqb (partOfSpeech w) Unknown)
                 && MorphologicalSentenceAnalyzer.isNumber (confidence w))
       ws)
    sum
  = fold_left (fun sum c => dadd sum (toDouble c)) (confidencesOf ws) sum.
Proof.
  induction ws as [|w ws IH]; intros Hu Hs sum Hsum; [reflexivity|].
  inversion Hu as [|? ? Hw Hws]; subst.
  inversion Hs as [|? ? Hc Hcs]; subst.
  rewrite confidencesOf_cons. cbn [filter].
  unfold unknownScoresZero in Hw.
  destruct (PartOfSpeech_eqb (partOfSpeech w) Unknown) eqn:E.
  - apply PartOfSpeech_eqb_eq in E. cbn [negb andb].
    destruct (Hw E) as [Hn|Hn]; rewrite Hn.
    + now apply IH.
    + cbn [fold_left]. rewrite (dadd_zero sum Hsum). now apply IH.
  - cbn [negb andb]. destruct (confidence w) as [c|] eqn:Ec;
      cbn [MorphologicalSentenceAnalyzer.isNumber].
    + cbn [fold_left].
      replace (MorphologicalAnalyzer.confidenceOrZero w) with c
        by (unfold MorphologicalAnalyzer.confidenceOrZero; now rewrite Ec).
      apply IH; try assumption.
      apply dadd_notNegative; [exact Hsum|].
      apply toDouble_notNegative, Qle_numerator. now apply Hc.
    + now apply IH.
Qed.

Lemma average_is_mean : forall ws,
  Forall unknownScoresZero ws ->
  Forall (fun r => forall c, confidence r = Some c -> 0 <= c) ws ->
  MorphologicalSentenceAnalyzer.averageConfidence
    (MorphologicalSentenceAnalyzer.calculateStatistics ws)
  = doubleMean (confidencesOf ws).
Proof.
  intros ws Hu Hs. unfold MorphologicalSentenceAnalyzer.calculateStatistics.
  cbn [MorphologicalSentenceAnalyzer.averageConfidence].
  rewrite <- confidencesOf_length.
  rewrite (recognised_sum ws Hu Hs (toDouble 0) eq_refl).
  unfold doubleMean, doubleSum.
  destruct (confidencesOf ws) as [|c cs]; [reflexivity|].
  replace (0 <? Z.of_nat (length (c :: cs)))%Z with true
    by (symmetry; apply Z.ltb_lt; simpl length; lia).
  reflexivity.
Qed.

(** ** The words of a sentence *)

Lemma analyze_unknown_score : forall w options r,
  MorphologicalAnalyzer.analyze MorphologicalAnalyzer.new (JString w) options
  = Ok r ->
  unknownScoresZero r.
Proof.
  intros w options r H Hu.
  destruct (isEmpty (trim w)) eqn:Et.
  - unfold MorphologicalAnalyzer.analyze in H. rewrite Et in H.
    destruct (isEmpty w); discriminate H.
  - destruct (analyze_cases MorphologicalAnalyzer.new w options Et) as [Hc|Hc].
    + rewrite Hc in H. injection H as <-. right. reflexivity.
    + destruct Hc as [best [rest [morph [inst [Hs [_ [_ Hc]]]]]]].
      rewrite Hc in H. injection H as <-. cbn [partOfSpeech] in Hu.
      destruct (ranked_matches _ _ _ _ Hs best (or_introl eq_refl))
        as [Ha _].
      exfalso. exact (analyzer_tag_known _ Ha Hu).
Qed.

Lemma collectResults_tag : forall l w options r,
  In r (MorphologicalAnalyzer.collectResults l w options) ->
  exists a, In a l /\ partOfSpeech r = Analyzer.partOfSpeech a.
Proof.
  induction l as [|a l IH]; simpl; intros w options r H; [contradiction|].
  assert (Hrest : In r (MorphologicalAnalyzer.collectResults l w options) ->
                  exists a0, (a = a0 \/ In a0 l)
                             /\ partOfSpeech r = Analyzer.partOfSpeech a0).
  { intro Hr. destruct (IH _ _ _ Hr) as [a0 [Ha0 Hp]]. exists a0. auto. }
  destruct (Analyzer.match_ a w) as [[|]|e]; try (now apply Hrest).
  destruct (MorphologicalAnalyzer.buildResult a _ w options [])
    as [r0|e] eqn:Eb; [|now apply Hrest].
  destruct H as [<-|H]; [|now apply Hrest].
  exists a. split; [now left|].
  unfold MorphologicalAnalyzer.buildResult, bind in Eb.
  destruct (Analyzer.extractMorphology a w options); [|discriminate Eb].
  destruct (createWord _ w); [|discriminate Eb].
  injection Eb as <-. reflexivity.
Qed.

Lemma analyzeAll_tag : forall this w options rs r,
  MorphologicalAnalyzer.analyzeAll this (JString w) options = Ok rs ->
  In r rs ->
  exists a, In a (MorphologicalAnalyzer.analyzers this)
            /\ partOfSpeech r = Analyzer.partOfSpeech a.
Proof.
  intros this w options rs r H Hr.
  unfold MorphologicalAnalyzer.analyzeAll in H.
  destruct (isEmpty w); [discriminate H|].
  destruct (isEmpty (trim w)); [discriminate H|].
  injection H as <-. apply sort_desc_In in Hr.
  now apply collectResults_tag in Hr.
Qed.

Lemma analyzeToken_unknown_score : forall analysisOptions token r,
  MorphologicalSentenceAnalyzer.analyzeToken MorphologicalSentenceAnalyzer.new
    analysisOptions token = Ok r ->
  unknownScoresZero r.
Proof.
  intros o token r H.
  unfold MorphologicalSentenceAnalyzer.analyzeToken, bind in H.
  match type of H with
  | match ?first with _ => _ end = _ =>
      destruct first as [r0|e] eqn:E; [|discriminate H]
  end.
  assert (H0 : unknownScoresZero r0).
  { destruct (MorphologicalSentenceAnalyzer.m_includeAlternatives o).
    - destruct (MorphologicalAnalyzer.analyzeAll _ _ _) as [all|e] eqn:Ea;
        [|discriminate E].
      destruct all as [|fullResult others].
      + exact (analyze_unknown_score _ _ _ E).
      + injection E as <-. intro Hu. cbn [partOfSpeech] in Hu. exfalso.
        destruct (analyzeAll_tag _ _ _ _ fullResult Ea (or_introl eq_refl))
          as [a [Ha Hp]].
        rewrite Hp in Hu. exact (analyzer_tag_known _ Ha Hu).
    - exact (analyze_unknown_score _ _ _ E). }
  injection H as <-. revert H0. unfold unknownScoresZero.
  destruct r0 as [w0 p0 m0 i0 c0 a0 n0].
  destruct (MorphologicalSentenceAnalyzer.m_includeConfidence o),
    (MorphologicalSentenceAnalyzer.m_includeMorphology o),
    (MorphologicalSentenceAnalyzer.m_includeAlternatives o),
    (MorphologicalSentenceAnalyzer.m_preserveCase o); simpl; auto.
Qed.

Lemma analyzeTokens_unknown_score : forall analysisOptions tokens,
  Forall unknownScoresZero
    (MorphologicalSentenceAnalyzer.analyzeTokens
       MorphologicalSentenceAnalyzer.new analysisOptions tokens).
Proof.
  intros o tokens. unfold MorphologicalSentenceAnalyzer.analyzeTokens.
  apply Forall_forall. intros r Hr. apply in_map_iff in Hr.
  destruct Hr as [token [Hr _]].
  destruct (MorphologicalSentenceAnalyzer.analyzeToken _ o token) as [r0|e]
    eqn:E.
  - subst r0. exact (analyzeToken_unknown_score _ _ _ E).
  - subst r. intros _. right. reflexivity.
Qed.

(** C6, amended: the statistics of a sentence.  The analyzed and the
    unknown words add up to the total; the counts hold, for every tag, the
    number of the words that carry it, and no entry for a tag that does
    not occur; the average confidence is the mean of the confidence
    values that are present as double arithmetic gives it, the values
    added from left to right and the sum divided by their number, and 0
    when there is none. *)
Theorem C6_sentence_statistics : forall sentence options,
  isEmpty (trim sentence) = false ->
  exists r,
    MorphologicalSentenceAnalyzer.analyzeSentence
      MorphologicalSentenceAnalyzer.new (JString sentence) options = Ok r
    /\ let st := MorphologicalSentenceAnalyzer.statistics r in
       let ws := MorphologicalSentenceAnalyzer.words r in
       MorphologicalSentenceAnalyzer.totalWords st = Z.of_nat (length ws)
       /\ MorphologicalSentenceAnalyzer.analyzedWords st
          = Z.of_nat
              (length
                 (filter
                    (fun w => negb (PartOfSpeech_eqb (partOfSpeech w) Unknown))
                    ws))
       /\ MorphologicalSentenceAnalyzer.unknownWords st
          = Z.of_nat (occurrences Unknown ws)
       /\ (MorphologicalSentenceAnalyzer.analyzedWords st
           + MorphologicalSentenceAnalyzer.unknownWords st
           = MorphologicalSentenceAnalyzer.totalWords st)%Z
       /\ (forall tag,
             MorphologicalSentenceAnalyzer.getCount
               (MorphologicalSentenceAnalyzer.partOfSpeechCounts st) tag
             = if (occurrences tag ws =? 0)%nat then None
               else Some (Z.of_nat (occurrences tag ws)))
       /\ MorphologicalSentenceAnalyzer.averageConfidence st
          = doubleMean (confidencesOf ws).
Proof.
  intros sentence options Hs.
  unfold MorphologicalSentenceAnalyzer.analyzeSentence.
  rewrite (trim_nonempty sentence Hs), Hs.
  eexists. split; [reflexivity|].
  cbn [MorphologicalSentenceAnalyzer.statistics
       MorphologicalSentenceAnalyzer.words].
  set (ws := MorphologicalSentenceAnalyzer.analyzeTokens _ _ _).
  assert (Hinv : Forall unknownScoresZero ws)
    by apply analyzeTokens_unknown_score.
  pose proof (filter_split_length _
                (fun w => PartOfSpeech_eqb (partOfSpeech w) Unknown) ws)
    as Hsplit.
  split; [reflexivity|]. split; [reflexivity|].
  split; [|split; [|split]].
  - unfold MorphologicalSentenceAnalyzer.calculateStatistics, occurrences.
    cbn [MorphologicalSentenceAnalyzer.unknownWords]. lia.
  - unfold MorphologicalSentenceAnalyzer.calculateStatistics.
    cbn [MorphologicalSentenceAnalyzer.unknownWords
         MorphologicalSentenceAnalyzer.analyzedWords
         MorphologicalSentenceAnalyzer.totalWords]. lia.
  - intro tag. unfold MorphologicalSentenceAnalyzer.calculateStatistics.
    cbn [MorphologicalSentenceAnalyzer.partOfSpeechCounts].
    rewrite counting_loop. cbn [MorphologicalSentenceAnalyzer.getCount
                                MorphologicalSentenceAnalyzer.orDefault].
    now rewrite Z.add_0_l.
  - apply average_is_mean; [exact Hinv | apply analyzeTokens_score].
Qed.

Lemma C6_sentence_statistics_witness :
  exists r,
    MorphologicalSentenceAnalyzer.analyzeSentence
      MorphologicalSentenceAnalyzer.new
      (JString (js "Mi amas la belan hundon.")) None = Ok r
    /\ let st := MorphologicalSentenceAnalyzer.statistics r in
       let ws := MorphologicalSentenceAnalyzer.words r in
       MorphologicalSentenceAnalyzer.totalWords st = Z.of_nat (length ws)
       /\ MorphologicalSentenceAnalyzer.analyzedWords st
          = Z.of_nat
              (length
                 (filter
                    (fun w => negb (PartOfSpeech_eqb (partOfSpeech w) Unknown))
                    ws))
       /\ MorphologicalSentenceAnalyzer.unknownWords st
          = Z.of_nat (occurrences Unknown ws)
       /\ (MorphologicalSentenceAnalyzer.analyzedWords st
           + MorphologicalSentenceAnalyzer.unknownWords st
           = MorphologicalSentenceAnalyzer.totalWords st)%Z
       /\ (forall tag,
             MorphologicalSentenceAnalyzer.getCount
               (MorphologicalSentenceAnalyzer.partOfSpeechCounts st) tag
             = if (occurrences tag ws =? 0)%nat then None
               else Some (Z.of_nat (occurrences tag ws)))
       /\ MorphologicalSentenceAnalyzer.averageConfidence st
          = doubleMean (confidencesOf ws).
Proof.
  apply (C6_sentence_statistics (js "Mi amas la belan hundon.") None).
  reflexivity.
Defined.

(** The claim as the specification words it fails on three words that
    each score 0.8: the sum of the three in doubles is above 2.4, and the
    average that is returned, 0.8000000000000002, is not 0.8, the mean
    of three scores of 0.8.  Likewise for scores of 0.5, 0.8 and 0.8,
    where 0.7000000000000001 is returned. *)
Theorem C6_mean_counterexample :
  (exists r,
     MorphologicalSentenceAnalyzer.analyzeSentence
       MorphologicalSentenceAnalyzer.new (JString (js "Hundo kuras rapide."))
       None = Ok r
     /\ confidencesOf (MorphologicalSentenceAnalyzer.words r)
        = [0.5 + 0.3; 0.5 + 0.3; 0.5 + 0.3]
     /\ map toDouble (confidencesOf (MorphologicalSentenceAnalyzer.words r))
        = [S754_finite false 7205759403792794 (-53);
           S754_finite false 7205759403792794 (-53);
           S754_finite false 7205759403792794 (-53)]
     /\ mean (confidencesOf (MorphologicalSentenceAnalyzer.words r)) == 0.8
     /\ toDouble (mean (confidencesOf (MorphologicalSentenceAnalyzer.words r)))
        = S754_finite false 7205759403792794 (-53)
     /\ MorphologicalSentenceAnalyzer.averageConfidence
          (MorphologicalSentenceAnalyzer.statistics r)
        = S754_finite false 7205759403792795 (-53)
     /\ MorphologicalSentenceAnalyzer.averageConfidence
          (MorphologicalSentenceAnalyzer.statistics r)
        <> toDouble
             (mean (confidencesOf (MorphologicalSentenceAnalyzer.words r))))
  /\ (exists r,
        MorphologicalSentenceAnalyzer.analyzeSentence
          MorphologicalSentenceAnalyzer.new (JString (js "Mi kuras rapide."))
          None = Ok r
        /\ confidencesOf (MorphologicalSentenceAnalyzer.words r)
           = [0.5; 0.5 + 0.3; 0.5 + 0.3]
        /\ mean (confidencesOf (MorphologicalSentenceAnalyzer.words r)) == 0.7
        /\ toDouble
             (mean (confidencesOf (MorphologicalSentenceAnalyzer.words r)))
           = S754_finite false 6305039478318694 (-53)
        /\ MorphologicalSentenceAnalyzer.averageConfidence
             (MorphologicalSentenceAnalyzer.statistics r)
           = S754_finite false 6305039478318695 (-53)
        /\ MorphologicalSentenceAnalyzer.averageConfidence
             (MorphologicalSentenceAnalyzer.statistics r)
           <> toDouble
                (mean
                   (confidencesOf (MorphologicalSentenceAnalyzer.words r)))).
Proof.
  split.
  - eexists. split; [vm_compute; reflexivity|].
    split; [vm_compute; reflexivity|].
    split; [vm_compute; reflexivity|].
    split; [apply Qeq_bool_iff; vm_compute; reflexivity|].
    split; [vm_compute; reflexivity|].
    split; [vm_compute; reflexivity|].
    vm_compute. discriminate.
  - eexists. split; [vm_compute; reflexivity|].
    split; [vm_compute; reflexivity|].
    split; [apply Qeq_bool_iff; vm_compute; reflexivity|].
    split; [vm_compute; reflexivity|].
    split; [vm_compute; reflexivity|].
    vm_compute. discriminate.
Qed.

(** ** The casing of the words of a sentence *)

(** The tokens have no white space in them and are not empty. *)
Lemma splitWhitespace_noSpace : forall s cur,
  noSpace cur = true ->
  Forall (fun t => noSpace t = true)
    (MorphologicalSentenceAnalyzer.splitWhitespace cur s).
Proof.
  induction s as [|c s IH]; intros cur Hcur; simpl.
  - constructor; [|constructor]. now apply forallb_rev.
  - destruct (isWhiteSpace c) eqn:Ec.
    + destruct s as [|c' s'].
      * repeat constructor. now apply forallb_rev.
      * destruct (isWhiteSpace c').
        -- now apply IH.
        -- constructor; [now apply forallb_rev | now apply IH].
    + apply IH. unfold noSpace. simpl. rewrite Ec. exact Hcur.
Qed.

Lemma tokenize_tokens : forall sentence token,
  In token (MorphologicalSentenceAnalyzer.tokenize sentence) ->
  noSpace token = true /\ isEmpty token = false.
Proof.
  intros sentence token H. unfold MorphologicalSentenceAnalyzer.tokenize in H.
  apply filter_In in H. destruct H as [H _].
  apply filter_In in H. destruct H as [H Hlen].
  split.
  - pose proof (splitWhitespace_noSpace
                  (trim (MorphologicalSentenceAnalyzer.collapseWhitespace
                           (MorphologicalSentenceAnalyzer.spacePunctuation
                              sentence))) [] eq_refl) as Hall.
    rewrite Forall_forall in Hall. now apply Hall.
  - destruct token; [discriminate Hlen | reflexivity].
Qed.

Lemma trim_noSpace : forall w, noSpace w = true -> trim w = w.
Proof.
  assert (Hstart : forall w, noSpace w = true -> trimStart w = w).
  { intros [|c w] H; [reflexivity|]. unfold noSpace in H. simpl in H.
    apply andb_true_iff in H. destruct H as [Hc _].
    apply trimStart_head. now destruct (isWhiteSpace c). }
  intros w H. unfold trim. rewrite (Hstart w H).
  rewrite (Hstart (rev w)) by (now apply forallb_rev).
  apply rev_involutive.
Qed.

Lemma analyze_word : forall this w options,
  isEmpty (trim w) = false ->
  exists r, MorphologicalAnalyzer.analyze this (JString w) options = Ok r
            /\ word r = trim w.
Proof.
  intros this w options H.
  destruct (analyze_cases this w options H) as [Hc|Hc].
  - eexists. split; [exact Hc | reflexivity].
  - destruct Hc as [best [rest [morph [inst [_ [_ [_ Hc]]]]]]].
    eexists. split; [exact Hc | reflexivity].
Qed.

Lemma collectResults_word : forall l w options r,
  In r (MorphologicalAnalyzer.collectResults l w options) -> word r = w.
Proof.
  induction l as [|a l IH]; simpl; intros w options r H; [contradiction|].
  destruct (Analyzer.match_ a w) as [[|]|e]; try (now apply (IH w options)).
  destruct (MorphologicalAnalyzer.buildResult a _ w options [])
    as [r0|e] eqn:Eb; [|now apply (IH w options)].
  destruct H as [<-|H]; [|now apply (IH w options)].
  unfold MorphologicalAnalyzer.buildResult, bind in Eb.
  destruct (Analyzer.extractMorphology a w options); [|discriminate Eb].
  destruct (createWord _ w); [|discriminate Eb].
  injection Eb as <-. reflexivity.
Qed.

(** A token is analyzed without an exception, and the word of its result
    is the token itself. *)
Lemma analyzeToken_word : forall this analysisOptions token,
  noSpace token = true -> isEmpty token = false ->
  exists r,
    MorphologicalSentenceAnalyzer.analyzeToken this analysisOptions token = Ok r
    /\ word r = token.
Proof.
  intros this o token Hns Hne.
  pose proof (trim_noSpace token Hns) as Htrim.
  assert (Het : isEmpty (trim token) = false) by now rewrite Htrim.
  destruct (analyze_word (MorphologicalSentenceAnalyzer.wordAnalyzer this)
              token None Het) as [r1 [Hr1 Hw1]].
  rewrite Htrim in Hw1.
  unfold MorphologicalSentenceAnalyzer.analyzeToken, bind.
  assert (Hfirst : exists r0,
    (if MorphologicalSentenceAnalyzer.m_includeAlternatives o
     then
       match
         MorphologicalAnalyzer.analyzeAll
           (MorphologicalSentenceAnalyzer.wordAnalyzer this) (JString token)
           None
       with
       | Ok allAnalyses =>
           match allAnalyses with
           | fullResult :: _ =>
               Ok (mkAnalysisResult (word fullResult)
                     (partOfSpeech fullResult) (morphology fullResult)
                     (wordInstance fullResult) (confidence fullResult)
                     (array_slice 1
                        (MorphologicalSentenceAnalyzer.m_maxAlternatives o + 1)
                        allAnalyses)
                     (analyzer fullResult))
           | [] =>
               MorphologicalAnalyzer.analyze
                 (MorphologicalSentenceAnalyzer.wordAnalyzer this)
                 (JString token) None
           end
       | Throw e => Throw e
       end
     else
       MorphologicalAnalyzer.analyze
         (MorphologicalSentenceAnalyzer.wordAnalyzer this) (JString token)
         None) = Ok r0 /\ word r0 = token).
  { destruct (MorphologicalSentenceAnalyzer.m_includeAlternatives o);
      [|exists r1; auto].
    unfold MorphologicalAnalyzer.analyzeAll. rewrite Hne, Het.
    destruct (sort_desc _ _) as [|fullResult others] eqn:Es;
      [exists r1; auto|].
    eexists. split; [reflexivity|]. cbn [word].
    assert (Hin : In fullResult (fullResult :: others)) by now left.
    rewrite <- Es in Hin. apply sort_desc_In in Hin.
    apply collectResults_word in Hin. now rewrite Hin. }
  destruct Hfirst as [r0 [Hr0 Hw0]]. rewrite Hr0.
  eexists. split; [reflexivity|].
  destruct r0 as [w0 p0 m0 i0 c0 a0 n0]. cbn [word] in Hw0. subst w0.
  destruct (MorphologicalSentenceAnalyzer.m_includeConfidence o),
    (MorphologicalSentenceAnalyzer.m_includeMorphology o),
    (MorphologicalSentenceAnalyzer.m_includeAlternatives o),
    (MorphologicalSentenceAnalyzer.m_preserveCase o); reflexivity.
Qed.

(** Whatever the options are, [preserveCase] included, the words of the
    results are the tokens as they were written. *)
Lemma words_are_tokens : forall this sentence options,
  isEmpty (trim sentence) = false ->
  exists r,
    MorphologicalSentenceAnalyzer.analyzeSentence this (JString sentence)
      options = Ok r
    /\ map word (MorphologicalSentenceAnalyzer.words r)
       = MorphologicalSentenceAnalyzer.tokenize (trim sentence).
Proof.
  intros this sentence options H.
  unfold MorphologicalSentenceAnalyzer.analyzeSentence.
  rewrite (trim_nonempty sentence H), H.
  eexists. split; [reflexivity|]. cbn [MorphologicalSentenceAnalyzer.words].
  unfold MorphologicalSentenceAnalyzer.analyzeTokens.
  rewrite map_map.
  rewrite <- (map_id (MorphologicalSentenceAnalyzer.tokenize (trim sentence)))
    at 2.
  apply map_ext_in. intros token Hin.
  destruct (tokenize_tokens _ _ Hin) as [Hns Hne].
  destruct (analyzeToken_word this
              (MorphologicalSentenceAnalyzer.mergeOptions
                 (MorphologicalSentenceAnalyzer.orDefault options
                    MorphologicalSentenceAnalyzer.noOptions))
              token Hns Hne) as [r [Hr Hw]].
  now rewrite Hr.
Qed.

(** C9 at [Mi amas vin.]: without [preserveCase], and with it set to
    false, the word of the first result is [Mi], the token as it was
    written; its lower-cased form is [mi].  Setting [preserveCase] changes
    nothing. *)
Theorem C9_preserveCase_failing_input :
  let wordsWith preserve :=
    match
      MorphologicalSentenceAnalyzer.analyzeSentence
        MorphologicalSentenceAnalyzer.new (JString (js "Mi amas vin."))
        (Some (MorphologicalSentenceAnalyzer.mkSentenceOptions None None None
                 None preserve))
    with
    | Ok r => Some (map word (MorphologicalSentenceAnalyzer.words r))
    | Throw _ => None
    end in
  wordsWith None = Some (map js ["Mi"; "amas"; "vin"]%string)
  /\ wordsWith (Some false) = Some (map js ["Mi"; "amas"; "vin"]%string)
  /\ wordsWith (Some true) = Some (map js ["Mi"; "amas"; "vin"]%string)
  /\ map toLowerCase
       (MorphologicalSentenceAnalyzer.tokenize (js "Mi amas vin."))
     = map js ["mi"; "amas"; "vin"]%string
  /\ js "Mi" <> js "mi".
Proof.
  cbv zeta. repeat apply conj; try (vm_compute; reflexivity).
  vm_compute. discriminate.
Qed.

(** * Further properties of the code *)

(** ** Trimming *)

Lemma trimStart_split : forall s,
  exists p, s = p ++ trimStart s /\ forallb isWhiteSpace p = true.
Proof.
  induction s as [|c s IH]; [exists []; auto|]. simpl.
  destruct (isWhiteSpace c) eqn:E.
  - destruct IH as [p [Hp Hw]]. exists (c :: p). simpl.
    rewrite E, Hw. split; [now f_equal | reflexivity].
  - exists []. auto.
Qed.

Lemma trimStart_first : forall s c t,
  trimStart s = c :: t -> isWhiteSpace c = false.
Proof.
  induction s as [|d s IH]; intros c t H; [discriminate H|]. simpl in H.
  destruct (isWhiteSpace d) eqn:E; [now apply (IH c t)|].
  injection H as <- _. exact E.
Qed.

(** A trimmed string neither starts nor ends with white space: trimming
    it again changes nothing. *)
Lemma trim_idempotent : forall s, trim (trim s) = trim s.
Proof.
  intro s.
  assert (E : trim s = rev (trimStart (rev (trimStart s)))) by reflexivity.
  destruct (trimStart (rev (trimStart s))) as [|c b] eqn:Eb; rewrite E;
    [reflexivity|].
  pose proof (trimStart_first _ _ _ Eb) as Hc.
  destruct (trimStart_split (rev (trimStart s))) as [p [Hp _]].
  rewrite Eb in Hp.
  assert (Ha : trimStart s = rev (c :: b) ++ rev p).
  { rewrite <- rev_app_distr, <- Hp. symmetry. apply rev_involutive. }
  destruct (rev (c :: b)) as [|d t] eqn:Er.
  { apply (f_equal (@length N)) in Er. rewrite length_rev in Er.
    discriminate Er. }
  simpl in Ha. pose proof (trimStart_first _ _ _ Ha) as Hd.
  unfold trim. rewrite (trimStart_head d t Hd).
  rewrite <- Er, rev_involutive, (trimStart_head c b Hc). reflexivity.
Qed.

(** X1: white space around the word is ignored by the three methods of
    the dispatcher: on a word that is not blank, each gives what it gives
    on the trimmed word. *)
Theorem X1_dispatcher_ignores_surrounding_space : forall this w options,
  isEmpty (trim w) = false ->
  MorphologicalAnalyzer.analyze this (JString w) options
  = MorphologicalAnalyzer.analyze this (JString (trim w)) options
  /\ MorphologicalAnalyzer.analyzeAll this (JString w) options
     = MorphologicalAnalyzer.analyzeAll this (JString (trim w)) options
  /\ MorphologicalAnalyzer.canAnalyze this (JString w)
     = MorphologicalAnalyzer.canAnalyze this (JString (trim w)).
Proof.
  intros this w options H.
  unfold MorphologicalAnalyzer.analyze, MorphologicalAnalyzer.analyzeAll,
    MorphologicalAnalyzer.canAnalyze.
  rewrite trim_idempotent, (trim_nonempty w H), H. auto.
Qed.

Lemma X1_dispatcher_space_witness :
  MorphologicalAnalyzer.analyze MorphologicalAnalyzer.new
    (JString (js "  domojn ")) None
  = MorphologicalAnalyzer.analyze MorphologicalAnalyzer.new
      (JString (trim (js "  domojn "))) None
  /\ MorphologicalAnalyzer.analyzeAll MorphologicalAnalyzer.new
       (JString (js "  domojn ")) None
     = MorphologicalAnalyzer.analyzeAll MorphologicalAnalyzer.new
         (JString (trim (js "  domojn "))) None
  /\ MorphologicalAnalyzer.canAnalyze MorphologicalAnalyzer.new
       (JString (js "  domojn "))
     = MorphologicalAnalyzer.canAnalyze MorphologicalAnalyzer.new
         (JString (trim (js "  domojn "))).
Proof.
  apply (X1_dispatcher_ignores_surrounding_space MorphologicalAnalyzer.new
           (js "  domojn ") None).
  reflexivity.
Defined.

(** ** Paragraphs *)

Lemma analyzeSentence_returns : forall this s options,
  isEmpty (trim s) = false ->
  exists r,
    MorphologicalSentenceAnalyzer.analyzeSentence this (JString s) options
    = Ok r
    /\ MorphologicalSentenceAnalyzer.originalSentence r = trim s.
Proof.
  intros this s options H.
  unfold MorphologicalSentenceAnalyzer.analyzeSentence.
  rewrite (trim_nonempty s H), H. eexists. split; reflexivity.
Qed.

Lemma splitIntoSentences_trimmed : forall paragraph s,
  In s (MorphologicalSentenceAnalyzer.splitIntoSentences paragraph) ->
  trim s = s /\ isEmpty s = false.
Proof.
  intros paragraph s H.
  unfold MorphologicalSentenceAnalyzer.splitIntoSentences in H.
  apply filter_In in H. destruct H as [H Hlen].
  apply in_map_iff in H. destruct H as [x [<- _]]. split.
  - apply trim_idempotent.
  - destruct (trim x); [discriminate Hlen | reflexivity].
Qed.

Lemma analyzeSentences_returns : forall this options sentences,
  (forall s, In s sentences -> trim s = s /\ isEmpty s = false) ->
  exists rs,
    MorphologicalSentenceAnalyzer.analyzeSentences this sentences options
    = Ok rs
    /\ map MorphologicalSentenceAnalyzer.originalSentence rs = sentences.
Proof.
  intros this options. induction sentences as [|s rest IH]; intro H.
  - exists []. split; reflexivity.
  - destruct (H s (or_introl eq_refl)) as [Ht He].
    assert (Hs : isEmpty (trim s) = false) by now rewrite Ht.
    destruct (analyzeSentence_returns this s options Hs) as [r [Hr Ho]].
    destruct IH as [rs [Hrs Hmap]].
    { intros s' Hin. apply H. now right. }
    exists (r :: rs).
    cbn [MorphologicalSentenceAnalyzer.analyzeSentences]. unfold bind.
    rewrite Hr, Hrs.
    split; [reflexivity|]. cbn [map]. now rewrite Ho, Ht, Hmap.
Qed.

Lemma isTerminator_sentenceEnd : forall c,
  MorphologicalSentenceAnalyzer.isTerminator c = sentenceEnd c.
Proof.
  intro c. unfold MorphologicalSentenceAnalyzer.isTerminator, sentenceEnd.
  change (js ".!?") with [46; 33; 63]%N. cbn [existsb].
  now rewrite orb_false_r, orb_assoc.
Qed.

Lemma dropPrefix_app : forall p s, dropPrefix p (p ++ s) = Some s.
Proof.
  induction p as [|x p IH]; intro s; simpl; [reflexivity|].
  now rewrite N.eqb_refl.
Qed.

Lemma dropPrefix_Some : forall p s r, dropPrefix p s = Some r -> s = p ++ r.
Proof.
  induction p as [|x p IH]; intros s r H; simpl in H.
  - now injection H as ->.
  - destruct s as [|y s]; [discriminate H|].
    destruct (N.eqb_spec x y) as [->|]; [|discriminate H].
    simpl. f_equal. now apply IH.
Qed.

(** A stretch without marks that is followed by a mark, or by the end of
    the string, is known from the string. *)
Lemma stretch_unique : forall p q r1 r2,
  forallb (fun c => negb (sentenceEnd c)) p = true ->
  forallb (fun c => negb (sentenceEnd c)) q = true ->
  p ++ r1 = q ++ r2 ->
  match r1 with [] => True | c :: _ => sentenceEnd c = true end ->
  match r2 with [] => True | c :: _ => sentenceEnd c = true end ->
  p = q /\ r1 = r2.
Proof.
  induction p as [|x p IH]; intros q r1 r2 Hp Hq E H1 H2.
  - destruct q as [|y q]; [now split|]. simpl in E. subst r1.
    simpl in Hq. rewrite H1 in Hq. discriminate Hq.
  - destruct q as [|y q].
    + simpl in E. subst r2. simpl in Hp. rewrite H2 in Hp. discriminate Hp.
    + simpl in E. injection E as -> E. simpl in Hp, Hq.
      apply andb_true_iff in Hp. apply andb_true_iff in Hq.
      destruct (IH q r1 r2 (proj2 Hp) (proj2 Hq) E H1 H2) as [-> ->].
      now split.
Qed.

Lemma splitTerminators_cons : forall cur c s,
  MorphologicalSentenceAnalyzer.splitTerminators cur (c :: s)
  = if sentenceEnd c
    then
      match s with
      | [] => [rev cur; []]
      | c' :: _ =>
          if sentenceEnd c'
          then MorphologicalSentenceAnalyzer.splitTerminators cur s
          else rev cur :: MorphologicalSentenceAnalyzer.splitTerminators [] s
      end
    else MorphologicalSentenceAnalyzer.splitTerminators (c :: cur) s.
Proof.
  intros cur c s. rewrite <- isTerminator_sentenceEnd.
  destruct s as [|c' s]; [reflexivity|].
  rewrite <- (isTerminator_sentenceEnd c'). reflexivity.
Qed.

Lemma splitTerminators_letter : forall s c cur,
  sentenceEnd c = false ->
  MorphologicalSentenceAnalyzer.splitTerminators cur (c :: s)
  = MorphologicalSentenceAnalyzer.splitTerminators (c :: cur) s.
Proof.
  intros s c cur Hc. now rewrite splitTerminators_cons, Hc.
Qed.

Lemma splitTerminators_run : forall s c cur,
  sentenceEnd c = true ->
  MorphologicalSentenceAnalyzer.splitTerminators cur (c :: s)
  = rev cur
    :: MorphologicalSentenceAnalyzer.splitTerminators [] (dropSentenceEnds s).
Proof.
  induction s as [|c' s IH]; intros c cur Hc;
    rewrite splitTerminators_cons, Hc; [reflexivity|].
  cbn [dropSentenceEnds]. destruct (sentenceEnd c') eqn:Ec'; [|reflexivity].
  now apply IH.
Qed.

Lemma splitTerminators_nonempty : forall s cur,
  MorphologicalSentenceAnalyzer.splitTerminators cur s <> [].
Proof.
  induction s as [|c s IH]; intro cur; [discriminate|].
  destruct (sentenceEnd c) eqn:Ec.
  - rewrite (splitTerminators_run s c cur Ec). discriminate.
  - rewrite (splitTerminators_letter s c cur Ec). apply IH.
Qed.

Lemma dropSentenceEnds_length : forall s,
  (length (dropSentenceEnds s) <= length s)%nat.
Proof.
  induction s as [|c s IH]; simpl; [lia|].
  destruct (sentenceEnd c); simpl; lia.
Qed.

(** The split of the code is the one cut of the string at its runs of
    marks. *)
Lemma cut_is_split : forall n s cur pieces,
  (length s <= n)%nat ->
  forallb (fun c => negb (sentenceEnd c)) cur = true ->
  (cutAtSentenceEnds (rev cur ++ s) pieces = true
   <-> pieces = MorphologicalSentenceAnalyzer.splitTerminators cur s).
Proof.
  induction n as [|n IH]; intros s cur pieces Hn Hcur;
    assert (Hrev : forallb (fun c => negb (sentenceEnd c)) (rev cur) = true)
      by (now apply forallb_rev).
  - destruct s; [|simpl in Hn; lia]. rewrite app_nil_r. simpl. split.
    + intro H. destruct pieces as [|p rest]; [discriminate H|].
      cbn [cutAtSentenceEnds] in H. apply andb_true_iff in H.
      destruct H as [Hp H].
      destruct (dropPrefix p (rev cur)) as [r|] eqn:Ed; [|discriminate H].
      apply dropPrefix_Some in Ed.
      destruct rest as [|q rest].
      * destruct r; [|discriminate H]. rewrite app_nil_r in Ed. now subst.
      * destruct r as [|c r]; [discriminate H|].
        apply andb_true_iff in H. destruct H as [Hc _].
        rewrite Ed, forallb_app in Hrev. apply andb_true_iff in Hrev.
        destruct Hrev as [_ Hr]. simpl in Hr. rewrite Hc in Hr.
        discriminate Hr.
    + intros ->. cbn [cutAtSentenceEnds]. rewrite Hrev.
      rewrite <- (app_nil_r (rev cur)) at 2. now rewrite dropPrefix_app.
  - destruct s as [|c s].
    { apply (IH [] cur pieces); [simpl; lia | exact Hcur]. }
    simpl in Hn. destruct (sentenceEnd c) eqn:Ec.
    + rewrite (splitTerminators_run s c cur Ec).
      pose proof (dropSentenceEnds_length s) as Hlen.
      pose proof (IH (dropSentenceEnds s) []) as IH'. simpl in IH'.
      split.
      * intro H. destruct pieces as [|p rest]; [discriminate H|].
        cbn [cutAtSentenceEnds] in H. apply andb_true_iff in H.
        destruct H as [Hp H].
        destruct (dropPrefix p (rev cur ++ c :: s)) as [r|] eqn:Ed;
          [|discriminate H].
        apply dropPrefix_Some in Ed.
        assert (Hr : match r with
                     | [] => True
                     | c0 :: _ => sentenceEnd c0 = true
                     end).
        { destruct rest; destruct r as [|c0 r]; try exact I;
            try discriminate H.
          now apply andb_true_iff in H. }
        destruct (stretch_unique (rev cur) p (c :: s) r Hrev Hp Ed Ec Hr)
          as [<- <-].
        destruct rest as [|q rest]; [discriminate H|].
        apply andb_true_iff in H. destruct H as [_ H].
        cbn [dropSentenceEnds] in H. rewrite Ec in H.
        f_equal. apply IH'; [lia | reflexivity | exact H].
      * intros ->. cbn [cutAtSentenceEnds]. rewrite Hrev, dropPrefix_app.
        destruct (MorphologicalSentenceAnalyzer.splitTerminators []
                    (dropSentenceEnds s)) as [|q rest] eqn:Es.
        { now apply splitTerminators_nonempty in Es. }
        rewrite Ec. cbn [dropSentenceEnds andb]. rewrite Ec.
        apply IH'; [lia | reflexivity | reflexivity].
    + rewrite (splitTerminators_letter s c cur Ec).
      replace (rev cur ++ c :: s) with (rev (c :: cur) ++ s)
        by (simpl; now rewrite <- app_assoc).
      apply IH; [lia|]. simpl. now rewrite Ec, Hcur.
Qed.

(** X2: [analyzeParagraph] returns on every string that is not empty,
    white space alone included (where [analyzeSentence] throws).  The
    string has a cut at its runs of [.], [!] and [?], and whatever that
    cut is, the results are, in order, those of its pieces that are not
    empty once trimmed, each under its trimmed text. *)
Theorem X2_analyzeParagraph_returns : forall this paragraph options,
  isEmpty paragraph = false ->
  exists rs,
    MorphologicalSentenceAnalyzer.analyzeParagraph this (JString paragraph)
      options = Ok rs
    /\ (exists pieces, cutAtSentenceEnds paragraph pieces = true)
    /\ (forall pieces,
          cutAtSentenceEnds paragraph pieces = true ->
          map MorphologicalSentenceAnalyzer.originalSentence rs
          = filter (fun s => negb (isEmpty s)) (map trim pieces)).
Proof.
  intros this paragraph options H.
  unfold MorphologicalSentenceAnalyzer.analyzeParagraph. rewrite H.
  destruct (analyzeSentences_returns this options
              (MorphologicalSentenceAnalyzer.splitIntoSentences paragraph)
              (splitIntoSentences_trimmed paragraph)) as [rs [Hrs Hmap]].
  exists rs. split; [exact Hrs|].
  pose proof (cut_is_split (length paragraph) paragraph [])
    as Hcut. cbn [rev app] in Hcut.
  split.
  - exists (MorphologicalSentenceAnalyzer.splitTerminators [] paragraph).
    now apply Hcut.
  - intros pieces Hp.
    apply Hcut in Hp; [|apply Nat.le_refl | reflexivity].
    rewrite Hmap, Hp.
    unfold MorphologicalSentenceAnalyzer.splitIntoSentences.
    apply filter_ext. intros [|c s]; reflexivity.
Qed.

Lemma X2_analyzeParagraph_witness :
  (exists rs,
     MorphologicalSentenceAnalyzer.analyzeParagraph
       MorphologicalSentenceAnalyzer.new (JString (js "   ")) None = Ok rs
     /\ map MorphologicalSentenceAnalyzer.originalSentence rs = [])
  /\ (exists rs,
        MorphologicalSentenceAnalyzer.analyzeParagraph
          MorphologicalSentenceAnalyzer.new
          (JString (js "Mi amas vin. Cxu vi venos?! ...Jes")) None = Ok rs
        /\ map MorphologicalSentenceAnalyzer.originalSentence rs
           = map js ["Mi amas vin"; "Cxu vi venos"; "Jes"]%string).
Proof.
  split.
  - destruct (X2_analyzeParagraph_returns MorphologicalSentenceAnalyzer.new
                (js "   ") None eq_refl) as [rs [Hrs [_ Hcut]]].
    exists rs. split; [exact Hrs|].
    exact (Hcut [js "   "] eq_refl).
  - destruct (X2_analyzeParagraph_returns MorphologicalSentenceAnalyzer.new
                (js "Mi amas vin. Cxu vi venos?! ...Jes") None eq_refl)
      as [rs [Hrs [_ Hcut]]].
    exists rs. split; [exact Hrs|].
    exact (Hcut (map js ["Mi amas vin"; " Cxu vi venos"; " "; "Jes"]%string)
             eq_refl).
Defined.

(** ** Tokens *)

Lemma punctuation_not_space : forall c,
  MorphologicalSentenceAnalyzer.isPunctuation c = true ->
  isWhiteSpace c = false.
Proof.
  intros c H. unfold MorphologicalSentenceAnalyzer.isPunctuation in H.
  apply existsb_exists in H. destruct H as [y [Hy He]].
  apply N.eqb_eq in He. subst y. vm_compute in Hy.
  repeat (destruct Hy as [Hy|Hy]; [subst c; reflexivity|]). contradiction.
Qed.

Lemma isolated_true : forall s b, isolated b s = true -> isolated true s = true.
Proof.
  intros [|c s] b H; [reflexivity|]. simpl in *.
  destruct (MorphologicalSentenceAnalyzer.isPunctuation c); [|exact H].
  apply andb_true_iff in H. destruct H as [H H3].
  apply andb_true_iff in H. destruct H as [_ H2].
  now rewrite H2, H3.
Qed.

Lemma isolated_spacePunctuation : forall s b,
  isolated b (MorphologicalSentenceAnalyzer.spacePunctuation s) = true.
Proof.
  unfold MorphologicalSentenceAnalyzer.spacePunctuation.
  induction s as [|c s IH]; intro b; [reflexivity|]. cbn [flat_map].
  destruct (MorphologicalSentenceAnalyzer.isPunctuation c) eqn:E.
  - cbn [app isolated nextIsSpace]. rewrite E.
    change (MorphologicalSentenceAnalyzer.isPunctuation 32) with false.
    change (isWhiteSpace 32) with true. cbn [andb]. apply IH.
  - cbn [app isolated]. rewrite E. apply IH.
Qed.

Lemma nextIsSpace_collapse : forall s,
  nextIsSpace s = true ->
  nextIsSpace (MorphologicalSentenceAnalyzer.collapseFrom false s) = true.
Proof.
  intros [|d s] H; [reflexivity|]. simpl in *. now rewrite H.
Qed.

Lemma isolated_collapse : forall s b inRun,
  isolated b s = true ->
  isolated (b || inRun) (MorphologicalSentenceAnalyzer.collapseFrom inRun s)
  = true.
Proof.
  induction s as [|c s IH]; intros b inRun H; [reflexivity|].
  cbn [MorphologicalSentenceAnalyzer.collapseFrom]. cbn [isolated] in H.
  destruct (isWhiteSpace c) eqn:Ew.
  - destruct (MorphologicalSentenceAnalyzer.isPunctuation c) eqn:Ep.
    { apply punctuation_not_space in Ep. congruence. }
    destruct inRun.
    + rewrite orb_true_r. apply (IH true true H).
    + cbn [isolated].
      change (MorphologicalSentenceAnalyzer.isPunctuation 32) with false.
      change (isWhiteSpace 32) with true. apply (IH true true H).
  - cbn [isolated].
    destruct (MorphologicalSentenceAnalyzer.isPunctuation c) eqn:Ep.
    + apply andb_true_iff in H. destruct H as [H H3].
      apply andb_true_iff in H. destruct H as [H1 H2].
      rewrite H1, (nextIsSpace_collapse s H2). cbn [orb andb].
      apply (IH false false H3).
    + rewrite Ew. apply (IH false false H).
Qed.

Lemma isolated_trimStart : forall s b,
  isolated b s = true -> isolated true (trimStart s) = true.
Proof.
  induction s as [|c s IH]; intros b H; [reflexivity|]. simpl trimStart.
  destruct (isWhiteSpace c) eqn:Ew.
  - cbn [isolated] in H.
    destruct (MorphologicalSentenceAnalyzer.isPunctuation c) eqn:Ep.
    { apply punctuation_not_space in Ep. congruence. }
    rewrite Ew in H. now apply (IH true).
  - now apply (isolated_true _ b).
Qed.

Lemma isolated_without_tail : forall t ws b,
  forallb isWhiteSpace ws = true ->
  isolated b (t ++ ws) = true -> isolated b t = true.
Proof.
  induction t as [|c t IH]; intros ws b Hws H; [reflexivity|].
  cbn [app isolated] in *.
  destruct (MorphologicalSentenceAnalyzer.isPunctuation c).
  - apply andb_true_iff in H. destruct H as [H H3].
    apply andb_true_iff in H. destruct H as [H1 H2].
    rewrite H1, (IH ws false Hws H3).
    destruct t as [|d t]; [reflexivity|]. simpl in H2 |- *. now rewrite H2.
  - now apply (IH ws).
Qed.

Lemma trimStart_trim : forall s,
  exists ws, trimStart s = trim s ++ ws /\ forallb isWhiteSpace ws = true.
Proof.
  intro s. destruct (trimStart_split (rev (trimStart s))) as [p [Hp Hw]].
  exists (rev p). split; [|now apply forallb_rev].
  unfold trim. rewrite <- rev_app_distr, <- Hp. symmetry.
  apply rev_involutive.
Qed.

Lemma isolated_trim : forall s b,
  isolated b s = true -> isolated true (trim s) = true.
Proof.
  intros s b H. destruct (trimStart_trim s) as [ws [Hs Hw]].
  apply (isolated_without_tail _ ws true Hw). rewrite <- Hs.
  now apply (isolated_trimStart s b).
Qed.

Lemma noPunctuation_rev : forall t, noPunctuation (rev t) = noPunctuation t.
Proof.
  intro t. unfold noPunctuation.
  destruct (forallb _ t) eqn:E.
  - now apply forallb_rev.
  - destruct (forallb _ (rev t)) eqn:E'; [|reflexivity].
    apply forallb_rev in E'. rewrite rev_involutive in E'. congruence.
Qed.

Lemma goodPiece_rev : forall t, goodPiece t = true -> goodPiece (rev t) = true.
Proof.
  intros t H. unfold goodPiece in *. rewrite noPunctuation_rev.
  destruct (noPunctuation t); [reflexivity|]. simpl in H |- *.
  destruct t as [|p [|q t]]; try discriminate H. exact H.
Qed.

(** The pieces of a string whose punctuation marks stand alone. *)
Lemma splitWhitespace_pieces : forall s cur b,
  isolated b s = true ->
  goodPiece cur = true ->
  match s with
  | c :: _ =>
      isWhiteSpace c = false ->
      noPunctuation cur = true
      /\ (MorphologicalSentenceAnalyzer.isPunctuation c = true -> cur = [])
  | [] => True
  end ->
  Forall (fun t => goodPiece t = true)
    (MorphologicalSentenceAnalyzer.splitWhitespace cur s).
Proof.
  induction s as [|c s IH]; intros cur b Hiso Hcur Hnext.
  - simpl. constructor; [now apply goodPiece_rev | constructor].
  - cbn [MorphologicalSentenceAnalyzer.splitWhitespace].
    cbn [isolated] in Hiso.
    destruct (isWhiteSpace c) eqn:Ew.
    + destruct (MorphologicalSentenceAnalyzer.isPunctuation c) eqn:Ep.
      { apply punctuation_not_space in Ep. congruence. }
      destruct s as [|c' s'].
      * constructor; [now apply goodPiece_rev|]. constructor; [reflexivity|].
        constructor.
      * destruct (isWhiteSpace c') eqn:Ew'.
        -- apply (IH cur true Hiso Hcur). intro Hf. congruence.
        -- constructor; [now apply goodPiece_rev|].
           apply (IH [] true Hiso eq_refl). intros _. split; auto.
    + destruct (Hnext eq_refl) as [Hnp Hp].
      assert (Hiso' : isolated false s = true).
      { destruct (MorphologicalSentenceAnalyzer.isPunctuation c).
        - apply andb_true_iff in Hiso. now destruct Hiso.
        - exact Hiso. }
      apply (IH (c :: cur) false Hiso').
      * unfold goodPiece, noPunctuation. cbn [forallb].
        destruct (MorphologicalSentenceAnalyzer.isPunctuation c) eqn:Ep.
        -- rewrite (Hp eq_refl). simpl. reflexivity.
        -- cbn [negb andb]. unfold noPunctuation in Hnp. now rewrite Hnp.
      * destruct s as [|d s']; [exact I|]. intro Hd.
        destruct (MorphologicalSentenceAnalyzer.isPunctuation c) eqn:Ep.
        -- apply andb_true_iff in Hiso. destruct Hiso as [Hiso _].
           apply andb_true_iff in Hiso. destruct Hiso as [_ Hn].
           simpl in Hn. congruence.
        -- split.
           ++ unfold noPunctuation in *. cbn [forallb]. now rewrite Ep, Hnp.
           ++ intro Hpd. cbn [isolated] in Hiso'. rewrite Hpd in Hiso'.
              discriminate Hiso'.
Qed.

Lemma tokenize_noPunctuation : forall sentence token,
  In token (MorphologicalSentenceAnalyzer.tokenize sentence) ->
  noPunctuation token = true.
Proof.
  intros sentence token H.
  unfold MorphologicalSentenceAnalyzer.tokenize in H.
  apply filter_In in H. destruct H as [H Hpure].
  apply filter_In in H. destruct H as [H _].
  assert (Hgood : goodPiece token = true).
  { pose proof (splitWhitespace_pieces
                  (trim (MorphologicalSentenceAnalyzer.collapseWhitespace
                           (MorphologicalSentenceAnalyzer.spacePunctuation
                              sentence)))
                  [] true) as Hall.
    rewrite Forall_forall in Hall. apply Hall; try assumption.
    - apply (isolated_trim _ (true || false)).
      apply isolated_collapse. apply isolated_spacePunctuation.
    - reflexivity.
    - destruct (trim _); [exact I|]. intros _. split; auto. }
  unfold goodPiece in Hgood. destruct (noPunctuation token); [reflexivity|].
  simpl in Hgood. destruct token as [|p [|q t]]; try discriminate Hgood.
  simpl in Hpure. rewrite Hgood in Hpure. discriminate Hpure.
Qed.

(** X3: a token is never empty and holds neither white space nor any of
    the marks [. ! ? ; : ,]: the tokenizer sets every mark apart and then
    drops it. *)
Theorem X3_tokens_are_clean : forall sentence token,
  In token (MorphologicalSentenceAnalyzer.tokenize sentence) ->
  isEmpty token = false
  /\ noSpace token = true
  /\ noPunctuation token = true.
Proof.
  intros sentence token H.
  destruct (tokenize_tokens sentence token H) as [Hns Hne].
  split; [exact Hne|]. split; [exact Hns|].
  exact (tokenize_noPunctuation sentence token H).
Qed.

Lemma X3_tokens_witness :
  isEmpty (js "domo") = false
  /\ noSpace (js "domo") = true
  /\ noPunctuation (js "domo") = true.
Proof.
  apply (X3_tokens_are_clean (js "Ho! La domo, kaj   vi...") (js "domo")).
  vm_compute. auto.
Defined.

(** X4: on a sentence that is not blank [analyzeSentence] returns, with
    the trimmed sentence, one result for each token, in order, whose word
    is the token as written; the count of words is the count of tokens.
    The [catch] of the loop is never entered. *)
Theorem X4_one_result_per_token : forall this sentence options,
  isEmpty (trim sentence) = false ->
  exists r,
    MorphologicalSentenceAnalyzer.analyzeSentence this (JString sentence)
      options = Ok r
    /\ MorphologicalSentenceAnalyzer.originalSentence r = trim sentence
    /\ map word (MorphologicalSentenceAnalyzer.words r)
       = MorphologicalSentenceAnalyzer.tokenize (trim sentence)
    /\ MorphologicalSentenceAnalyzer.totalWords
         (MorphologicalSentenceAnalyzer.statistics r)
       = Z.of_nat
           (length (MorphologicalSentenceAnalyzer.tokenize (trim sentence))).
Proof.
  intros this sentence options H.
  destruct (words_are_tokens this sentence options H) as [r [Hr Hw]].
  exists r. split; [exact Hr|].
  unfold MorphologicalSentenceAnalyzer.analyzeSentence in Hr.
  rewrite (trim_nonempty sentence H), H in Hr. injection Hr as Hr.
  rewrite <- Hw. subst r.
  cbn [MorphologicalSentenceAnalyzer.originalSentence
       MorphologicalSentenceAnalyzer.words
       MorphologicalSentenceAnalyzer.statistics].
  split; [reflexivity|]. split; [reflexivity|].
  unfold MorphologicalSentenceAnalyzer.calculateStatistics.
  cbn [MorphologicalSentenceAnalyzer.totalWords].
  now rewrite length_map.
Qed.

Lemma X4_token_results_witness :
  exists r,
    MorphologicalSentenceAnalyzer.analyzeSentence
      MorphologicalSentenceAnalyzer.new (JString (js " Mi amas vin. ")) None
    = Ok r
    /\ MorphologicalSentenceAnalyzer.originalSentence r
       = trim (js " Mi amas vin. ")
    /\ map word (MorphologicalSentenceAnalyzer.words r)
       = MorphologicalSentenceAnalyzer.tokenize (trim (js " Mi amas vin. "))
    /\ MorphologicalSentenceAnalyzer.totalWords
         (MorphologicalSentenceAnalyzer.statistics r)
       = Z.of_nat
           (length
              (MorphologicalSentenceAnalyzer.tokenize
                 (trim (js " Mi amas vin. ")))).
Proof.
  apply (X4_one_result_per_token MorphologicalSentenceAnalyzer.new
           (js " Mi amas vin. ") None).
  reflexivity.
Defined.

(** ** Interjections inside a sentence *)

Lemma lowerUnit_no_bang : forall c,
  c <> 33%N -> existsb (N.eqb 33) (lowerUnit c) = false.
Proof.
  intros c H. unfold lowerUnit.
  destruct (isAsciiCapital c) eqn:E1.
  { unfold isAsciiCapital in E1. apply andb_true_iff in E1.
    destruct E1 as [E1 _]. apply N.leb_le in E1. cbn [existsb].
    rewrite orb_false_r. apply N.eqb_neq. lia. }
  destruct (isEsperantoCapital c) eqn:E2.
  { unfold isEsperantoCapital in E2. apply existsb_exists in E2.
    destruct E2 as [y [Hy He]]. apply N.eqb_eq in He. subst y.
    simpl in Hy.
    repeat (destruct Hy as [Hy|Hy]; [subst c; reflexivity|]). contradiction. }
  destruct (c =? 8490)%N; [reflexivity|].
  destruct (c =? 304)%N; [reflexivity|].
  cbn [existsb]. rewrite orb_false_r. apply N.eqb_neq. congruence.
Qed.

Lemma toLowerCase_no_bang : forall t,
  noPunctuation t = true -> existsb (N.eqb 33) (toLowerCase t) = false.
Proof.
  induction t as [|c t IH]; intro H; [reflexivity|].
  unfold noPunctuation in H. simpl in H. apply andb_true_iff in H.
  destruct H as [Hc Ht]. unfold toLowerCase. simpl. rewrite existsb_app.
  fold (toLowerCase t). rewrite (IH Ht), orb_false_r.
  apply lowerUnit_no_bang. intro E. subst c. discriminate Hc.
Qed.

Lemma lower_jen_spellings : forall w,
  toLowerCase w = js "jen" -> In w jenSpellings.
Proof.
  intros w H. unfold toLowerCase in H.
  destruct w as [|c1 w]; [discriminate H|]. simpl in H.
  destruct (lowerUnit_shape c1) as [E1|[x1 E1]]; rewrite E1 in H;
    [discriminate H|].
  destruct w as [|c2 w]; [discriminate H|]. simpl in H.
  destruct (lowerUnit_shape c2) as [E2|[x2 E2]]; rewrite E2 in H;
    [discriminate H|].
  destruct w as [|c3 w]; [discriminate H|]. simpl in H.
  destruct (lowerUnit_shape c3) as [E3|[x3 E3]]; rewrite E3 in H;
    [discriminate H|].
  destruct w as [|c4 w].
  - simpl in H. injection H as H1 H2 H3. subst x1 x2 x3.
    destruct (lowerUnit_small c1 _ E1) as [->| ->]; [lia|discriminate| |];
      (destruct (lowerUnit_small c2 _ E2) as [->| ->]; [lia|discriminate| |]);
      (destruct (lowerUnit_small c3 _ E3) as [->| ->]; [lia|discriminate| |]);
      unfold jenSpellings; simpl; auto 10.
  - simpl in H.
    destruct (lowerUnit_shape c4) as [E4|[x4 E4]]; rewrite E4 in H;
      discriminate H.
Qed.

(** Without its exclamation mark no interjection is left but [jen]. *)
Lemma interjection_in_token : forall t,
  noPunctuation t = true ->
  InterjectionMorphologicalAnalyzer.match_ t = true ->
  In t jenSpellings.
Proof.
  intros t Hnp H. apply lower_jen_spellings.
  pose proof (toLowerCase_no_bang t Hnp) as Hbang.
  unfold InterjectionMorphologicalAnalyzer.match_ in H.
  apply existsb_exists in H. destruct H as [i [Hi He]].
  apply str_eqb_eq in He. rewrite <- He in Hbang |- *.
  unfold InterjectionMorphologicalAnalyzer.INTERJECTIONS in Hi.
  simpl in Hi.
  repeat (destruct Hi as [Hi|Hi];
          [subst i; first [reflexivity | discriminate Hbang]|]).
  contradiction.
Qed.

Lemma interjection_analyzer_unique : forall a,
  In a ALL_MORPHOLOGICAL_ANALYZERS ->
  Analyzer.partOfSpeech a = Interjection ->
  a = InterjectionMorphologicalAnalyzer.new.
Proof.
  intros a H Ht. each_analyzer H; simpl in Ht; try discriminate Ht.
  reflexivity.
Qed.

Lemma analyze_never_interjection : forall token r,
  noPunctuation token = true -> noSpace token = true ->
  MorphologicalAnalyzer.analyze MorphologicalAnalyzer.new (JString token) None
  = Ok r ->
  partOfSpeech r <> Interjection.
Proof.
  intros token r Hnp Hns H Htag.
  pose proof (trim_noSpace token Hns) as Htrim.
  destruct (isEmpty (trim token)) eqn:Et.
  { unfold MorphologicalAnalyzer.analyze in H. rewrite Et in H.
    destruct (isEmpty token); discriminate H. }
  assert (Hin : In token jenSpellings).
  { destruct (analyze_cases MorphologicalAnalyzer.new token None Et)
      as [Hc|Hc].
    - rewrite Hc in H. injection H as <-. discriminate Htag.
    - destruct Hc as [best [rest [morph [inst [Hs [_ [_ Hc]]]]]]].
      rewrite Hc in H. injection H as <-. cbn [partOfSpeech] in Htag.
      destruct (ranked_matches _ _ _ _ Hs best (or_introl eq_refl))
        as [Ha [Hm _]].
      rewrite (interjection_analyzer_unique _ Ha Htag), Htrim in Hm.
      injection Hm as Hm. now apply interjection_in_token. }
  unfold jenSpellings in Hin. simpl in Hin.
  repeat (destruct Hin as [Hin|Hin];
          [subst token; vm_compute in H; injection H as <-;
           discriminate Htag|]).
  contradiction.
Qed.

Lemma collectResults_match : forall l w options r,
  In r (MorphologicalAnalyzer.collectResults l w options) ->
  exists a, In a l /\ partOfSpeech r = Analyzer.partOfSpeech a
            /\ Analyzer.match_ a w = Ok true.
Proof.
  induction l as [|a l IH]; simpl; intros w options r H; [contradiction|].
  assert (Hrest : In r (MorphologicalAnalyzer.collectResults l w options) ->
                  exists a0, (a = a0 \/ In a0 l)
                             /\ partOfSpeech r = Analyzer.partOfSpeech a0
                             /\ Analyzer.match_ a0 w = Ok true).
  { intro Hr. destruct (IH _ _ _ Hr) as [a0 [Ha0 Hp]]. exists a0. auto. }
  destruct (Analyzer.match_ a w) as [[|]|e] eqn:Em; try (now apply Hrest).
  destruct (MorphologicalAnalyzer.buildResult a _ w options [])
    as [r0|e] eqn:Eb; [|now apply Hrest].
  destruct H as [<-|H]; [|now apply Hrest].
  exists a. split; [now left|].
  unfold MorphologicalAnalyzer.buildResult, bind in Eb.
  destruct (Analyzer.extractMorphology a w options); [|discriminate Eb].
  destruct (createWord _ w); [|discriminate Eb].
  injection Eb as <-. split; [reflexivity | exact Em].
Qed.

Lemma analyzeAll_match : forall this w options rs r,
  MorphologicalAnalyzer.analyzeAll this (JString w) options = Ok rs ->
  In r rs ->
  exists a, In a (MorphologicalAnalyzer.analyzers this)
            /\ partOfSpeech r = Analyzer.partOfSpeech a
            /\ Analyzer.match_ a (trim w) = Ok true.
Proof.
  intros this w options rs r H Hr.
  unfold MorphologicalAnalyzer.analyzeAll in H.
  destruct (isEmpty w); [discriminate H|].
  destruct (isEmpty (trim w)); [discriminate H|].
  injection H as <-. apply sort_desc_In in Hr.
  now apply collectResults_match in Hr.
Qed.

Lemma analyzeAll_head_never_interjection : forall token full others,
  noPunctuation token = true -> noSpace token = true ->
  MorphologicalAnalyzer.analyzeAll MorphologicalAnalyzer.new (JString token)
    None = Ok (full :: others) ->
  partOfSpeech full <> Interjection.
Proof.
  intros token full others Hnp Hns H Htag.
  pose proof (trim_noSpace token Hns) as Htrim.
  assert (Hin : In token jenSpellings).
  { destruct (analyzeAll_match _ _ _ _ full H (or_introl eq_refl))
      as [a [Ha [Hp Hm]]].
    rewrite Htag in Hp. symmetry in Hp.
    rewrite (interjection_analyzer_unique _ Ha Hp), Htrim in Hm.
    injection Hm as Hm. now apply interjection_in_token. }
  unfold jenSpellings in Hin. simpl in Hin.
  repeat (destruct Hin as [Hin|Hin];
          [subst token; vm_compute in H; injection H as <- _;
           discriminate Htag|]).
  contradiction.
Qed.

(** Where the tag of the result of a token comes from. *)
Lemma analyzeToken_tag : forall this o token r,
  MorphologicalSentenceAnalyzer.analyzeToken this o token = Ok r ->
  (exists r0,
     MorphologicalAnalyzer.analyze
       (MorphologicalSentenceAnalyzer.wordAnalyzer this) (JString token) None
     = Ok r0
     /\ partOfSpeech r = partOfSpeech r0)
  \/ (exists full others,
        MorphologicalAnalyzer.analyzeAll
          (MorphologicalSentenceAnalyzer.wordAnalyzer this) (JString token)
          None = Ok (full :: others)
        /\ partOfSpeech r = partOfSpeech full).
Proof.
  intros this o token r H.
  unfold MorphologicalSentenceAnalyzer.analyzeToken, bind in H.
  match type of H with
  | match ?first with _ => _ end = _ =>
      destruct first as [r0|e] eqn:E; [|discriminate H]
  end.
  assert (Htag : partOfSpeech r = partOfSpeech r0).
  { injection H as <-. destruct r0 as [w0 p0 m0 i0 c0 a0 n0].
    destruct (MorphologicalSentenceAnalyzer.m_includeConfidence o),
      (MorphologicalSentenceAnalyzer.m_includeMorphology o),
      (MorphologicalSentenceAnalyzer.m_includeAlternatives o),
      (MorphologicalSentenceAnalyzer.m_preserveCase o); reflexivity. }
  destruct (MorphologicalSentenceAnalyzer.m_includeAlternatives o).
  - destruct (MorphologicalAnalyzer.analyzeAll _ _ _) as [all|e] eqn:Ea;
      [|discriminate E].
    destruct all as [|full others].
    + left. exists r0. auto.
    + right. exists full, others. split; [reflexivity|].
      injection E as <-. exact Htag.
  - left. exists r0. auto.
Qed.

(** X5: no word of a sentence is ever tagged as an interjection,
    whatever the options: the exclamation mark of an interjection is
    stripped with the punctuation, and [jen], the one interjection that has
    none, goes to the adverb analyzer, which comes first at equal score. *)
Theorem X5_no_interjection_in_sentence : forall sentence options,
  isEmpty (trim sentence) = false ->
  exists r,
    MorphologicalSentenceAnalyzer.analyzeSentence
      MorphologicalSentenceAnalyzer.new (JString sentence) options = Ok r
    /\ Forall (fun x => partOfSpeech x <> Interjection)
         (MorphologicalSentenceAnalyzer.words r).
Proof.
  intros sentence options H.
  unfold MorphologicalSentenceAnalyzer.analyzeSentence.
  rewrite (trim_nonempty sentence H), H.
  eexists. split; [reflexivity|]. cbn [MorphologicalSentenceAnalyzer.words].
  unfold MorphologicalSentenceAnalyzer.analyzeTokens.
  apply Forall_forall. intros x Hx. apply in_map_iff in Hx.
  destruct Hx as [token [Hx Hin]].
  destruct (tokenize_tokens _ _ Hin) as [Hns _].
  pose proof (tokenize_noPunctuation _ _ Hin) as Hnp.
  destruct (MorphologicalSentenceAnalyzer.analyzeToken _ _ token) as [r0|e]
    eqn:E.
  - subst r0. destruct (analyzeToken_tag _ _ _ _ E) as [Hc|Hc].
    + destruct Hc as [r0 [Hr0 ->]].
      exact (analyze_never_interjection token r0 Hnp Hns Hr0).
    + destruct Hc as [full [others [Hall ->]]].
      exact (analyzeAll_head_never_interjection token full others Hnp Hns
               Hall).
  - subst x. discriminate.
Qed.

Lemma X5_no_interjection_witness :
  exists r,
    MorphologicalSentenceAnalyzer.analyzeSentence
      MorphologicalSentenceAnalyzer.new (JString (js "Ho! Jen la domo."))
      None = Ok r
    /\ Forall (fun x => partOfSpeech x <> Interjection)
         (MorphologicalSentenceAnalyzer.words r).
Proof.
  apply (X5_no_interjection_in_sentence (js "Ho! Jen la domo.") None).
  reflexivity.
Defined.

(** ** The options of the sentence analyzer *)

Lemma analyzeToken_fields : forall this o token r,
  MorphologicalSentenceAnalyzer.analyzeToken this o token = Ok r ->
  (MorphologicalSentenceAnalyzer.m_includeConfidence o = false ->
   confidence r = None)
  /\ (MorphologicalSentenceAnalyzer.m_includeMorphology o = false ->
      morphology r = None)
  /\ (MorphologicalSentenceAnalyzer.m_includeAlternatives o = false ->
      alternatives r = []).
Proof.
  intros this o token r H.
  unfold MorphologicalSentenceAnalyzer.analyzeToken, bind in H.
  match type of H with
  | match ?first with _ => _ end = _ =>
      destruct first as [r0|e]; [|discriminate H]
  end.
  injection H as <-. destruct r0 as [w0 p0 m0 i0 c0 a0 n0].
  destruct (MorphologicalSentenceAnalyzer.m_includeConfidence o),
    (MorphologicalSentenceAnalyzer.m_includeMorphology o),
    (MorphologicalSentenceAnalyzer.m_includeAlternatives o),
    (MorphologicalSentenceAnalyzer.m_preserveCase o);
    repeat split; intro; try discriminate; reflexivity.
Qed.

(** The results of a sentence are those of the [try] block, token by
    token. *)
Lemma sentence_words : forall this sentence options,
  isEmpty (trim sentence) = false ->
  exists r,
    MorphologicalSentenceAnalyzer.analyzeSentence this (JString sentence)
      options = Ok r
    /\ MorphologicalSentenceAnalyzer.statistics r
       = MorphologicalSentenceAnalyzer.calculateStatistics
           (MorphologicalSentenceAnalyzer.words r)
    /\ Forall
         (fun x =>
            exists token,
              In token (MorphologicalSentenceAnalyzer.tokenize (trim sentence))
              /\ MorphologicalSentenceAnalyzer.analyzeToken this
                   (MorphologicalSentenceAnalyzer.mergeOptions
                      (MorphologicalSentenceAnalyzer.orDefault options
                         MorphologicalSentenceAnalyzer.noOptions))
                   token = Ok x)
         (MorphologicalSentenceAnalyzer.words r).
Proof.
  intros this sentence options H.
  unfold MorphologicalSentenceAnalyzer.analyzeSentence.
  rewrite (trim_nonempty sentence H), H.
  eexists. split; [reflexivity|]. split; [reflexivity|].
  cbn [MorphologicalSentenceAnalyzer.words].
  unfold MorphologicalSentenceAnalyzer.analyzeTokens.
  apply Forall_forall. intros x Hx. apply in_map_iff in Hx.
  destruct Hx as [token [Hx Hin]]. exists token. split; [exact Hin|].
  destruct (tokenize_tokens _ _ Hin) as [Hns Hne].
  destruct (analyzeToken_word this
              (MorphologicalSentenceAnalyzer.mergeOptions
                 (MorphologicalSentenceAnalyzer.orDefault options
                    MorphologicalSentenceAnalyzer.noOptions))
              token Hns Hne) as [r [Hr _]].
  rewrite Hr in Hx |- *. now subst x.
Qed.

Lemma no_confidence_average : forall ws,
  Forall (fun x => confidence x = None) ws ->
  MorphologicalSentenceAnalyzer.averageConfidence
    (MorphologicalSentenceAnalyzer.calculateStatistics ws) = toDouble 0.
Proof.
  intros ws H. unfold MorphologicalSentenceAnalyzer.calculateStatistics.
  cbn [MorphologicalSentenceAnalyzer.averageConfidence].
  replace (filter (fun w => MorphologicalSentenceAnalyzer.isNumber (confidence w))
             ws) with (@nil AnalysisResult); [reflexivity|].
  induction H as [|x ws Hx Hws IH]; [reflexivity|]. simpl.
  now rewrite Hx.
Qed.

(** X6: the three switches of [analyzeSentence].  With [includeConfidence]
    off no word carries a confidence and the average is 0; with
    [includeMorphology] off no word carries a morphology; unless
    [includeAlternatives] is on, no word carries an alternative. *)
Theorem X6_sentence_switches : forall this sentence options,
  isEmpty (trim sentence) = false ->
  exists r,
    MorphologicalSentenceAnalyzer.analyzeSentence this (JString sentence)
      (Some options) = Ok r
    /\ (MorphologicalSentenceAnalyzer.includeConfidence options = Some false ->
        Forall (fun x => confidence x = None)
          (MorphologicalSentenceAnalyzer.words r)
        /\ MorphologicalSentenceAnalyzer.averageConfidence
             (MorphologicalSentenceAnalyzer.statistics r) = toDouble 0)
    /\ (MorphologicalSentenceAnalyzer.includeMorphology options = Some false ->
        Forall (fun x => morphology x = None)
          (MorphologicalSentenceAnalyzer.words r))
    /\ (MorphologicalSentenceAnalyzer.includeAlternatives options <> Some true ->
        Forall (fun x => alternatives x = [])
          (MorphologicalSentenceAnalyzer.words r)).
Proof.
  intros this sentence options H.
  destruct (sentence_words this sentence (Some options) H)
    as [r [Hr [Hst Hws]]].
  exists r. split; [exact Hr|].
  cbn [MorphologicalSentenceAnalyzer.orDefault] in Hws.
  assert (Hall : forall P : AnalysisResult -> Prop,
    (forall token x,
        MorphologicalSentenceAnalyzer.analyzeToken this
          (MorphologicalSentenceAnalyzer.mergeOptions options) token = Ok x ->
        P x) ->
    Forall P (MorphologicalSentenceAnalyzer.words r)).
  { intros P HP. eapply Forall_impl; [|exact Hws].
    intros x [token [_ Hx]]. exact (HP token x Hx). }
  split; [|split].
  - intro Hc.
    assert (Hf : Forall (fun x => confidence x = None)
                   (MorphologicalSentenceAnalyzer.words r)).
    { apply Hall. intros token x Hx.
      apply (proj1 (analyzeToken_fields _ _ _ _ Hx)). cbn. now rewrite Hc. }
    split; [exact Hf|]. rewrite Hst. now apply no_confidence_average.
  - intro Hm. apply Hall. intros token x Hx.
    apply (proj1 (proj2 (analyzeToken_fields _ _ _ _ Hx))). cbn.
    now rewrite Hm.
  - intro Ha. apply Hall. intros token x Hx.
    apply (proj2 (proj2 (analyzeToken_fields _ _ _ _ Hx))). cbn.
    destruct (MorphologicalSentenceAnalyzer.includeAlternatives options)
      as [[|]|]; [congruence | reflexivity | reflexivity].
Qed.

Lemma X6_switches_witness :
  exists r,
    MorphologicalSentenceAnalyzer.analyzeSentence
      MorphologicalSentenceAnalyzer.new (JString (js "Mi amas vin."))
      (Some (MorphologicalSentenceAnalyzer.mkSentenceOptions (Some false) None
               (Some false) None None)) = Ok r
    /\ (Some false = Some false ->
        Forall (fun x => confidence x = None)
          (MorphologicalSentenceAnalyzer.words r)
        /\ MorphologicalSentenceAnalyzer.averageConfidence
             (MorphologicalSentenceAnalyzer.statistics r) = toDouble 0)
    /\ (Some false = Some false ->
        Forall (fun x => morphology x = None)
          (MorphologicalSentenceAnalyzer.words r))
    /\ (@None bool <> Some true ->
        Forall (fun x => alternatives x = [])
          (MorphologicalSentenceAnalyzer.words r)).
Proof.
  apply (X6_sentence_switches MorphologicalSentenceAnalyzer.new
           (js "Mi amas vin.")
           (MorphologicalSentenceAnalyzer.mkSentenceOptions (Some false) None
              (Some false) None None)).
  reflexivity.
Defined.

(** ** The bound on the alternatives of a word of a sentence *)

Lemma array_slice_bound : forall (A : Type) (k : Z) (l : list A),
  (0 <= k)%Z -> (length (array_slice 1 (k + 1) l) <= Z.to_nat k)%nat.
Proof.
  intros A k l Hk. unfold array_slice, relativeIndex.
  change (1 <? 0)%Z with false. cbv iota.
  replace (k + 1 <? 0)%Z with false by (symmetry; apply Z.ltb_ge; lia).
  rewrite length_firstn. lia.
Qed.

Lemma collectResults_has : forall l w options a r,
  In a l -> Analyzer.match_ a w = Ok true ->
  MorphologicalAnalyzer.buildResult a
    (MorphologicalAnalyzer.calculateConfidence a w) w options [] = Ok r ->
  In r (MorphologicalAnalyzer.collectResults l w options).
Proof.
  induction l as [|b l IH]; intros w options a r Ha Hm Hb; [contradiction|].
  simpl. destruct Ha as [->|Ha].
  - rewrite Hm, Hb. now left.
  - pose proof (IH w options a r Ha Hm Hb) as Hin.
    destruct (Analyzer.match_ b w) as [[|]|e]; try exact Hin.
    destruct (MorphologicalAnalyzer.buildResult b _ w options []);
      [now right | exact Hin].
Qed.

(** With the ten analyzers, a word on which [analyzeAll] finds nothing is
    Unknown for [analyze]: it has no alternatives. *)
Lemma analyze_after_empty_analyzeAll : forall token r,
  MorphologicalAnalyzer.analyzeAll MorphologicalAnalyzer.new (JString token)
    None = Ok [] ->
  MorphologicalAnalyzer.analyze MorphologicalAnalyzer.new (JString token) None
  = Ok r ->
  alternatives r = [].
Proof.
  intros token r Hall H.
  destruct (isEmpty (trim token)) eqn:Et.
  { unfold MorphologicalAnalyzer.analyze in H. rewrite Et in H.
    destruct (isEmpty token); discriminate H. }
  destruct (analyze_cases MorphologicalAnalyzer.new token None Et) as [Hc|Hc].
  { rewrite Hc in H. injection H as <-. reflexivity. }
  exfalso.
  destruct Hc as [best [rest [morph [inst [Hs [_ [Hcw _]]]]]]].
  destruct (ranked_matches _ _ _ _ Hs best (or_introl eq_refl))
    as [Ha [Hm _]].
  assert (Hart : str_eqb (trim token) (js "Article") = false).
  { destruct (str_eqb (trim token) (js "Article")) eqn:E; [|reflexivity].
    destruct (createWord_tag_throw
                (Analyzer.partOfSpeech
                   (MorphologicalAnalyzer.Match.analyzer best))
                (trim token) E) as [e He]. congruence. }
  destruct (extractMorphology_total _ Ha (trim token)
              (mkOptions None None None) Hm) as [m0 Hm0].
  destruct (createWord_ok
              (tagString
                 (Analyzer.partOfSpeech
                    (MorphologicalAnalyzer.Match.analyzer best)))
              (trim token) Hart) as [x Hx].
  assert (Hin : In (mkAnalysisResult (trim token)
                      (Analyzer.partOfSpeech
                         (MorphologicalAnalyzer.Match.analyzer best))
                      (Some m0) (Some x)
                      (Some (MorphologicalAnalyzer.calculateConfidence
                               (MorphologicalAnalyzer.Match.analyzer best)
                               (trim token)))
                      [] (Some (Analyzer.name
                                  (MorphologicalAnalyzer.Match.analyzer best))))
                   (MorphologicalAnalyzer.collectResults
                      ALL_MORPHOLOGICAL_ANALYZERS (trim token)
                      (mkOptions None None None))).
  { apply collectResults_has with
      (a := MorphologicalAnalyzer.Match.analyzer best); try assumption.
    unfold MorphologicalAnalyzer.buildResult, bind. now rewrite Hm0, Hx. }
  apply (sort_desc_In _ MorphologicalAnalyzer.confidenceOrZero) in Hin.
  assert (Hnil : sort_desc MorphologicalAnalyzer.confidenceOrZero
                   (MorphologicalAnalyzer.collectResults
                      ALL_MORPHOLOGICAL_ANALYZERS (trim token)
                      (mkOptions None None None)) = []).
  { unfold MorphologicalAnalyzer.analyzeAll in Hall.
    rewrite (trim_nonempty token Et), Et in Hall.
    change (MorphologicalAnalyzer.analyzers MorphologicalAnalyzer.new)
      with ALL_MORPHOLOGICAL_ANALYZERS in Hall.
    congruence. }
  rewrite Hnil in Hin. contradiction.
Qed.

(** X7: with [includeAlternatives] on, a word of a sentence carries at
    most [maxAlternatives] alternatives (2 when the option is absent), for
    a bound that is not negative. *)
Theorem X7_maxAlternatives_bound : forall sentence options k,
  isEmpty (trim sentence) = false ->
  MorphologicalSentenceAnalyzer.includeAlternatives options = Some true ->
  MorphologicalSentenceAnalyzer.orDefault
    (MorphologicalSentenceAnalyzer.maxAlternatives options) 2%Z = k ->
  (0 <= k)%Z ->
  exists r,
    MorphologicalSentenceAnalyzer.analyzeSentence
      MorphologicalSentenceAnalyzer.new (JString sentence) (Some options)
    = Ok r
    /\ Forall (fun x => (length (alternatives x) <= Z.to_nat k)%nat)
         (MorphologicalSentenceAnalyzer.words r).
Proof.
  intros sentence options k H Ha Hk Hpos.
  destruct (sentence_words MorphologicalSentenceAnalyzer.new sentence
              (Some options) H) as [r [Hr [_ Hws]]].
  exists r. split; [exact Hr|].
  cbn [MorphologicalSentenceAnalyzer.orDefault] in Hws.
  eapply Forall_impl; [|exact Hws].
  intros x [token [_ Hx]].
  unfold MorphologicalSentenceAnalyzer.analyzeToken, bind in Hx.
  assert (Hia : MorphologicalSentenceAnalyzer.m_includeAlternatives
                  (MorphologicalSentenceAnalyzer.mergeOptions options) = true)
    by (cbn; now rewrite Ha).
  assert (Hmax : MorphologicalSentenceAnalyzer.m_maxAlternatives
                   (MorphologicalSentenceAnalyzer.mergeOptions options) = k)
    by exact Hk.
  rewrite Hia in Hx.
  match type of Hx with
  | match ?first with _ => _ end = _ =>
      destruct first as [r0|e] eqn:E0; [|discriminate Hx]
  end.
  injection Hx as <-.
  match goal with
  | |- (length (alternatives ?t) <= _)%nat =>
      assert (Hkeep : alternatives t = alternatives r0)
  end.
  { destruct r0 as [w0 p0 m0 i0 c0 a0 n0]. cbn [negb].
    repeat match goal with
           | |- context [if negb ?b then _ else _] => destruct b; cbn [negb]
           | |- context [if ?b then _ else _] => destruct b
           end; reflexivity. }
  rewrite Hkeep. clear Hkeep. unfold bind in E0.
  destruct (MorphologicalAnalyzer.analyzeAll _ _ _) as [all|e] eqn:Eall;
    [|discriminate E0].
  destruct all as [|full others].
  - rewrite (analyze_after_empty_analyzeAll token r0 Eall E0). simpl. lia.
  - injection E0 as <-. cbn [alternatives].
    change (MorphologicalSentenceAnalyzer.orDefault
              (MorphologicalSentenceAnalyzer.maxAlternatives options) 2%Z)
      with (MorphologicalSentenceAnalyzer.m_maxAlternatives
              (MorphologicalSentenceAnalyzer.mergeOptions options)).
    rewrite Hmax. now apply array_slice_bound.
Qed.

Lemma X7_maxAlternatives_witness :
  exists r,
    MorphologicalSentenceAnalyzer.analyzeSentence
      MorphologicalSentenceAnalyzer.new (JString (js "La kato dormas."))
      (Some (MorphologicalSentenceAnalyzer.mkSentenceOptions None (Some true)
               None (Some 1%Z) None))
    = Ok r
    /\ Forall (fun x => (length (alternatives x) <= Z.to_nat 1)%nat)
         (MorphologicalSentenceAnalyzer.words r).
Proof.
  apply (X7_maxAlternatives_bound (js "La kato dormas.")
           (MorphologicalSentenceAnalyzer.mkSentenceOptions None (Some true)
              None (Some 1%Z) None) 1%Z).
  - reflexivity.
  - reflexivity.
  - reflexivity.
  - lia.
Defined.

(** ** [analyze] and [analyzeAll] on the same word *)

Lemma insert_desc_Forall2 : forall (A B : Type) (keyA : A -> Q)
    (keyB : B -> Q) (P : A -> B -> Prop),
  (forall a b, P a b -> keyA a = keyB b) ->
  forall a b l1 l2, P a b -> Forall2 P l1 l2 ->
  Forall2 P (insert_desc keyA a l1) (insert_desc keyB b l2).
Proof.
  intros A B keyA keyB P Hkey a b l1 l2 Hab H.
  induction H as [|x y l1 l2 Hxy H IH]; simpl.
  - constructor; [exact Hab | constructor].
  - rewrite (Hkey _ _ Hab), (Hkey _ _ Hxy).
    destruct (Qle_bool (keyB y - keyB b) 0).
    + constructor; [exact Hab|]. constructor; assumption.
    + constructor; assumption.
Qed.

(** Sorting two lists whose entries correspond, with the same scores,
    keeps them in correspondence. *)
Lemma sort_desc_Forall2 : forall (A B : Type) (keyA : A -> Q)
    (keyB : B -> Q) (P : A -> B -> Prop),
  (forall a b, P a b -> keyA a = keyB b) ->
  forall l1 l2, Forall2 P l1 l2 ->
  Forall2 P (sort_desc keyA l1) (sort_desc keyB l2).
Proof.
  intros A B keyA keyB P Hkey l1 l2 H.
  induction H as [|x y l1 l2 Hxy H IH]; simpl; [constructor|].
  now apply insert_desc_Forall2.
Qed.

(** The one word on which the factory throws has no entry at all. *)
Lemma collectResults_Article : forall l w options,
  str_eqb w (js "Article") = true ->
  MorphologicalAnalyzer.collectResults l w options = [].
Proof.
  induction l as [|a l IH]; intros w options H; simpl; [reflexivity|].
  rewrite (IH w options H).
  destruct (Analyzer.match_ a w) as [[|]|e]; try reflexivity.
  unfold MorphologicalAnalyzer.buildResult, bind.
  destruct (Analyzer.extractMorphology a w options); [|reflexivity].
  destruct (createWord_tag_throw (Analyzer.partOfSpeech a) w H) as [e He].
  now rewrite He.
Qed.

(** On every other word [analyzeAll] has one entry per match of
    [analyze], in the same order. *)
Lemma collectResults_readings : forall l w options,
  str_eqb w (js "Article") = false ->
  (forall a, In a l -> In a ALL_MORPHOLOGICAL_ANALYZERS) ->
  Forall2 (sameReading w) (MorphologicalAnalyzer.collectMatches l w)
    (MorphologicalAnalyzer.collectResults l w options).
Proof.
  induction l as [|a l IH]; intros w options Hw Hl; simpl; [constructor|].
  assert (IH' := IH w options Hw (fun b Hb => Hl b (or_intror Hb))).
  destruct (Analyzer.match_ a w) as [[|]|e] eqn:Em; try exact IH'.
  destruct (extractMorphology_total a (Hl a (or_introl eq_refl)) w options Em)
    as [m Hm].
  destruct (createWord_ok (tagString (Analyzer.partOfSpeech a)) w Hw)
    as [x Hx].
  unfold MorphologicalAnalyzer.buildResult, bind. rewrite Hm, Hx.
  constructor; [|exact IH'].
  unfold sameReading. simpl. auto.
Qed.

Lemma sameReading_key : forall w m r,
  sameReading w m r ->
  MorphologicalAnalyzer.Match.confidence m
  = MorphologicalAnalyzer.confidenceOrZero r.
Proof.
  intros w m r [_ [_ [Hc _]]].
  unfold MorphologicalAnalyzer.confidenceOrZero. now rewrite Hc.
Qed.

Lemma Forall2_firstn : forall (A B : Type) (P : A -> B -> Prop) n l1 l2,
  Forall2 P l1 l2 -> Forall2 P (firstn n l1) (firstn n l2).
Proof.
  intros A B P n. induction n as [|n IH]; intros l1 l2 H; simpl.
  - constructor.
  - destruct H; constructor; auto.
Qed.

(** X8: on a word that is not blank, [analyzeAll] finds nothing exactly
    where [analyze] answers Unknown with no alternative; otherwise its
    first entry agrees with the answer of [analyze] on the word, the tag,
    the score and the analyzer, and the alternatives of [analyze] are the
    next three entries, whatever options the two calls are given. *)
Theorem X8_analyzeAll_agrees_with_analyze : forall w options options',
  isEmpty (trim w) = false ->
  exists r rs,
    MorphologicalAnalyzer.analyze MorphologicalAnalyzer.new (JString w)
      options = Ok r
    /\ MorphologicalAnalyzer.analyzeAll MorphologicalAnalyzer.new (JString w)
         options' = Ok rs
    /\ match rs with
       | [] => r = MorphologicalAnalyzer.createUnknownWordResult (trim w)
       | first :: others =>
           sameVerdict first r
           /\ Forall2 sameVerdict (firstn 3 others) (alternatives r)
       end.
Proof.
  intros w options options' H.
  set (o' := match options' with
             | Some o => o
             | None => mkOptions None None None
             end).
  assert (Hall : MorphologicalAnalyzer.analyzeAll MorphologicalAnalyzer.new
                   (JString w) options'
                 = Ok (sort_desc MorphologicalAnalyzer.confidenceOrZero
                         (MorphologicalAnalyzer.collectResults
                            ALL_MORPHOLOGICAL_ANALYZERS (trim w) o'))).
  { unfold MorphologicalAnalyzer.analyzeAll.
    now rewrite (trim_nonempty w H), H. }
  destruct (str_eqb (trim w) (js "Article")) eqn:Ea.
  - (* the factory throws: no entry, and the answer is Unknown *)
    rewrite (collectResults_Article _ _ o' Ea) in Hall.
    exists (MorphologicalAnalyzer.createUnknownWordResult (trim w)), [].
    split; [|split; [exact Hall | reflexivity]].
    destruct (analyze_cases MorphologicalAnalyzer.new w options H)
      as [Hc|Hc]; [exact Hc|].
    destruct Hc as [best [rest [morph [inst [_ [_ [Hcw _]]]]]]].
    destruct (createWord_tag_throw
                (Analyzer.partOfSpeech
                   (MorphologicalAnalyzer.Match.analyzer best))
                (trim w) Ea) as [e He].
    congruence.
  - pose proof (sort_desc_Forall2 _ _
                  MorphologicalAnalyzer.Match.confidence
                  MorphologicalAnalyzer.confidenceOrZero
                  (sameReading (trim w)) (sameReading_key (trim w)) _ _
                  (collectResults_readings ALL_MORPHOLOGICAL_ANALYZERS
                     (trim w) o' Ea (fun a Ha => Ha))) as Hs.
    destruct (sort_desc MorphologicalAnalyzer.Match.confidence
                (MorphologicalAnalyzer.collectMatches
                   ALL_MORPHOLOGICAL_ANALYZERS (trim w)))
      as [|best rest] eqn:Em;
      destruct (sort_desc MorphologicalAnalyzer.confidenceOrZero
                  (MorphologicalAnalyzer.collectResults
                     ALL_MORPHOLOGICAL_ANALYZERS (trim w) o'))
        as [|first others]; try solve [inversion Hs].
    + (* no match *)
      exists (MorphologicalAnalyzer.createUnknownWordResult (trim w)), [].
      split; [|split; [exact Hall | reflexivity]].
      destruct (analyze_cases MorphologicalAnalyzer.new w options H)
        as [Hc|Hc]; [exact Hc|].
      destruct Hc as [best [rest [morph [inst [Hsort _]]]]].
      change (MorphologicalAnalyzer.analyzers MorphologicalAnalyzer.new)
        with ALL_MORPHOLOGICAL_ANALYZERS in Hsort.
      rewrite Em in Hsort. discriminate Hsort.
    + inversion Hs as [|m0 r0 l0 l0' Hfirst Hothers]; subst.
      destruct (ranked_matches MorphologicalAnalyzer.new (trim w) best rest Em
                  best (or_introl eq_refl)) as [Hin [Hmatch _]].
      destruct (extractMorphology_total _ Hin (trim w)
                  (optionsOrDefault options) Hmatch) as [morph Hmorph].
      destruct (createWord_ok
                  (tagString
                     (Analyzer.partOfSpeech
                        (MorphologicalAnalyzer.Match.analyzer best)))
                  (trim w) Ea) as [inst Hinst].
      eexists. exists (first :: others).
      split; [exact (analyze_best MorphologicalAnalyzer.new w options best
                       rest morph inst H Em Hmorph Hinst)|].
      split; [exact Hall|].
      destruct Hfirst as [Hw1 [Ht1 [Hc1 [_ Hn1]]]].
      split; [unfold sameVerdict; simpl; auto|].
      cbn [alternatives]. unfold MorphologicalAnalyzer.getAlternatives.
      rewrite array_slice_0_3.
      assert (Hrest : forall m, In m rest ->
                In (MorphologicalAnalyzer.Match.analyzer m)
                  ALL_MORPHOLOGICAL_ANALYZERS
                /\ Analyzer.match_ (MorphologicalAnalyzer.Match.analyzer m)
                     (trim w) = Ok true).
      { intros m Hm.
        destruct (ranked_matches MorphologicalAnalyzer.new (trim w) best rest
                    Em m (or_intror Hm)) as [Hi [Hmm _]]. auto. }
      clear Em Hs Hall. revert Hrest.
      generalize dependent others. generalize 3%nat as n. revert rest.
      induction rest as [|m rest IH]; intros n others Hothers Hrest.
      * inversion Hothers; subst. destruct n; constructor.
      * inversion Hothers as [|m1 r1 l1 others1 Hr1 Hrest1]; subst.
        destruct n as [|n]; simpl; [constructor|].
        constructor.
        -- destruct (Hrest m (or_introl eq_refl)) as [Hi Hmm].
           destruct (extractMorphology_total _ Hi (trim w)
                       (optionsOrDefault options) Hmm) as [mo Hmo].
           destruct (createWord_ok
                       (tagString
                          (Analyzer.partOfSpeech
                             (MorphologicalAnalyzer.Match.analyzer m)))
                       (trim w) Ea) as [x Hx].
           unfold MorphologicalAnalyzer.buildResult, bind.
           rewrite Hmo, Hx.
           destruct Hr1 as [Hw2 [Ht2 [Hc2 [_ Hn2]]]].
           unfold sameVerdict. simpl. auto.
        -- apply IH; [exact Hrest1|].
           intros m' Hm'. apply Hrest. now right.
Qed.

Lemma X8_analyzeAll_agrees_witness :
  exists r rs,
    MorphologicalAnalyzer.analyze MorphologicalAnalyzer.new
      (JString (js " bela ")) None = Ok r
    /\ MorphologicalAnalyzer.analyzeAll MorphologicalAnalyzer.new
         (JString (js " bela ")) None = Ok rs
    /\ match rs with
       | [] => r = MorphologicalAnalyzer.createUnknownWordResult
                     (trim (js " bela "))
       | first :: others =>
           sameVerdict first r
           /\ Forall2 sameVerdict (firstn 3 others) (alternatives r)
       end.
Proof.
  apply (X8_analyzeAll_agrees_with_analyze (js " bela ") None None).
  reflexivity.
Defined.

(** ** The tags of a sentence *)

Lemma analyzeAll_head_tag : forall w options options' full others r,
  MorphologicalAnalyzer.analyzeAll MorphologicalAnalyzer.new (JString w)
    options' = Ok (full :: others) ->
  MorphologicalAnalyzer.analyze MorphologicalAnalyzer.new (JString w) options
  = Ok r ->
  partOfSpeech full = partOfSpeech r.
Proof.
  intros w options options' full others r Hall Hr.
  destruct (isEmpty (trim w)) eqn:H.
  { unfold MorphologicalAnalyzer.analyze in Hr. rewrite H in Hr.
    destruct (isEmpty w); discriminate Hr. }
  set (o' := match options' with
             | Some o => o
             | None => mkOptions None None None
             end).
  assert (Hall' : MorphologicalAnalyzer.analyzeAll MorphologicalAnalyzer.new
                    (JString w) options'
                  = Ok (sort_desc MorphologicalAnalyzer.confidenceOrZero
                          (MorphologicalAnalyzer.collectResults
                             ALL_MORPHOLOGICAL_ANALYZERS (trim w) o'))).
  { unfold MorphologicalAnalyzer.analyzeAll.
    now rewrite (trim_nonempty w H), H. }
  destruct (str_eqb (trim w) (js "Article")) eqn:Ea.
  { rewrite (collectResults_Article _ _ o' Ea) in Hall'.
    rewrite Hall in Hall'. discriminate Hall'. }
  pose proof (sort_desc_Forall2 _ _
                MorphologicalAnalyzer.Match.confidence
                MorphologicalAnalyzer.confidenceOrZero
                (sameReading (trim w)) (sameReading_key (trim w)) _ _
                (collectResults_readings ALL_MORPHOLOGICAL_ANALYZERS
                   (trim w) o' Ea (fun a Ha => Ha))) as Hs.
  assert (Hsort : sort_desc MorphologicalAnalyzer.confidenceOrZero
                    (MorphologicalAnalyzer.collectResults
                       ALL_MORPHOLOGICAL_ANALYZERS (trim w) o')
                  = full :: others) by congruence.
  rewrite Hsort in Hs.
  destruct (sort_desc MorphologicalAnalyzer.Match.confidence
              (MorphologicalAnalyzer.collectMatches
                 ALL_MORPHOLOGICAL_ANALYZERS (trim w)))
    as [|best rest] eqn:Em; [inversion Hs|].
  inversion Hs as [|m0 r0 l0 l0' Hfirst Hothers]; subst.
  destruct (ranked_matches MorphologicalAnalyzer.new (trim w) best rest Em
              best (or_introl eq_refl)) as [Hin [Hmatch _]].
  destruct (extractMorphology_total _ Hin (trim w)
              (optionsOrDefault options) Hmatch) as [morph Hmorph].
  destruct (createWord_ok
              (tagString
                 (Analyzer.partOfSpeech
                    (MorphologicalAnalyzer.Match.analyzer best)))
              (trim w) Ea) as [inst Hinst].
  rewrite (analyze_best MorphologicalAnalyzer.new w options best rest morph
             inst H Em Hmorph Hinst) in Hr.
  injection Hr as <-. destruct Hfirst as [_ [Ht _]]. exact Ht.
Qed.

Lemma analyzeToken_wordTag : forall o token r,
  MorphologicalSentenceAnalyzer.analyzeToken MorphologicalSentenceAnalyzer.new
    o token = Ok r ->
  partOfSpeech r = wordTag token.
Proof.
  intros o token r H. unfold wordTag, analyzeWord, getWordAnalyzer.
  destruct (analyzeToken_tag _ _ _ _ H) as [[r0 [Hr0 Ht]]|[full [others [Ha Ht]]]].
  - change (MorphologicalSentenceAnalyzer.wordAnalyzer
              MorphologicalSentenceAnalyzer.new)
      with MorphologicalAnalyzer.new in Hr0.
    now rewrite Hr0.
  - change (MorphologicalSentenceAnalyzer.wordAnalyzer
              MorphologicalSentenceAnalyzer.new)
      with MorphologicalAnalyzer.new in Ha.
    destruct (MorphologicalAnalyzer.analyze MorphologicalAnalyzer.new
                (JString token) None) as [r0|e] eqn:Hr0.
    + rewrite Ht. exact (analyzeAll_head_tag _ _ _ _ _ _ Ha Hr0).
    + exfalso. unfold MorphologicalAnalyzer.analyzeAll in Ha.
      unfold MorphologicalAnalyzer.analyze in Hr0.
      destruct (isEmpty token); [discriminate Ha|].
      destruct (isEmpty (trim token)) eqn:Et; [discriminate Ha|].
      destruct (analyze_cases MorphologicalAnalyzer.new token None Et)
        as [Hc|[b [rs [mo [inst [_ [_ [_ Hc]]]]]]]];
        unfold MorphologicalAnalyzer.analyze in Hc;
        rewrite (trim_nonempty token Et), Et in Hc;
        rewrite Hc in Hr0; discriminate Hr0.
Qed.

Lemma analyzeTokens_tags : forall o tokens,
  (forall token, In token tokens ->
     noSpace token = true /\ isEmpty token = false) ->
  map partOfSpeech
    (MorphologicalSentenceAnalyzer.analyzeTokens
       MorphologicalSentenceAnalyzer.new o tokens)
  = map wordTag tokens.
Proof.
  intros o tokens Htok.
  unfold MorphologicalSentenceAnalyzer.analyzeTokens. rewrite map_map.
  apply map_ext_in. intros token Hin.
  destruct (Htok _ Hin) as [Hns Hne].
  destruct (analyzeToken_word MorphologicalSentenceAnalyzer.new o token
              Hns Hne) as [r [Hr _]].
  rewrite Hr. exact (analyzeToken_wordTag _ _ _ Hr).
Qed.

(** X9: whatever the options, [analyzeSentence] gives each token the tag
    that [analyzeWord] gives it taken alone. *)
Theorem X9_sentence_tags_are_word_tags : forall sentence options,
  isEmpty (trim sentence) = false ->
  exists r,
    MorphologicalSentenceAnalyzer.analyzeSentence
      MorphologicalSentenceAnalyzer.new (JString sentence) options = Ok r
    /\ map partOfSpeech (MorphologicalSentenceAnalyzer.words r)
       = map wordTag
           (MorphologicalSentenceAnalyzer.tokenize (trim sentence)).
Proof.
  intros sentence options H.
  unfold MorphologicalSentenceAnalyzer.analyzeSentence.
  rewrite (trim_nonempty sentence H), H.
  eexists. split; [reflexivity|].
  cbn [MorphologicalSentenceAnalyzer.words].
  apply analyzeTokens_tags. intros token Hin.
  exact (tokenize_tokens _ _ Hin).
Qed.

Lemma X9_sentence_tags_witness :
  exists r,
    MorphologicalSentenceAnalyzer.analyzeSentence
      MorphologicalSentenceAnalyzer.new (JString (js "La kato dormas."))
      (Some (MorphologicalSentenceAnalyzer.mkSentenceOptions None (Some true)
               None None None)) = Ok r
    /\ map partOfSpeech (MorphologicalSentenceAnalyzer.words r)
       = map wordTag
           (MorphologicalSentenceAnalyzer.tokenize
              (trim (js "La kato dormas."))).
Proof.
  apply (X9_sentence_tags_are_word_tags (js "La kato dormas.")
           (Some (MorphologicalSentenceAnalyzer.mkSentenceOptions None
                    (Some true) None None None))).
  reflexivity.
Defined.

(** ** The summary of a sentence *)

(** The counts are computed from the tags alone. *)
Lemma counts_of_tags : forall ws ws',
  map partOfSpeech ws = map partOfSpeech ws' ->
  MorphologicalSentenceAnalyzer.partOfSpeechCounts
    (MorphologicalSentenceAnalyzer.calculateStatistics ws)
  = MorphologicalSentenceAnalyzer.partOfSpeechCounts
      (MorphologicalSentenceAnalyzer.calculateStatistics ws').
Proof.
  intros ws ws' H.
  unfold MorphologicalSentenceAnalyzer.calculateStatistics.
  cbn [MorphologicalSentenceAnalyzer.partOfSpeechCounts].
  generalize (@nil (PartOfSpeech * Z)) as counts.
  revert ws' H. induction ws as [|x ws IH]; intros [|y ws'] H counts;
    try discriminate H; [reflexivity|].
  injection H as Hxy H. cbn [fold_left]. rewrite Hxy. now apply IH.
Qed.

(** X10: the summary of a sentence is the table of counts that
    [analyzeSentence] reports for it under any options, and it fails as
    [analyzeSentence] fails. *)
Theorem X10_summary_is_the_counts : forall v options,
  getPartOfSpeechSummary v
  = bind
      (MorphologicalSentenceAnalyzer.analyzeSentence
         MorphologicalSentenceAnalyzer.new v options)
      (fun r =>
         Ok (MorphologicalSentenceAnalyzer.partOfSpeechCounts
               (MorphologicalSentenceAnalyzer.statistics r))).
Proof.
  intros v options.
  unfold getPartOfSpeechSummary, MorphologicalSentenceAnalyzer.getSummary,
    getSentenceAnalyzer, MorphologicalSentenceAnalyzer.analyzeSentence, bind.
  destruct v as [| | | |s|]; try reflexivity.
  destruct (isEmpty s); [reflexivity|].
  destruct (isEmpty (trim s)); [reflexivity|].
  cbn [MorphologicalSentenceAnalyzer.statistics]. f_equal.
  apply counts_of_tags.
  rewrite !analyzeTokens_tags; [reflexivity| |];
    intros token Hin; exact (tokenize_tokens _ _ Hin).
Qed.

(** ** The validity test *)

(** X11: a sentence with no word in it is never valid Esperanto, at any
    threshold, zero and the negative ones included: the input is refused
    by [analyzeSentence], or the rate is 0/0. *)
Theorem X11_wordless_is_never_valid : forall v threshold,
  invalidInput v \/ wordless v ->
  isEsperantoSentence v threshold = false.
Proof.
  intros v threshold H.
  unfold isEsperantoSentence, MorphologicalSentenceAnalyzer.isValidEsperanto,
    MorphologicalSentenceAnalyzer.analyzeSentence.
  destruct v as [| | | |s|]; try reflexivity.
  destruct (isEmpty s); [reflexivity|].
  destruct (isEmpty (trim s)) eqn:Et; [reflexivity|].
  destruct H as [H|H]; simpl in H.
  - rewrite H in Et. discriminate Et.
  - rewrite H.
    generalize (toDouble (MorphologicalSentenceAnalyzer.orDefault threshold
                            0.8)).
    intro t. change (dge S754_nan t = false).
    destruct t; reflexivity.
Qed.

Lemma X11_wordless_witness :
  isEsperantoSentence (JString (js " ... ?! ")) (Some 0) = false.
Proof.
  apply (X11_wordless_is_never_valid (JString (js " ... ?! ")) (Some 0)).
  right. reflexivity.
Defined.

Lemma filter_map_length : forall (A B : Type) (f : A -> B) (g : B -> bool)
    (l : list A),
  length (filter (fun x => g (f x)) l) = length (filter g (map f l)).
Proof.
  intros A B f g l. induction l as [|x l IH]; simpl; [reflexivity|].
  destruct (g (f x)); simpl; now rewrite IH.
Qed.

(** X12: a sentence that is not blank is valid Esperanto exactly when
    the number of its tokens that [analyzeWord] recognises, divided as
    doubles are by the number of its tokens, is at least the threshold
    (0.8 when no threshold is given). *)
Theorem X12_validity_is_the_recognised_share : forall sentence threshold,
  isEmpty (trim sentence) = false ->
  isEsperantoSentence (JString sentence) threshold
  = dge
      (ddiv
         (ofZ
            (Z.of_nat
               (length
                  (recognisedTokens
                     (MorphologicalSentenceAnalyzer.tokenize
                        (trim sentence))))))
         (ofZ
            (Z.of_nat
               (length
                  (MorphologicalSentenceAnalyzer.tokenize (trim sentence))))))
      (toDouble (MorphologicalSentenceAnalyzer.orDefault threshold 0.8)).
Proof.
  intros sentence threshold H.
  unfold isEsperantoSentence, MorphologicalSentenceAnalyzer.isValidEsperanto,
    MorphologicalSentenceAnalyzer.analyzeSentence, getSentenceAnalyzer.
  rewrite (trim_nonempty sentence H), H.
  cbn [MorphologicalSentenceAnalyzer.statistics].
  unfold MorphologicalSentenceAnalyzer.calculateStatistics.
  cbn [MorphologicalSentenceAnalyzer.totalWords
       MorphologicalSentenceAnalyzer.analyzedWords].
  set (tokens := MorphologicalSentenceAnalyzer.tokenize (trim sentence)) in *.
  set (ws := MorphologicalSentenceAnalyzer.analyzeTokens _ _ tokens).
  assert (Htags : map partOfSpeech ws = map wordTag tokens).
  { apply analyzeTokens_tags. intros token Hin.
    exact (tokenize_tokens _ _ Hin). }
  assert (Hlen : length ws = length tokens).
  { unfold ws, MorphologicalSentenceAnalyzer.analyzeTokens.
    apply length_map. }
  assert (Hrec : length
                   (filter
                      (fun w =>
                         negb (PartOfSpeech_eqb (partOfSpeech w) Unknown)) ws)
                 = length (recognisedTokens tokens)).
  { unfold recognisedTokens.
    rewrite (filter_map_length _ _ partOfSpeech
               (fun p => negb (PartOfSpeech_eqb p Unknown)) ws).
    rewrite (filter_map_length _ _ wordTag
               (fun p => negb (PartOfSpeech_eqb p Unknown)) tokens).
    now rewrite Htags. }
  now rewrite Hrec, Hlen.
Qed.

(** Five tokens of six are recognised; the quotient 5/6 is the double
    0.8333333333333334, which reaches the threshold of that value. *)
Lemma X12_validity_witness :
  length
    (recognisedTokens
       (MorphologicalSentenceAnalyzer.tokenize
          (trim (js "La kato xyzq dormas kaj kuras.")))) = 5%nat
  /\ length
       (MorphologicalSentenceAnalyzer.tokenize
          (trim (js "La kato xyzq dormas kaj kuras."))) = 6%nat
  /\ isEsperantoSentence (JString (js "La kato xyzq dormas kaj kuras."))
       (Some 0.8333333333333334)
     = true
  /\ isEsperantoSentence (JString (js "La kato xyzq dormas kaj kuras."))
       (Some 0.8333333333333335)
     = false.
Proof.
  split; [vm_compute; reflexivity|]. split; [vm_compute; reflexivity|].
  split.
  - refine (eq_trans
              (X12_validity_is_the_recognised_share
                 (js "La kato xyzq dormas kaj kuras.")
                 (Some 0.8333333333333334) _) _);
      vm_compute; reflexivity.
  - refine (eq_trans
              (X12_validity_is_the_recognised_share
                 (js "La kato xyzq dormas kaj kuras.")
                 (Some 0.8333333333333335) _) _);
      vm_compute; reflexivity.
Defined.

(** ** The entries of [analyzeWordAll] *)

Lemma collectResults_entry : forall l w options r,
  In r (MorphologicalAnalyzer.collectResults l w options) ->
  exists a m x,
    In a l
    /\ Analyzer.match_ a w = Ok true
    /\ Analyzer.extractMorphology a w options = Ok m
    /\ createWord (tagString (Analyzer.partOfSpeech a)) w = Ok x
    /\ r = mkAnalysisResult w (Analyzer.partOfSpeech a) (Some m) (Some x)
             (Some (MorphologicalAnalyzer.calculateConfidence a w)) []
             (Some (Analyzer.name a)).
Proof.
  induction l as [|a l IH]; simpl; intros w options r H; [contradiction|].
  assert (Hrest : In r (MorphologicalAnalyzer.collectResults l w options) ->
    exists a0 m x,
      (a = a0 \/ In a0 l)
      /\ Analyzer.match_ a0 w = Ok true
      /\ Analyzer.extractMorphology a0 w options = Ok m
      /\ createWord (tagString (Analyzer.partOfSpeech a0)) w = Ok x
      /\ r = mkAnalysisResult w (Analyzer.partOfSpeech a0) (Some m) (Some x)
               (Some (MorphologicalAnalyzer.calculateConfidence a0 w)) []
               (Some (Analyzer.name a0))).
  { intro Hr. destruct (IH _ _ _ Hr) as [a0 [m [x [Ha0 Hp]]]].
    exists a0, m, x. split; [now right | exact Hp]. }
  destruct (Analyzer.match_ a w) as [[|]|e] eqn:Em; try (now apply Hrest).
  unfold MorphologicalAnalyzer.buildResult, bind in H.
  destruct (Analyzer.extractMorphology a w options) as [m|e] eqn:Ex;
    [|now apply Hrest].
  destruct (createWord (tagString (Analyzer.partOfSpeech a)) w) as [x|e]
    eqn:Ec; [|now apply Hrest].
  destruct H as [<-|H]; [|now apply Hrest].
  exists a, m, x. auto.
Qed.

(** Without [includeFeatures], no analyzer reports a plural or an
    accusative. *)
Lemma extractMorphology_featuresOff : forall a,
  In a ALL_MORPHOLOGICAL_ANALYZERS ->
  forall w options m,
  BaseMorphologicalAnalyzer.featuresOff options = true ->
  Analyzer.extractMorphology a w options = Ok m ->
  isPlural m = false /\ isAccusative m = false.
Proof.
  intros a H w options m Hoff E. each_analyzer H; simpl in E;
    [ unfold NounMorphologicalAnalyzer.extractMorphology in E
    | unfold VerbMorphologicalAnalyzer.extractMorphology in E
    | unfold AdjectiveMorphologicalAnalyzer.extractMorphology in E
    | unfold AdverbMorphologicalAnalyzer.extractMorphology in E
    | unfold ArticleMorphologicalAnalyzer.extractMorphology in E
    | unfold ConjunctionMorphologicalAnalyzer.extractMorphology in E
    | unfold InterjectionMorphologicalAnalyzer.extractMorphology in E
    | unfold NumeralMorphologicalAnalyzer.extractMorphology in E
    | unfold PrepositionMorphologicalAnalyzer.extractMorphology in E
    | unfold PronounMorphologicalAnalyzer.extractMorphology in E ];
    unfold BaseMorphologicalAnalyzer.extractMorphology in E;
    rewrite Hoff in E;
    match type of E with
    | (if ?b then _ else _) = _ => destruct b; [discriminate E|]
    end;
    injection E as <-; split; reflexivity.
Qed.

Lemma insert_desc_map_In : forall (A B : Type) (key : A -> Q) (f : A -> B)
    x y l,
  In y (map f (insert_desc key x l)) <-> y = f x \/ In y (map f l).
Proof.
  intros A B key f x y l. rewrite !in_map_iff. split.
  - intros [z [Hz Hin]]. apply insert_desc_In in Hin.
    destruct Hin as [->|Hin]; [now left|]. right. now exists z.
  - intros [->|[z [Hz Hin]]].
    + exists x. split; [reflexivity|]. apply insert_desc_In. now left.
    + exists z. split; [exact Hz|]. apply insert_desc_In. now right.
Qed.

Lemma insert_desc_NoDup : forall (A B : Type) (key : A -> Q) (f : A -> B)
    x l,
  NoDup (map f (x :: l)) -> NoDup (map f (insert_desc key x l)).
Proof.
  intros A B key f x l. induction l as [|z l IH]; simpl; intro H;
    [exact H|].
  destruct (Qle_bool (key z - key x) 0); [exact H|].
  simpl. inversion H as [|? ? Hx Hrest]; subst.
  inversion Hrest as [|? ? Hz Hl]; subst.
  constructor.
  - rewrite insert_desc_map_In. intros [E|Hin]; [|contradiction].
    apply Hx. left. now symmetry.
  - apply IH. simpl. constructor; [|exact Hl].
    intro Hin. apply Hx. now right.
Qed.

Lemma sort_desc_NoDup : forall (A B : Type) (key : A -> Q) (f : A -> B) l,
  NoDup (map f l) -> NoDup (map f (sort_desc key l)).
Proof.
  intros A B key f l. induction l as [|x l IH]; simpl; intro H; [exact H|].
  apply insert_desc_NoDup. simpl. inversion H as [|? ? Hx Hl]; subst.
  constructor; [|now apply IH].
  intro Hin. apply Hx. apply in_map_iff in Hin.
  destruct Hin as [z [Hz Hin]]. apply sort_desc_In in Hin.
  apply in_map_iff. now exists z.
Qed.

Lemma collectResults_NoDup : forall l w options,
  NoDup (map Analyzer.partOfSpeech l) ->
  NoDup (map partOfSpeech (MorphologicalAnalyzer.collectResults l w options)).
Proof.
  induction l as [|a l IH]; simpl; intros w options H; [constructor|].
  inversion H as [|? ? Ha Hl]; subst.
  pose proof (IH w options Hl) as IH'.
  destruct (Analyzer.match_ a w) as [[|]|e]; try exact IH'.
  destruct (MorphologicalAnalyzer.buildResult a _ w options []) as [r|e]
    eqn:Eb; [|exact IH'].
  simpl. constructor; [|exact IH'].
  intro Hin. apply Ha. apply in_map_iff in Hin.
  destruct Hin as [r' [Hr' Hin]].
  destruct (collectResults_tag _ _ _ _ Hin) as [a' [Ha' Ht]].
  apply in_map_iff. exists a'. split; [|exact Ha'].
  unfold MorphologicalAnalyzer.buildResult, bind in Eb.
  destruct (Analyzer.extractMorphology a w options); [|discriminate Eb].
  destruct (createWord _ w); [|discriminate Eb].
  injection Eb as <-. simpl in Hr'. congruence.
Qed.

(** X13: on a word that is not blank, [analyzeWordAll] returns its
    entries by non-increasing score, at most one for each part of speech;
    every entry is on the trimmed word, has a known tag, a score from 0.5
    to 1, a word instance and no alternatives, and reports neither plural
    nor accusative, since the call leaves [includeFeatures] out. *)
Theorem X13_analyzeWordAll_entries : forall w,
  isEmpty (trim w) = false ->
  exists rs,
    analyzeWordAll (JString w) = Ok rs
    /\ nonIncreasing (map MorphologicalAnalyzer.confidenceOrZero rs)
    /\ NoDup (map partOfSpeech rs)
    /\ Forall (plainEntry (trim w)) rs.
Proof.
  intros w H.
  unfold analyzeWordAll, MorphologicalAnalyzer.analyzeAll, getWordAnalyzer.
  rewrite (trim_nonempty w H), H.
  eexists. split; [reflexivity|].
  change (MorphologicalAnalyzer.analyzers MorphologicalAnalyzer.new)
    with ALL_MORPHOLOGICAL_ANALYZERS.
  split; [|split].
  - apply sorted_map_key. apply sort_desc_sorted.
  - apply sort_desc_NoDup. apply collectResults_NoDup.
    vm_compute. repeat constructor; simpl; intuition discriminate.
  - apply Forall_forall. intros r Hr. apply sort_desc_In in Hr.
    destruct (collectResults_entry _ _ _ _ Hr)
      as [a [m [x [Ha [Hm [Hx [Hc ->]]]]]]].
    unfold plainEntry. simpl.
    split; [reflexivity|].
    split; [now apply analyzer_tag_known|].
    split; [eexists; split; [reflexivity|];
            apply calculateConfidence_range|].
    split; [reflexivity|].
    split; [discriminate|].
    exists m. split; [reflexivity|].
    exact (extractMorphology_featuresOff a Ha (trim w)
             (mkOptions None None None) m eq_refl Hx).
Qed.

Lemma X13_analyzeWordAll_witness :
  exists rs,
    analyzeWordAll (JString (js "katojn")) = Ok rs
    /\ nonIncreasing (map MorphologicalAnalyzer.confidenceOrZero rs)
    /\ NoDup (map partOfSpeech rs)
    /\ Forall (plainEntry (trim (js "katojn"))) rs.
Proof.
  apply (X13_analyzeWordAll_entries (js "katojn")). reflexivity.
Defined.

(** ** [isEsperantoWord] against [analyzeWord] *)

Lemma collectMatches_has : forall l w a,
  In a l -> Analyzer.match_ a w = Ok true ->
  In (MorphologicalAnalyzer.Match.mk a
        (MorphologicalAnalyzer.calculateConfidence a w))
     (MorphologicalAnalyzer.collectMatches l w).
Proof.
  induction l as [|b l IH]; intros w a Ha Hm; [contradiction|]. simpl.
  destruct Ha as [->|Ha].
  - rewrite Hm. now left.
  - pose proof (IH w a Ha Hm) as Hin.
    destruct (Analyzer.match_ b w) as [[|]|e]; try exact Hin. now right.
Qed.

(** X14: on a word that is not blank, [isEsperantoWord] holds exactly
    when [analyzeWord] gives a tag other than Unknown, but for the word
    [Article]: that one is recognised and yet analyzed as Unknown, since
    the word factory, called with the tag and the word exchanged, throws
    on it. *)
Theorem X14_isEsperantoWord_iff_known : forall w r,
  isEmpty (trim w) = false ->
  analyzeWord (JString w) = Ok r ->
  (isEsperantoWord (JString w) = true
   <-> partOfSpeech r <> Unknown \/ trim w = js "Article")
  /\ (trim w = js "Article" -> partOfSpeech r = Unknown).
Proof.
  intros w r H Hr.
  unfold analyzeWord, getWordAnalyzer in Hr.
  assert (Hcan : isEsperantoWord (JString w)
                 = existsb
                     (fun analyzer =>
                        match Analyzer.match_ analyzer (trim w) with
                        | Ok b => b
                        | Throw _ => false
                        end) ALL_MORPHOLOGICAL_ANALYZERS).
  { unfold isEsperantoWord, MorphologicalAnalyzer.canAnalyze.
    now rewrite (trim_nonempty w H), H. }
  assert (Hart : trim w = js "Article" -> partOfSpeech r = Unknown).
  { intro E.
    destruct (analyze_cases MorphologicalAnalyzer.new w None H) as [Hc|Hc].
    - rewrite Hc in Hr. injection Hr as <-. reflexivity.
    - destruct Hc as [best [rest [morph [inst [_ [_ [Hcw _]]]]]]].
      rewrite E in Hcw.
      destruct (createWord_tag_throw
                  (Analyzer.partOfSpeech
                     (MorphologicalAnalyzer.Match.analyzer best))
                  (js "Article") eq_refl) as [e He].
      congruence. }
  split; [|exact Hart]. rewrite Hcan. split.
  - intro Hex. apply existsb_exists in Hex. destruct Hex as [a [Ha Hm]].
    assert (Hm' : Analyzer.match_ a (trim w) = Ok true)
      by (destruct (Analyzer.match_ a (trim w)) as [[|]|e];
          [reflexivity | discriminate Hm | discriminate Hm]).
    destruct (str_eqb (trim w) (js "Article")) eqn:Ea;
      [right; now apply str_eqb_eq|]. left.
    pose proof (collectMatches_has _ _ _ Ha Hm') as Hin.
    apply (sort_desc_In _ MorphologicalAnalyzer.Match.confidence) in Hin.
    destruct (sort_desc MorphologicalAnalyzer.Match.confidence
                (MorphologicalAnalyzer.collectMatches
                   ALL_MORPHOLOGICAL_ANALYZERS (trim w)))
      as [|best rest] eqn:Es; [contradiction|].
    destruct (ranked_matches MorphologicalAnalyzer.new (trim w) best rest Es
                best (or_introl eq_refl)) as [Hb [Hbm _]].
    destruct (extractMorphology_total _ Hb (trim w) (optionsOrDefault None)
                Hbm) as [morph Hmorph].
    destruct (createWord_ok
                (tagString
                   (Analyzer.partOfSpeech
                      (MorphologicalAnalyzer.Match.analyzer best)))
                (trim w) Ea) as [inst Hinst].
    rewrite (analyze_best MorphologicalAnalyzer.new w None best rest morph
               inst H Es Hmorph Hinst) in Hr.
    injection Hr as <-. simpl. now apply analyzer_tag_known.
  - intros [Ht|E].
    + destruct (analyze_cases MorphologicalAnalyzer.new w None H) as [Hc|Hc].
      * rewrite Hc in Hr. injection Hr as <-. now elim Ht.
      * destruct Hc as [best [rest [morph [inst [Hs _]]]]].
        destruct (ranked_matches MorphologicalAnalyzer.new (trim w) best rest
                    Hs best (or_introl eq_refl)) as [Hb [Hbm _]].
        apply existsb_exists.
        exists (MorphologicalAnalyzer.Match.analyzer best).
        split; [exact Hb | now rewrite Hbm].
    + rewrite E. reflexivity.
Qed.

Lemma X14_isEsperantoWord_witness :
  (isEsperantoWord (JString (js " Article ")) = true
   <-> partOfSpeech (MorphologicalAnalyzer.createUnknownWordResult
                       (js "Article")) <> Unknown
       \/ trim (js " Article ") = js "Article")
  /\ (trim (js " Article ") = js "Article" ->
      partOfSpeech (MorphologicalAnalyzer.createUnknownWordResult
                      (js "Article")) = Unknown).
Proof.
  apply (X14_isEsperantoWord_iff_known (js " Article ")
           (MorphologicalAnalyzer.createUnknownWordResult (js "Article"))).
  - reflexivity.
  - reflexivity.
Defined.

(** ** Soundness of the matcher *)

Lemma nullable_sound : forall r, nullable r = true -> lang r [].
Proof.
  induction r as [| |p|r1 IH1 r2 IH2|r1 IH1 r2 IH2|r IH]; simpl; intro H;
    try discriminate H.
  - constructor.
  - apply andb_true_iff in H. destruct H as [H1 H2].
    change (@nil N) with (@nil N ++ @nil N). constructor; auto.
  - apply orb_true_iff in H. destruct H as [H|H];
      [apply lang_AltL | apply lang_AltR]; auto.
  - constructor.
Qed.

Lemma deriv_sound : forall r c s, lang (deriv c r) s -> lang r (c :: s).
Proof.
  induction r as [| |p|r1 IH1 r2 IH2|r1 IH1 r2 IH2|r IH]; simpl;
    intros c s H.
  - inversion H.
  - inversion H.
  - destruct (p c) eqn:E; inversion H; subst. now constructor.
  - assert (Hcat : forall s, lang (Cat (deriv c r1) r2) s ->
                             lang (Cat r1 r2) (c :: s)).
    { intros s0 H0. inversion H0 as [| |? ? s1 s2 H1 H2| | | |]; subst.
      change (c :: s1 ++ s2) with ((c :: s1) ++ s2).
      constructor; [now apply IH1 | exact H2]. }
    destruct (nullable r1) eqn:En; [|now apply Hcat].
    inversion H as [| | |? ? ? H0|? ? ? H0| |]; subst; [now apply Hcat|].
    change (c :: s) with ([] ++ c :: s).
    constructor; [now apply nullable_sound | now apply IH2].
  - inversion H as [| | |? ? ? H0|? ? ? H0| |]; subst;
      [apply lang_AltL; now apply IH1 | apply lang_AltR; now apply IH2].
  - inversion H as [| |? ? s1 s2 H1 H2| | | |]; subst.
    change (c :: s1 ++ s2) with ((c :: s1) ++ s2).
    constructor; [now apply IH | exact H2].
Qed.

Theorem matches_sound : forall s r, matches r s = true -> lang r s.
Proof.
  induction s as [|c s IH]; simpl; intros r H.
  - now apply nullable_sound.
  - apply deriv_sound. now apply IH.
Qed.

(** ** Reading a word off a pattern *)

Lemma lang_Cls_inv : forall p s, lang (Cls p) s -> exists c, s = [c] /\ p c = true.
Proof. intros p s H. inversion H; subst. eauto. Qed.

Lemma lang_Cat_inv : forall r1 r2 s,
  lang (Cat r1 r2) s -> exists s1 s2, s = s1 ++ s2 /\ lang r1 s1 /\ lang r2 s2.
Proof. intros r1 r2 s H. inversion H; subst. eauto. Qed.

Lemma lang_Alt_inv : forall r1 r2 s, lang (Alt r1 r2) s -> lang r1 s \/ lang r2 s.
Proof. intros r1 r2 s H. inversion H; subst; auto. Qed.

Lemma lang_Eps_inv : forall s, lang Eps s -> s = [].
Proof. intros s H. now inversion H. Qed.

Lemma lang_Lit_inv : forall l s, lang (Lit l) s -> s = l.
Proof.
  induction l as [|c l IH]; simpl; intros s H.
  - now apply lang_Eps_inv.
  - apply lang_Cat_inv in H. destruct H as [s1 [s2 [-> [H1 H2]]]].
    apply lang_Cls_inv in H1. destruct H1 as [x [-> Hx]].
    apply N.eqb_eq in Hx. subst x. simpl. f_equal. now apply IH.
Qed.

Lemma lang_Star_Cls_inv : forall p s, lang (Star (Cls p)) s -> forallb p s = true.
Proof.
  intros p s H. remember (Star (Cls p)) as r eqn:Er.
  induction H as [| | | | | |r0 s1 s2 H1 _ H2 IH2]; try discriminate Er.
  - reflexivity.
  - injection Er as ->. apply lang_Cls_inv in H1. destruct H1 as [c [-> Hc]].
    simpl. rewrite Hc. now apply IH2.
Qed.

Lemma lang_AnyOf_inv : forall l s, lang (AnyOf l) s -> exists r, In r l /\ lang r s.
Proof.
  induction l as [|r l IH]; simpl; intros s H; [inversion H|].
  apply lang_Alt_inv in H. destruct H as [H|H].
  - exists r. auto.
  - destruct (IH s H) as [r' [Hin Hr]]. exists r'. auto.
Qed.

Lemma lang_Join_inv : forall l s, lang (Join l) s -> In s l.
Proof.
  intros l s H. apply lang_AnyOf_inv in H. destruct H as [r [Hin Hr]].
  apply in_map_iff in Hin. destruct Hin as [x [<- Hx]].
  apply lang_Lit_inv in Hr. now subst.
Qed.

Lemma lang_Join : forall l s, In s l -> lang (Join l) s.
Proof.
  induction l as [|x l IH]; intros s H; [contradiction|].
  unfold Join. simpl. destruct H as [->|H].
  - apply lang_AltL. apply lang_Lit.
  - apply lang_AltR. now apply IH.
Qed.

Lemma lang_JN_inv : forall s,
  lang JN s ->
  exists j n : bool, s = (if j then js "j" else []) ++ (if n then js "n" else []).
Proof.
  intros s H. apply lang_Cat_inv in H. destruct H as [s1 [s2 [-> [H1 H2]]]].
  apply lang_Alt_inv in H1. apply lang_Alt_inv in H2.
  destruct H1 as [H1|H1]; [apply lang_Lit_inv in H1 | apply lang_Eps_inv in H1];
    (destruct H2 as [H2|H2];
     [apply lang_Lit_inv in H2 | apply lang_Eps_inv in H2]); subst.
  - now exists true, true.
  - now exists true, false.
  - now exists false, true.
  - now exists false, false.
Qed.

Lemma lang_Plus_Letter_inv : forall s,
  lang (Plus Letter) s -> (1 <= length s)%nat /\ forallb isLetter s = true.
Proof.
  intros s H. apply lang_Cat_inv in H. destruct H as [s1 [s2 [-> [H1 H2]]]].
  apply lang_Cls_inv in H1. destruct H1 as [c [-> Hc]].
  apply lang_Star_Cls_inv in H2. simpl. rewrite Hc, H2. split; [lia|reflexivity].
Qed.

Lemma lang_AtLeast2_Letter_inv : forall s,
  lang (AtLeast2 Letter) s -> (2 <= length s)%nat /\ forallb isLetter s = true.
Proof.
  intros s H. apply lang_Cat_inv in H. destruct H as [s1 [s2 [-> [H1 H2]]]].
  apply lang_Cls_inv in H1. destruct H1 as [c [-> Hc]].
  apply lang_Plus_Letter_inv in H2. destruct H2 as [Hl Hs].
  simpl. rewrite Hc, Hs. split; [lia|reflexivity].
Qed.

Lemma lang_AtLeast2_Letter : forall s,
  (2 <= length s)%nat -> forallb isLetter s = true -> lang (AtLeast2 Letter) s.
Proof.
  intros s Hlen Hl.
  destruct s as [|a [|b stem]]; simpl in Hlen; try lia.
  simpl in Hl. apply andb_true_iff in Hl. destruct Hl as [Ha Hl].
  apply andb_true_iff in Hl. destruct Hl as [Hb Hl].
  unfold AtLeast2.
  change (a :: b :: stem) with ([a] ++ [b] ++ stem).
  repeat constructor; try assumption. now apply lang_Star_letters.
Qed.

Lemma lang_Plus_Letter : forall s,
  (1 <= length s)%nat -> forallb isLetter s = true -> lang (Plus Letter) s.
Proof.
  intros s Hlen Hl.
  destruct s as [|a stem]; simpl in Hlen; try lia.
  simpl in Hl. apply andb_true_iff in Hl. destruct Hl as [Ha Hl].
  unfold Plus. change (a :: stem) with ([a] ++ stem).
  constructor; [now constructor | now apply lang_Star_letters].
Qed.

(** ** The first of the best *)

Lemma Qle_bool_false : forall a b : Q, Qle_bool (a - b) 0 = false <-> b < a.
Proof.
  intros a b. split; intro H.
  - destruct (Qlt_le_dec b a) as [Hlt|Hle]; [exact Hlt|].
    apply Qle_bool_minus in Hle. congruence.
  - destruct (Qle_bool (a - b) 0) eqn:E; [|reflexivity].
    apply Qle_bool_minus in E. lra.
Qed.

(** An element that scores more than everything before it and at least
    as much as everything after it comes out first. *)
Lemma sort_desc_winner : forall (A : Type) (key : A -> Q) l1 x l2,
  (forall y, In y l1 -> key y < key x) ->
  (forall y, In y l2 -> key y <= key x) ->
  exists rest, sort_desc key (l1 ++ x :: l2) = x :: rest.
Proof.
  intros A key l1 x l2. induction l1 as [|y l1 IH]; intros H1 H2.
  - simpl app. rewrite (sort_desc_head _ key x l2 H2). eauto.
  - destruct (IH (fun z Hz => H1 z (or_intror Hz)) H2) as [rest E].
    change ((y :: l1) ++ x :: l2) with (y :: (l1 ++ x :: l2)).
    change (sort_desc key (y :: (l1 ++ x :: l2)))
      with (insert_desc key y (sort_desc key (l1 ++ x :: l2))).
    rewrite E. simpl.
    assert (Hy : Qle_bool (key x - key y) 0 = false)
      by (apply Qle_bool_false; apply H1; now left).
    rewrite Hy. eauto.
Qed.

(** Conversely, what comes out first scores more than everything before
    it and at least as much as everything after it. *)
Lemma sort_desc_first : forall (A : Type) (key : A -> Q) l x rest,
  sort_desc key l = x :: rest ->
  exists l1 l2,
    l = l1 ++ x :: l2
    /\ (forall y, In y l1 -> key y < key x)
    /\ (forall y, In y l2 -> key y <= key x).
Proof.
  intros A key l. induction l as [|y l IH]; intros x rest H;
    [discriminate H|].
  change (sort_desc key (y :: l)) with (insert_desc key y (sort_desc key l))
    in H.
  destruct (sort_desc key l) as [|z rest'] eqn:E.
  - assert (l = []) as ->.
    { pose proof (sort_desc_length _ key l) as Hl. rewrite E in Hl.
      destruct l; [reflexivity | discriminate Hl]. }
    simpl in H. injection H as <- _.
    exists [], []. split; [reflexivity|]. split; intros ? [].
  - destruct (IH z rest' eq_refl) as [l1 [l2 [-> [H1 H2]]]].
    simpl in H. destruct (Qle_bool (key z - key y) 0) eqn:Ez.
    + injection H as <- _. apply Qle_bool_minus in Ez.
      exists [], (l1 ++ z :: l2). split; [reflexivity|].
      split; [intros ? []|].
      intros e He. apply in_app_or in He.
      destruct He as [He|[<-|He]].
      * specialize (H1 e He). lra.
      * exact Ez.
      * specialize (H2 e He). lra.
    + injection H as <- _. apply Qle_bool_false in Ez.
      exists (y :: l1), l2. split; [reflexivity|]. split; [|exact H2].
      intros e [<-|He]; [exact Ez | now apply H1].
Qed.

Lemma collectMatches_app : forall l1 l2 w,
  MorphologicalAnalyzer.collectMatches (l1 ++ l2) w
  = MorphologicalAnalyzer.collectMatches l1 w
    ++ MorphologicalAnalyzer.collectMatches l2 w.
Proof.
  induction l1 as [|a l1 IH]; intros l2 w; simpl; [reflexivity|].
  rewrite IH. destruct (Analyzer.match_ a w) as [[|]|e]; reflexivity.
Qed.

(** Among the ten analyzers, one that matches the word, scores more than
    every match before it in the list and at least as much as every match
    after it, gives the analysis. *)
Lemma analyze_winner : forall l1 a l2 w options,
  ALL_MORPHOLOGICAL_ANALYZERS = l1 ++ a :: l2 ->
  trim w = w -> isEmpty w = false ->
  str_eqb w (js "Article") = false ->
  Analyzer.match_ a w = Ok true ->
  (forall b, In b l1 -> Analyzer.match_ b w = Ok true ->
     MorphologicalAnalyzer.calculateConfidence b w
     < MorphologicalAnalyzer.calculateConfidence a w) ->
  (forall b, In b l2 -> Analyzer.match_ b w = Ok true ->
     MorphologicalAnalyzer.calculateConfidence b w
     <= MorphologicalAnalyzer.calculateConfidence a w) ->
  exists morph r,
    Analyzer.extractMorphology a w (optionsOrDefault options) = Ok morph
    /\ MorphologicalAnalyzer.analyze MorphologicalAnalyzer.new (JString w)
         options = Ok r
    /\ partOfSpeech r = Analyzer.partOfSpeech a
    /\ morphology r = Some morph
    /\ confidence r
       = Some (MorphologicalAnalyzer.calculateConfidence a w)
    /\ analyzer r = Some (Analyzer.name a).
Proof.
  intros l1 a l2 w options Hall Htrim Hne Hart Hm H1 H2.
  assert (Hin : In a ALL_MORPHOLOGICAL_ANALYZERS)
    by (rewrite Hall; apply in_or_app; right; now left).
  destruct (extractMorphology_total a Hin w (optionsOrDefault options) Hm)
    as [morph Hmorph].
  destruct (createWord_ok (tagString (Analyzer.partOfSpeech a)) w Hart)
    as [inst Hinst].
  set (x := MorphologicalAnalyzer.Match.mk a
              (MorphologicalAnalyzer.calculateConfidence a w)).
  destruct (sort_desc_winner _ MorphologicalAnalyzer.Match.confidence
              (MorphologicalAnalyzer.collectMatches l1 w) x
              (MorphologicalAnalyzer.collectMatches l2 w)) as [rest Hs].
  { intros y Hy. apply collectMatches_In in Hy.
    destruct Hy as [Hy1 [Hy2 Hy3]]. rewrite Hy3. now apply H1. }
  { intros y Hy. apply collectMatches_In in Hy.
    destruct Hy as [Hy1 [Hy2 Hy3]]. rewrite Hy3. now apply H2. }
  assert (Hs' : sort_desc MorphologicalAnalyzer.Match.confidence
                  (MorphologicalAnalyzer.collectMatches
                     (MorphologicalAnalyzer.analyzers
                        MorphologicalAnalyzer.new) (trim w))
                = x :: rest).
  { rewrite Htrim.
    change (MorphologicalAnalyzer.analyzers MorphologicalAnalyzer.new)
      with ALL_MORPHOLOGICAL_ANALYZERS.
    rewrite Hall, collectMatches_app, (collectMatches_cons a l2 w Hm).
    exact Hs. }
  assert (Hne' : isEmpty (trim w) = false) by now rewrite Htrim.
  rewrite <- Htrim in Hmorph, Hinst.
  pose proof (analyze_best MorphologicalAnalyzer.new w options x rest morph
                inst Hne' Hs' Hmorph Hinst) as Hres.
  rewrite Htrim in Hmorph.
  exists morph. eexists. split; [exact Hmorph|]. split; [exact Hres|].
  repeat split.
Qed.

(** ** The choice of the dispatcher *)

Lemma collectMatches_split : forall l w m1 x m2,
  MorphologicalAnalyzer.collectMatches l w = m1 ++ x :: m2 ->
  exists l1 l2,
    l = l1 ++ MorphologicalAnalyzer.Match.analyzer x :: l2
    /\ MorphologicalAnalyzer.collectMatches l1 w = m1
    /\ MorphologicalAnalyzer.collectMatches l2 w = m2
    /\ Analyzer.match_ (MorphologicalAnalyzer.Match.analyzer x) w = Ok true
    /\ MorphologicalAnalyzer.Match.confidence x
       = MorphologicalAnalyzer.calculateConfidence
           (MorphologicalAnalyzer.Match.analyzer x) w.
Proof.
  induction l as [|a l IH]; intros w m1 x m2 H.
  - destruct m1; discriminate H.
  - simpl in H.
    assert (Hskip : MorphologicalAnalyzer.collectMatches l w = m1 ++ x :: m2 ->
                    Analyzer.match_ a w <> Ok true ->
                    exists l1 l2,
                      a :: l = l1 ++ MorphologicalAnalyzer.Match.analyzer x :: l2
                      /\ MorphologicalAnalyzer.collectMatches l1 w = m1
                      /\ MorphologicalAnalyzer.collectMatches l2 w = m2
                      /\ Analyzer.match_
                           (MorphologicalAnalyzer.Match.analyzer x) w = Ok true
                      /\ MorphologicalAnalyzer.Match.confidence x
                         = MorphologicalAnalyzer.calculateConfidence
                             (MorphologicalAnalyzer.Match.analyzer x) w).
    { intros H' Hno.
      destruct (IH w m1 x m2 H') as [l1 [l2 [-> [E1 [E2 [Hm Hc]]]]]].
      exists (a :: l1), l2. split; [reflexivity|].
      split; [|auto]. simpl.
      destruct (Analyzer.match_ a w) as [[|]|e]; [now elim Hno| |]; exact E1. }
    destruct (Analyzer.match_ a w) as [[|]|e] eqn:Em;
      [|apply Hskip; [exact H | discriminate]
       |apply Hskip; [exact H | discriminate]].
    destruct m1 as [|y m1].
    + simpl in H. injection H as <- H.
      exists [], l. simpl. auto.
    + simpl in H. injection H as <- H.
      destruct (IH w m1 x m2 H) as [l1 [l2 [-> [E1 [E2 [Hm Hc]]]]]].
      exists (a :: l1), l2. split; [reflexivity|].
      split; [|auto]. simpl. rewrite Em. now rewrite E1.
Qed.

Lemma getAnalyzer_own : forall a,
  In a ALL_MORPHOLOGICAL_ANALYZERS ->
  MorphologicalAnalyzer.getAnalyzer MorphologicalAnalyzer.new
    (Analyzer.partOfSpeech a) = Some a.
Proof. intros a H. each_analyzer H; reflexivity. Qed.

(** X15: the analysis of a word comes from the first analyzer of the
    highest score: the analyzer that [getAnalyzer] returns for the tag of
    the result matches the word and gives the score and the features of
    the result; every analyzer listed before it that matches the word
    scores less, and every one listed after it scores no more. *)
Theorem X15_first_of_the_best : forall w options r,
  isEmpty (trim w) = false ->
  MorphologicalAnalyzer.analyze MorphologicalAnalyzer.new (JString w) options
  = Ok r ->
  partOfSpeech r <> Unknown ->
  exists before a after m,
    ALL_MORPHOLOGICAL_ANALYZERS = before ++ a :: after
    /\ MorphologicalAnalyzer.getAnalyzer MorphologicalAnalyzer.new
         (partOfSpeech r) = Some a
    /\ analyzer r = Some (Analyzer.name a)
    /\ Analyzer.match_ a (trim w) = Ok true
    /\ confidence r
       = Some (MorphologicalAnalyzer.calculateConfidence a (trim w))
    /\ Analyzer.extractMorphology a (trim w) (optionsOrDefault options)
       = Ok m
    /\ morphology r = Some m
    /\ (forall b, In b before -> Analyzer.match_ b (trim w) = Ok true ->
          MorphologicalAnalyzer.calculateConfidence b (trim w)
          < MorphologicalAnalyzer.calculateConfidence a (trim w))
    /\ (forall b, In b after -> Analyzer.match_ b (trim w) = Ok true ->
          MorphologicalAnalyzer.calculateConfidence b (trim w)
          <= MorphologicalAnalyzer.calculateConfidence a (trim w)).
Proof.
  intros w options r H Hr Htag.
  destruct (analyze_cases MorphologicalAnalyzer.new w options H) as [Hc|Hc].
  { rewrite Hc in Hr. injection Hr as <-. now elim Htag. }
  destruct Hc as [best [rest [morph [inst [Hs [Hmorph [_ Hc]]]]]]].
  rewrite Hc in Hr. injection Hr as <-. clear Hc Htag.
  change (MorphologicalAnalyzer.analyzers MorphologicalAnalyzer.new)
    with ALL_MORPHOLOGICAL_ANALYZERS in Hs.
  destruct (sort_desc_first _ _ _ _ _ Hs) as [m1 [m2 [Hsplit [H1 H2]]]].
  destruct (collectMatches_split _ _ _ _ _ Hsplit)
    as [l1 [l2 [Hall [E1 [E2 [Hm Hconf]]]]]].
  exists l1, (MorphologicalAnalyzer.Match.analyzer best), l2, morph.
  cbn [partOfSpeech analyzer confidence morphology].
  split; [exact Hall|].
  split; [apply getAnalyzer_own; rewrite Hall; apply in_or_app; right;
          now left|].
  split; [reflexivity|]. split; [exact Hm|].
  split; [now rewrite Hconf|]. split; [exact Hmorph|].
  split; [reflexivity|].
  rewrite <- Hconf. split.
  - intros b Hb Hbm. apply (H1 (MorphologicalAnalyzer.Match.mk b
                                  (MorphologicalAnalyzer.calculateConfidence b
                                     (trim w)))).
    rewrite <- E1. now apply collectMatches_has.
  - intros b Hb Hbm. apply (H2 (MorphologicalAnalyzer.Match.mk b
                                  (MorphologicalAnalyzer.calculateConfidence b
                                     (trim w)))).
    rewrite <- E2. now apply collectMatches_has.
Qed.

Lemma X15_first_best_witness :
  exists r,
    MorphologicalAnalyzer.analyze MorphologicalAnalyzer.new
      (JString (js "kiu")) None = Ok r
    /\ exists before a after m,
         ALL_MORPHOLOGICAL_ANALYZERS = before ++ a :: after
         /\ MorphologicalAnalyzer.getAnalyzer MorphologicalAnalyzer.new
              (partOfSpeech r) = Some a
         /\ analyzer r = Some (Analyzer.name a)
         /\ Analyzer.match_ a (trim (js "kiu")) = Ok true
         /\ confidence r
            = Some (MorphologicalAnalyzer.calculateConfidence a
                      (trim (js "kiu")))
         /\ Analyzer.extractMorphology a (trim (js "kiu"))
              (optionsOrDefault None) = Ok m
         /\ morphology r = Some m
         /\ (forall b, In b before ->
               Analyzer.match_ b (trim (js "kiu")) = Ok true ->
               MorphologicalAnalyzer.calculateConfidence b (trim (js "kiu"))
               < MorphologicalAnalyzer.calculateConfidence a
                   (trim (js "kiu")))
         /\ (forall b, In b after ->
               Analyzer.match_ b (trim (js "kiu")) = Ok true ->
               MorphologicalAnalyzer.calculateConfidence b (trim (js "kiu"))
               <= MorphologicalAnalyzer.calculateConfidence a
                    (trim (js "kiu"))).
Proof.
  eexists. split; [vm_compute; reflexivity|].
  apply (X15_first_of_the_best (js "kiu") None).
  - reflexivity.
  - vm_compute. reflexivity.
  - discriminate.
Defined.

(** ** The word instance of an analysis *)

Lemma createWord_value : forall v p x, createWord v p = Ok x -> value x = v.
Proof.
  intros v p x H. unfold createWord, newArticle in H.
  repeat match type of H with
         | (if ?b then _ else _) = _ => destruct b
         end;
    try discriminate H; injection H as <-; reflexivity.
Qed.

Lemma createWord_undefined : forall v p,
  ~ In p tagNames -> createWord v p = Ok (mkWord CUndefinedWord v).
Proof.
  intros v p H. unfold createWord.
  repeat match goal with
         | |- (if str_eqb p ?t then _ else _) = _ =>
             let E := fresh "E" in
             destruct (str_eqb p t) eqn:E;
             [ exfalso; apply H; apply str_eqb_eq in E; rewrite E;
               vm_compute; tauto | ]
         end.
  reflexivity.
Qed.

(** X16: the word instance of an analysis holds the name of the part of
    speech where the word is expected, since the dispatcher hands the
    factory its two arguments in exchanged places; unless the word is
    itself one of the ten names, the instance is an undefined word. *)
Theorem X16_wordInstance_holds_the_tag : forall w options r,
  isEmpty (trim w) = false ->
  MorphologicalAnalyzer.analyze MorphologicalAnalyzer.new (JString w) options
  = Ok r ->
  partOfSpeech r <> Unknown ->
  exists x,
    wordInstance r = Some x
    /\ value x = tagString (partOfSpeech r)
    /\ (~ In (trim w) tagNames ->
        wordClass x = CUndefinedWord
        /\ getPartOfSpeech x = js "Undefined").
Proof.
  intros w options r H Hr Htag.
  destruct (analyze_cases MorphologicalAnalyzer.new w options H) as [Hc|Hc].
  { rewrite Hc in Hr. injection Hr as <-. now elim Htag. }
  destruct Hc as [best [rest [morph [inst [_ [_ [Hinst Hc]]]]]]].
  rewrite Hc in Hr. injection Hr as <-.
  exists inst. cbn [wordInstance partOfSpeech].
  split; [reflexivity|].
  split; [exact (createWord_value _ _ _ Hinst)|].
  intro Hno. rewrite (createWord_undefined _ _ Hno) in Hinst.
  injection Hinst as <-. split; reflexivity.
Qed.

Lemma X16_wordInstance_witness :
  exists r,
    MorphologicalAnalyzer.analyze MorphologicalAnalyzer.new
      (JString (js "kato")) None = Ok r
    /\ exists x,
         wordInstance r = Some x
         /\ value x = tagString (partOfSpeech r)
         /\ (~ In (trim (js "kato")) tagNames ->
             wordClass x = CUndefinedWord
             /\ getPartOfSpeech x = js "Undefined").
Proof.
  eexists. split; [vm_compute; reflexivity|].
  apply (X16_wordInstance_holds_the_tag (js "kato") None).
  - reflexivity.
  - vm_compute. reflexivity.
  - discriminate.
Defined.

(** ** The analysis by one analyzer *)

(** Case folding and lower case agree on what folds to a small ASCII
    letter other than [s]. *)
Lemma canonicalize_lowerUnit : forall c x,
  canonicalize c = x -> (97 <= x <= 122)%N -> x <> 115%N ->
  lowerUnit c = [x].
Proof.
  intros c x H Hx Hs. unfold canonicalize in H. unfold lowerUnit.
  destruct (isAsciiCapital c); [now subst|].
  destruct (isEsperantoCapital c); [now subst|].
  destruct (N.eqb_spec c 383); [congruence|].
  destruct (N.eqb_spec c 8490); [now subst|].
  destruct (N.eqb_spec c 304); [lia|]. now subst.
Qed.

Lemma article_match_lower : forall w,
  ArticleMorphologicalAnalyzer.match_ w = true -> toLowerCase w = js "la".
Proof.
  intros w H. apply matches_sound in H.
  change ArticleMorphologicalAnalyzer.matchRegex
    with (Cat (ChrI 108) (Cat (ChrI 97) Eps)) in H.
  apply lang_Cat_inv in H. destruct H as [s1 [s2 [-> [H1 H2]]]].
  apply lang_Cat_inv in H2. destruct H2 as [s3 [s4 [-> [H3 H4]]]].
  apply lang_Eps_inv in H4. subst s4.
  apply lang_Cls_inv in H1. destruct H1 as [c1 [-> H1]].
  apply lang_Cls_inv in H3. destruct H3 as [c2 [-> H3]].
  apply N.eqb_eq in H1, H3.
  change (canonicalize 108) with 108%N in H1.
  change (canonicalize 97) with 97%N in H3.
  unfold toLowerCase. simpl.
  rewrite (canonicalize_lowerUnit c1 108 H1) by lia.
  rewrite (canonicalize_lowerUnit c2 97 H3) by lia.
  reflexivity.
Qed.

Lemma createWordInstance_own : forall a,
  In a ALL_MORPHOLOGICAL_ANALYZERS ->
  forall w, Analyzer.match_ a w = Ok true ->
  exists x,
    BaseMorphologicalAnalyzer.createWordInstance a w = Ok x
    /\ value x = w
    /\ getPartOfSpeech x = tagString (Analyzer.partOfSpeech a).
Proof.
  intros a H w Hm. unfold BaseMorphologicalAnalyzer.createWordInstance.
  each_analyzer H;
    try (eexists; split; [reflexivity | split; reflexivity]).
  simpl in Hm. injection Hm as Hm. apply article_match_lower in Hm.
  exists (mkWord CArticle w).
  cbn [Analyzer.partOfSpeech ArticleMorphologicalAnalyzer.new
       ArticleMorphologicalAnalyzer.partOfSpeech].
  unfold createWord.
  change (str_eqb (tagString Article) (js "Noun")) with false.
  change (str_eqb (tagString Article) (js "Verb")) with false.
  change (str_eqb (tagString Article) (js "Adjective")) with false.
  change (str_eqb (tagString Article) (js "Adverb")) with false.
  change (str_eqb (tagString Article) (js "Article")) with true.
  cbv iota. unfold newArticle. rewrite Hm.
  split; [reflexivity|]. split; reflexivity.
Qed.

(** X17: [analyze] of each of the ten analyzers returns [null] on a word
    its [match] refuses; on a word it accepts, the result has the
    analyzer's tag and name, the features it extracts, the score 1, no
    alternatives, and a word instance that holds the word and reports the
    analyzer's part of speech: the factory never throws there. *)
Theorem X17_analysis_by_one_analyzer : forall a w options,
  In a ALL_MORPHOLOGICAL_ANALYZERS ->
  (Analyzer.match_ a w = Ok false ->
   BaseMorphologicalAnalyzer.analyze a w options = Ok None)
  /\ (Analyzer.match_ a w = Ok true ->
      exists m x,
        Analyzer.extractMorphology a w
          (match options with
           | Some o => o
           | None => BaseMorphologicalAnalyzer.getDefaultOptions
           end) = Ok m
        /\ value x = w
        /\ getPartOfSpeech x = tagString (Analyzer.partOfSpeech a)
        /\ BaseMorphologicalAnalyzer.analyze a w options
           = Ok (Some (mkAnalysisResult w (Analyzer.partOfSpeech a) (Some m)
                         (Some x) (Some 1) [] (Some (Analyzer.name a))))).
Proof.
  intros a w options H. split; intro Hm.
  - unfold BaseMorphologicalAnalyzer.analyze, bind. now rewrite Hm.
  - destruct (extractMorphology_total a H w
                (match options with
                 | Some o => o
                 | None => BaseMorphologicalAnalyzer.getDefaultOptions
                 end) Hm) as [m Hx].
    destruct (createWordInstance_own a H w Hm) as [x [Hc [Hv Hp]]].
    exists m, x. split; [exact Hx|]. split; [exact Hv|]. split; [exact Hp|].
    unfold BaseMorphologicalAnalyzer.analyze, bind, try_catch.
    rewrite Hm. cbn [negb]. now rewrite Hx, Hc.
Qed.

Lemma X17_one_analyzer_witness :
  (Analyzer.match_ ArticleMorphologicalAnalyzer.new (js "La") = Ok false ->
   BaseMorphologicalAnalyzer.analyze ArticleMorphologicalAnalyzer.new
     (js "La") None = Ok None)
  /\ (Analyzer.match_ ArticleMorphologicalAnalyzer.new (js "La") = Ok true ->
      exists m x,
        Analyzer.extractMorphology ArticleMorphologicalAnalyzer.new (js "La")
          BaseMorphologicalAnalyzer.getDefaultOptions = Ok m
        /\ value x = js "La"
        /\ getPartOfSpeech x
           = tagString
               (Analyzer.partOfSpeech ArticleMorphologicalAnalyzer.new)
        /\ BaseMorphologicalAnalyzer.analyze ArticleMorphologicalAnalyzer.new
             (js "La") None
           = Ok (Some (mkAnalysisResult (js "La")
                         (Analyzer.partOfSpeech
                            ArticleMorphologicalAnalyzer.new)
                         (Some m) (Some x) (Some 1) []
                         (Some (Analyzer.name
                                  ArticleMorphologicalAnalyzer.new))))).
Proof.
  apply (X17_analysis_by_one_analyzer ArticleMorphologicalAnalyzer.new
           (js "La") None).
  simpl. tauto.
Defined.

(** ** Verbs *)

Lemma dropEnd_app : forall a b : jsstring, dropEnd (length b) (a ++ b) = a.
Proof.
  intros a b. unfold dropEnd. rewrite length_app.
  replace (length a + length b - length b)%nat with (length a + 0)%nat by lia.
  rewrite firstn_app_2. simpl. now rewrite app_nil_r.
Qed.

Lemma finiteVerbEndings_ending : forall e t m,
  In (e, t, m) finiteVerbEndings -> In e VerbMorphologicalAnalyzer.VERB_ENDINGS.
Proof.
  intros e t m H. simpl in H.
  repeat (destruct H as [H|H]; [injection H as <- _ _; vm_compute; tauto|]).
  contradiction.
Qed.

Lemma verb_match : forall stem e,
  (2 <= length stem)%nat -> forallb isLetter stem = true ->
  In e VerbMorphologicalAnalyzer.ALL_ENDINGS ->
  VerbMorphologicalAnalyzer.match_ (stem ++ e) = true.
Proof.
  intros stem e Hlen Hl He. unfold VerbMorphologicalAnalyzer.match_.
  apply matches_complete. unfold VerbMorphologicalAnalyzer.matchRegex.
  constructor; [now apply lang_AtLeast2_Letter | now apply lang_Join].
Qed.

Lemma verb_shape : forall stem e,
  (2 <= length stem)%nat -> forallb isLetter stem = true ->
  In e VerbMorphologicalAnalyzer.VERB_ENDINGS ->
  matches MorphologicalAnalyzer.verbShape (stem ++ e) = true.
Proof.
  intros stem e Hlen Hl He. apply matches_complete.
  unfold MorphologicalAnalyzer.verbShape.
  constructor; [apply lang_Plus_Letter; [lia | exact Hl]|].
  apply lang_Join. vm_compute in He. vm_compute. tauto.
Qed.

(** Two spellings of one word end alike. *)
Ltac ends_clash H :=
  apply (f_equal (@rev N)) in H; rewrite !rev_app_distr in H;
  simpl in H; discriminate H.

Lemma verb_not_noun : forall stem e,
  In e VerbMorphologicalAnalyzer.VERB_ENDINGS ->
  NounMorphologicalAnalyzer.match_ (stem ++ e) = false.
Proof.
  intros stem e He.
  destruct (NounMorphologicalAnalyzer.match_ (stem ++ e)) eqn:E;
    [|reflexivity].
  exfalso. unfold NounMorphologicalAnalyzer.match_ in E.
  apply matches_sound in E.
  unfold NounMorphologicalAnalyzer.matchRegex in E.
  apply lang_Cat_inv in E. destruct E as [s1 [s2 [E [_ H2]]]].
  apply lang_Cat_inv in H2. destruct H2 as [s3 [s4 [-> [H3 H4]]]].
  apply lang_Lit_inv in H3. subst s3.
  apply lang_JN_inv in H4. destruct H4 as [j [n ->]].
  vm_compute in He.
  repeat (destruct He as [He|He]; [subst e; destruct j, n; ends_clash E|]).
  contradiction.
Qed.

Lemma calculateConfidence_verb : forall w,
  matches MorphologicalAnalyzer.verbShape w = true ->
  MorphologicalAnalyzer.calculateConfidence VerbMorphologicalAnalyzer.new w
  == (if (5 <? length w)%nat then 1 else 0.8).
Proof.
  intros w H. unfold MorphologicalAnalyzer.calculateConfidence.
  cbn [Analyzer.partOfSpeech VerbMorphologicalAnalyzer.new
       VerbMorphologicalAnalyzer.partOfSpeech PartOfSpeech_eqb existsb andb
       orb].
  rewrite H. destruct (5 <? length w)%nat;
    apply Qeq_bool_iff; vm_compute; reflexivity.
Qed.

Lemma verb_lower_ending : forall stem e,
  (2 <= length stem)%nat -> forallb isLetter stem = true ->
  In e VerbMorphologicalAnalyzer.VERB_ENDINGS ->
  verbEnding (toLowerCase (stem ++ e)) = true.
Proof.
  intros stem e Hlen Hl He. rewrite toLowerCase_app.
  pose proof (toLowerCase_length stem Hl) as Hlow.
  unfold verbEnding. apply existsb_exists. exists e. split; [exact He|].
  replace (toLowerCase e) with e
    by (vm_compute in He;
        repeat (destruct He as [He|He]; [subst e; reflexivity|]);
        contradiction).
  rewrite endsWith_app. rewrite andb_true_l. apply Nat.leb_le.
  rewrite (length_app (toLowerCase stem)), Hlow. lia.
Qed.

Lemma verb_outranks : forall stem e,
  (2 <= length stem)%nat -> forallb isLetter stem = true ->
  In e VerbMorphologicalAnalyzer.VERB_ENDINGS ->
  includes verbLikeNumbers (toLowerCase (stem ++ e)) = false ->
  includes verbLikeCorrelatives (toLowerCase (stem ++ e)) = false ->
  forall a,
    MorphologicalAnalyzer.calculateConfidence a (stem ++ e)
    <= MorphologicalAnalyzer.calculateConfidence VerbMorphologicalAnalyzer.new
         (stem ++ e).
Proof.
  intros stem e Hlen Hl He Hnum Hcor a.
  pose proof (verb_lower_ending stem e Hlen Hl He) as Hend.
  rewrite (calculateConfidence_verb _ (verb_shape stem e Hlen Hl He)).
  destruct (5 <? length (stem ++ e))%nat eqn:E.
  - apply calculateConfidence_range.
  - apply Nat.ltb_ge in E. apply calculateConfidence_short.
    + exact E.
    + destruct (str_eqb (toLowerCase (stem ++ e)) (js "la")) eqn:Ela;
        [|reflexivity].
      apply str_eqb_eq in Ela. rewrite Ela in Hend. vm_compute in Hend.
      discriminate Hend.
    + destruct (includes MorphologicalAnalyzer.basicNumbers
                  (toLowerCase (stem ++ e))) eqn:Eb; [|reflexivity].
      pose proof (includes_filter verbEnding _ _ Eb Hend) as Hf.
      replace (filter verbEnding MorphologicalAnalyzer.basicNumbers)
        with verbLikeNumbers in Hf by (vm_compute; reflexivity).
      congruence.
    + destruct (includes MorphologicalAnalyzer.correlativePronouns
                  (toLowerCase (stem ++ e))) eqn:Ec; [|reflexivity].
      pose proof (includes_filter verbEnding _ _ Ec Hend) as Hf.
      replace (filter verbEnding MorphologicalAnalyzer.correlativePronouns)
        with verbLikeCorrelatives in Hf by (vm_compute; reflexivity).
      congruence.
Qed.

Lemma verb_finite_features : forall stem e t m,
  In (e, t, m) finiteVerbEndings ->
  VerbMorphologicalAnalyzer.extractTense (stem ++ e) = t
  /\ VerbMorphologicalAnalyzer.extractMood (stem ++ e) = m
  /\ VerbMorphologicalAnalyzer.extractRoot (stem ++ e) = toLowerCase stem
  /\ VerbMorphologicalAnalyzer.checkPlural (stem ++ e) = false
  /\ VerbMorphologicalAnalyzer.checkAccusative (stem ++ e) = false.
Proof.
  intros stem e t m H.
  assert (Hfind : find (fun ending => endsWith (toLowerCase stem ++ e) ending)
                    VerbMorphologicalAnalyzer.ALL_ENDINGS = Some e
                  /\ toLowerCase e = e).
  { simpl in H.
    repeat (destruct H as [H|H];
            [injection H as <- _ _; split; [|reflexivity];
             unfold endsWith; rewrite rev_app_distr;
             generalize (rev (toLowerCase stem)); intro X;
             vm_compute; reflexivity|]).
    contradiction. }
  destruct Hfind as [Hfind Hlow].
  unfold VerbMorphologicalAnalyzer.extractTense,
    VerbMorphologicalAnalyzer.extractMood,
    VerbMorphologicalAnalyzer.extractRoot,
    VerbMorphologicalAnalyzer.checkPlural,
    VerbMorphologicalAnalyzer.checkAccusative.
  rewrite toLowerCase_app, Hlow. cbv zeta. rewrite Hfind, dropEnd_app.
  unfold VerbMorphologicalAnalyzer.isParticiple, endsWith.
  rewrite rev_app_distr.
  generalize (rev (toLowerCase stem)); intro X.
  generalize (toLowerCase stem); intro L.
  simpl in H.
  repeat (destruct H as [H|H];
          [injection H as <- <- <-; vm_compute; repeat split|]).
  contradiction.
Qed.

(** X18: a finite verb form, a stem of two letters or more followed by
    [as], [is], [os], [us], [u] or [i], is analyzed as a verb with the
    lower-cased stem as root and the tense and mood of its ending, neither
    plural nor accusative, unless its lower case is one of the numbers
    [unu], [tri] or of the correlatives [kiu], [tiu], [ĉiu], [neniu], which
    score higher with another analyzer. *)
Theorem X18_finite_verb_analysis : forall stem e t m,
  (2 <= length stem)%nat -> forallb isLetter stem = true ->
  In (e, t, m) finiteVerbEndings ->
  includes verbLikeNumbers (toLowerCase (stem ++ e)) = false ->
  includes verbLikeCorrelatives (toLowerCase (stem ++ e)) = false ->
  analyzedAsVerb (stem ++ e) stem t m.
Proof.
  intros stem e t m Hlen Hl Hin Hnum Hcor.
  pose proof (finiteVerbEndings_ending e t m Hin) as He.
  assert (Hall : In e VerbMorphologicalAnalyzer.ALL_ENDINGS)
    by (apply in_or_app; now left).
  assert (Hletters : forallb isLetter (stem ++ e) = true).
  { rewrite forallb_app, Hl. vm_compute in He.
    repeat (destruct He as [He|He]; [subst e; reflexivity|]).
    contradiction. }
  pose proof (verb_match stem e Hlen Hl Hall) as Hmatch.
  destruct (verb_finite_features stem e t m Hin)
    as [Ht [Hm [Hr [Hp Ha]]]].
  destruct (analyze_winner [NounMorphologicalAnalyzer.new]
              VerbMorphologicalAnalyzer.new
              (tl (tl ALL_MORPHOLOGICAL_ANALYZERS)) (stem ++ e) None)
    as [morph [r [Hmorph [Hres [Htag [Hmo _]]]]]].
  - reflexivity.
  - now apply trim_letters.
  - destruct stem; [simpl in Hlen; lia | reflexivity].
  - destruct (str_eqb (stem ++ e) (js "Article")) eqn:E; [|reflexivity].
    apply str_eqb_eq in E. exfalso. vm_compute in He.
    repeat (destruct He as [He|He]; [subst e; ends_clash E|]).
    contradiction.
  - cbn [Analyzer.match_ VerbMorphologicalAnalyzer.new]. now rewrite Hmatch.
  - intros b [<-|[]] Hb.
    cbn [Analyzer.match_ NounMorphologicalAnalyzer.new] in Hb.
    rewrite (verb_not_noun stem e He) in Hb. discriminate Hb.
  - intros b _ _. now apply verb_outranks.
  - exists r, morph. unfold analyzeWord, getWordAnalyzer.
    split; [exact Hres|]. split; [exact Htag|]. split; [exact Hmo|].
    cbn [Analyzer.extractMorphology VerbMorphologicalAnalyzer.new] in Hmorph.
    unfold VerbMorphologicalAnalyzer.extractMorphology in Hmorph.
    rewrite Hmatch, Ht, Hm, Hr in Hmorph.
    unfold BaseMorphologicalAnalyzer.extractMorphology in Hmorph.
    cbn [optionsOrDefault MorphologicalAnalyzer.getDefaultOptions
         BaseMorphologicalAnalyzer.featuresOff includeFeatures negb] in Hmorph.
    rewrite Hp, Ha in Hmorph. injection Hmorph as <-. repeat split.
Qed.

Lemma X18_finite_verb_witness :
  analyzedAsVerb (js "Parol" ++ js "is") (js "Parol") past mood_indicative.
Proof.
  apply (X18_finite_verb_analysis (js "Parol") (js "is") past
           mood_indicative).
  - simpl. lia.
  - reflexivity.
  - simpl. tauto.
  - reflexivity.
  - reflexivity.
Defined.

(** ** Adjectives *)

Lemma adjectiveForm_cases : forall stem j n,
  adjectiveForm stem j n
  = match j, n with
    | false, false => stem ++ [97%N]
    | true, false => (stem ++ [97%N]) ++ [106%N]
    | false, true => (stem ++ [97%N]) ++ [110%N]
    | true, true => ((stem ++ [97%N]) ++ [106%N]) ++ [110%N]
    end.
Proof.
  intros stem j n. unfold adjectiveForm.
  destruct j, n; simpl; rewrite <- ?app_assoc; reflexivity.
Qed.

Lemma adjectiveForm_letters : forall stem j n,
  forallb isLetter stem = true ->
  forallb isLetter (adjectiveForm stem j n) = true.
Proof.
  intros stem j n H. unfold adjectiveForm. rewrite forallb_app, H.
  destruct j, n; reflexivity.
Qed.

Lemma adjectiveForm_lower : forall stem j n,
  toLowerCase (adjectiveForm stem j n) = adjectiveForm (toLowerCase stem) j n.
Proof.
  intros stem j n. unfold adjectiveForm. rewrite toLowerCase_app.
  f_equal. destruct j, n; reflexivity.
Qed.

Lemma adjective_match : forall stem j n,
  (2 <= length stem)%nat -> forallb isLetter stem = true ->
  AdjectiveMorphologicalAnalyzer.match_ (adjectiveForm stem j n) = true.
Proof.
  intros stem j n Hlen Hl. unfold AdjectiveMorphologicalAnalyzer.match_.
  apply matches_complete.
  unfold AdjectiveMorphologicalAnalyzer.matchRegex, adjectiveForm.
  constructor; [now apply lang_AtLeast2_Letter|].
  constructor; [apply lang_Lit | apply lang_JN].
Qed.

Lemma adjective_shape : forall stem j n,
  (2 <= length stem)%nat -> forallb isLetter stem = true ->
  matches MorphologicalAnalyzer.adjectiveShape (adjectiveForm stem j n) = true.
Proof.
  intros stem j n Hlen Hl. apply matches_complete.
  unfold MorphologicalAnalyzer.adjectiveShape, adjectiveForm.
  constructor; [apply lang_Plus_Letter; [lia | exact Hl]|].
  constructor; [apply lang_Lit | apply lang_JN].
Qed.

Lemma adjective_not_noun : forall stem j n,
  NounMorphologicalAnalyzer.match_ (adjectiveForm stem j n) = false.
Proof.
  intros stem j n.
  destruct (NounMorphologicalAnalyzer.match_ (adjectiveForm stem j n)) eqn:E;
    [|reflexivity].
  exfalso. unfold NounMorphologicalAnalyzer.match_ in E.
  apply matches_sound in E.
  unfold NounMorphologicalAnalyzer.matchRegex in E.
  apply lang_Cat_inv in E. destruct E as [s1 [s2 [E [_ H2]]]].
  apply lang_Cat_inv in H2. destruct H2 as [s3 [s4 [-> [H3 H4]]]].
  apply lang_Lit_inv in H3. subst s3.
  apply lang_JN_inv in H4. destruct H4 as [j' [n' ->]].
  unfold adjectiveForm in E.
  destruct j, n, j', n'; ends_clash E.
Qed.

Lemma adjective_not_verbShape : forall stem j n,
  matches MorphologicalAnalyzer.verbShape (adjectiveForm stem j n) = false.
Proof.
  intros stem j n.
  destruct (matches MorphologicalAnalyzer.verbShape (adjectiveForm stem j n))
    eqn:E; [|reflexivity].
  exfalso. apply matches_sound in E.
  unfold MorphologicalAnalyzer.verbShape in E.
  apply lang_Cat_inv in E. destruct E as [s1 [s2 [E [_ H2]]]].
  apply lang_Join_inv in H2. unfold adjectiveForm in E. vm_compute in H2.
  repeat (destruct H2 as [H2|H2]; [subst s2; destruct j, n; ends_clash E|]).
  contradiction.
Qed.

Lemma calculateConfidence_adjective : forall w,
  matches MorphologicalAnalyzer.adjectiveShape w = true ->
  MorphologicalAnalyzer.calculateConfidence AdjectiveMorphologicalAnalyzer.new
    w
  == (if (5 <? length w)%nat then 1 else 0.8).
Proof.
  intros w H. unfold MorphologicalAnalyzer.calculateConfidence.
  cbn [Analyzer.partOfSpeech AdjectiveMorphologicalAnalyzer.new
       AdjectiveMorphologicalAnalyzer.partOfSpeech PartOfSpeech_eqb existsb
       andb orb].
  rewrite H. destruct (5 <? length w)%nat;
    apply Qeq_bool_iff; vm_compute; reflexivity.
Qed.

(** The verb analyzer scores a word that has not the shape of a finite
    verb 0.5, and 0.7 when it is long. *)
Lemma calculateConfidence_participle : forall w,
  matches MorphologicalAnalyzer.verbShape w = false ->
  MorphologicalAnalyzer.calculateConfidence VerbMorphologicalAnalyzer.new w
  == (if (5 <? length w)%nat then 0.7 else 0.5).
Proof.
  intros w H. unfold MorphologicalAnalyzer.calculateConfidence.
  cbn [Analyzer.partOfSpeech VerbMorphologicalAnalyzer.new
       VerbMorphologicalAnalyzer.partOfSpeech PartOfSpeech_eqb existsb andb
       orb].
  rewrite H. destruct (5 <? length w)%nat;
    apply Qeq_bool_iff; vm_compute; reflexivity.
Qed.

Lemma adjective_lower_ending : forall stem j n,
  (2 <= length stem)%nat -> forallb isLetter stem = true ->
  adjectiveEnding (toLowerCase (adjectiveForm stem j n)) = true.
Proof.
  intros stem j n Hlen Hl. rewrite adjectiveForm_lower.
  pose proof (toLowerCase_length stem Hl) as Hlow.
  unfold adjectiveEnding, adjectiveForm. apply existsb_exists.
  exists (js "a" ++ (if j then js "j" else []) ++ (if n then js "n" else [])).
  split.
  - destruct j, n; simpl; auto.
  - rewrite endsWith_app. rewrite andb_true_l. apply Nat.leb_le.
    rewrite (length_app (toLowerCase stem)), Hlow. lia.
Qed.

Lemma adjective_outranks : forall stem j n,
  (2 <= length stem)%nat -> forallb isLetter stem = true ->
  includes adjectiveLikeCorrelatives (toLowerCase (adjectiveForm stem j n))
  = false ->
  forall a,
    MorphologicalAnalyzer.calculateConfidence a (adjectiveForm stem j n)
    <= MorphologicalAnalyzer.calculateConfidence
         AdjectiveMorphologicalAnalyzer.new (adjectiveForm stem j n).
Proof.
  intros stem j n Hlen Hl Hcor a.
  pose proof (adjective_lower_ending stem j n Hlen Hl) as Hend.
  rewrite (calculateConfidence_adjective _
             (adjective_shape stem j n Hlen Hl)).
  destruct (5 <? length (adjectiveForm stem j n))%nat eqn:E.
  - apply calculateConfidence_range.
  - apply Nat.ltb_ge in E. apply calculateConfidence_short.
    + exact E.
    + destruct (str_eqb (toLowerCase (adjectiveForm stem j n)) (js "la"))
        eqn:Ela; [|reflexivity].
      apply str_eqb_eq in Ela. rewrite Ela in Hend. vm_compute in Hend.
      discriminate Hend.
    + destruct (includes MorphologicalAnalyzer.basicNumbers
                  (toLowerCase (adjectiveForm stem j n))) eqn:Eb;
        [|reflexivity].
      pose proof (includes_filter adjectiveEnding _ _ Eb Hend) as Hf.
      replace (filter adjectiveEnding MorphologicalAnalyzer.basicNumbers)
        with (@nil jsstring) in Hf by (vm_compute; reflexivity).
      discriminate Hf.
    + destruct (includes MorphologicalAnalyzer.correlativePronouns
                  (toLowerCase (adjectiveForm stem j n))) eqn:Ec;
        [|reflexivity].
      pose proof (includes_filter adjectiveEnding _ _ Ec Hend) as Hf.
      replace (filter adjectiveEnding
                 MorphologicalAnalyzer.correlativePronouns)
        with adjectiveLikeCorrelatives in Hf by (vm_compute; reflexivity).
      congruence.
Qed.

Lemma adjective_extractRoot : forall stem j n,
  AdjectiveMorphologicalAnalyzer.extractRoot (adjectiveForm stem j n)
  = toLowerCase stem.
Proof.
  intros stem j n. unfold AdjectiveMorphologicalAnalyzer.extractRoot.
  rewrite adjectiveForm_lower, adjectiveForm_cases.
  change (js "n") with [110%N]. change (js "j") with [106%N].
  change (js "a") with [97%N].
  destruct j, n; cbv zeta;
    repeat (rewrite endsWith_snoc; simpl N.eqb; cbv iota;
            rewrite ?dropEnd_snoc);
    reflexivity.
Qed.

Lemma adjective_checkPlural : forall stem j n,
  BaseMorphologicalAnalyzer.checkPlural (adjectiveForm stem j n) = j.
Proof.
  intros stem j n. rewrite adjectiveForm_cases.
  unfold BaseMorphologicalAnalyzer.checkPlural.
  change (js "n") with [110%N]. change (js "j") with [106%N].
  destruct j, n; cbv zeta;
    repeat (rewrite endsWith_snoc; simpl N.eqb; cbv iota;
            rewrite ?dropEnd_snoc);
    reflexivity.
Qed.

Lemma adjective_checkAccusative : forall stem j n,
  BaseMorphologicalAnalyzer.checkAccusative (adjectiveForm stem j n) = n.
Proof.
  intros stem j n. rewrite adjectiveForm_cases.
  unfold BaseMorphologicalAnalyzer.checkAccusative.
  change (js "n") with [110%N].
  destruct j, n; rewrite endsWith_snoc; reflexivity.
Qed.

(** X19: an adjective [stem + a (+ j) (+ n)] with a stem of two letters
    or more is analyzed as an adjective with the lower-cased stem as root,
    plural exactly when the [j] is there and accusative exactly when the
    [n] is there, with the same two flags as agreement, also where the
    verb analyzer matches the word as a participle; the exceptions are the
    correlatives [kia], [tia], [ĉia], [nenia]. *)
Theorem X19_adjective_analysis : forall stem j n,
  (2 <= length stem)%nat -> forallb isLetter stem = true ->
  includes adjectiveLikeCorrelatives (toLowerCase (adjectiveForm stem j n))
  = false ->
  analyzedAsAdjective stem j n.
Proof.
  intros stem j n Hlen Hl Hcor.
  pose proof (adjectiveForm_letters stem j n Hl) as Hletters.
  pose proof (adjective_match stem j n Hlen Hl) as Hmatch.
  pose proof (adjective_shape stem j n Hlen Hl) as Hshape.
  destruct (analyze_winner
              [NounMorphologicalAnalyzer.new; VerbMorphologicalAnalyzer.new]
              AdjectiveMorphologicalAnalyzer.new
              (tl (tl (tl ALL_MORPHOLOGICAL_ANALYZERS)))
              (adjectiveForm stem j n) None)
    as [morph [r [Hmorph [Hres [Htag [Hmo _]]]]]].
  - reflexivity.
  - now apply trim_letters.
  - unfold adjectiveForm. destruct stem; [simpl in Hlen; lia | reflexivity].
  - destruct (str_eqb (adjectiveForm stem j n) (js "Article")) eqn:E;
      [|reflexivity].
    apply str_eqb_eq in E. exfalso. unfold adjectiveForm in E.
    destruct j, n; ends_clash E.
  - cbn [Analyzer.match_ AdjectiveMorphologicalAnalyzer.new].
    now rewrite Hmatch.
  - intros b [<-|[<-|[]]] Hb.
    + cbn [Analyzer.match_ NounMorphologicalAnalyzer.new] in Hb.
      rewrite (adjective_not_noun stem j n) in Hb. discriminate Hb.
    + rewrite (calculateConfidence_participle _
                 (adjective_not_verbShape stem j n)).
      rewrite (calculateConfidence_adjective _ Hshape).
      destruct (5 <? length (adjectiveForm stem j n))%nat;
        apply Qlt_alt; vm_compute; reflexivity.
  - intros b _ _. now apply adjective_outranks.
  - exists r, morph. unfold analyzeWord, getWordAnalyzer.
    split; [exact Hres|]. split; [exact Htag|]. split; [exact Hmo|].
    cbn [Analyzer.extractMorphology AdjectiveMorphologicalAnalyzer.new]
      in Hmorph.
    unfold AdjectiveMorphologicalAnalyzer.extractMorphology in Hmorph.
    rewrite Hmatch, adjective_extractRoot in Hmorph.
    unfold BaseMorphologicalAnalyzer.extractMorphology in Hmorph.
    cbn [optionsOrDefault MorphologicalAnalyzer.getDefaultOptions
         BaseMorphologicalAnalyzer.featuresOff includeFeatures negb] in Hmorph.
    rewrite adjective_checkPlural, adjective_checkAccusative in Hmorph.
    injection Hmorph as <-. repeat split.
Qed.

Lemma X19_adjective_witness : analyzedAsAdjective (js "amant") true true.
Proof.
  apply (X19_adjective_analysis (js "amant") true true).
  - simpl. lia.
  - reflexivity.
  - reflexivity.
Defined.

(** ** From the tag back to the word *)

Lemma analyzer_of_tag : forall a b,
  In a ALL_MORPHOLOGICAL_ANALYZERS -> In b ALL_MORPHOLOGICAL_ANALYZERS ->
  Analyzer.partOfSpeech a = Analyzer.partOfSpeech b -> a = b.
Proof.
  intros a b Ha Hb E.
  pose proof (getAnalyzer_own a Ha) as Ga.
  pose proof (getAnalyzer_own b Hb) as Gb.
  rewrite E in Ga. congruence.
Qed.

Lemma noun_match_inv : forall w,
  NounMorphologicalAnalyzer.match_ w = true ->
  exists stem j n,
    w = nounForm stem j n
    /\ (2 <= length stem)%nat /\ forallb isLetter stem = true.
Proof.
  intros w H. unfold NounMorphologicalAnalyzer.match_ in H.
  apply matches_sound in H. unfold NounMorphologicalAnalyzer.matchRegex in H.
  apply lang_Cat_inv in H. destruct H as [stem [s2 [-> [H1 H2]]]].
  apply lang_Cat_inv in H2. destruct H2 as [s3 [s4 [-> [H3 H4]]]].
  apply lang_Lit_inv in H3. subst s3.
  apply lang_JN_inv in H4. destruct H4 as [j [n ->]].
  apply lang_AtLeast2_Letter_inv in H1. destruct H1 as [Hlen Hl].
  exists stem, j, n. auto.
Qed.

Lemma adjective_match_inv : forall w,
  AdjectiveMorphologicalAnalyzer.match_ w = true ->
  exists stem j n,
    w = adjectiveForm stem j n
    /\ (2 <= length stem)%nat /\ forallb isLetter stem = true.
Proof.
  intros w H. unfold AdjectiveMorphologicalAnalyzer.match_ in H.
  apply matches_sound in H.
  unfold AdjectiveMorphologicalAnalyzer.matchRegex in H.
  apply lang_Cat_inv in H. destruct H as [stem [s2 [-> [H1 H2]]]].
  apply lang_Cat_inv in H2. destruct H2 as [s3 [s4 [-> [H3 H4]]]].
  apply lang_Lit_inv in H3. subst s3.
  apply lang_JN_inv in H4. destruct H4 as [j [n ->]].
  apply lang_AtLeast2_Letter_inv in H1. destruct H1 as [Hlen Hl].
  exists stem, j, n. auto.
Qed.

(** The analyzer behind a tag that [analyzeWord] reports, with the
    features it extracts. *)
Lemma analyzeWord_by : forall w r a,
  analyzeWord (JString w) = Ok r ->
  In a ALL_MORPHOLOGICAL_ANALYZERS ->
  partOfSpeech r = Analyzer.partOfSpeech a ->
  exists m,
    Analyzer.match_ a (trim w) = Ok true
    /\ Analyzer.extractMorphology a (trim w)
         MorphologicalAnalyzer.getDefaultOptions = Ok m
    /\ morphology r = Some m
    /\ confidence r
       = Some (MorphologicalAnalyzer.calculateConfidence a (trim w)).
Proof.
  intros w r a Hr Ha Htag. unfold analyzeWord, getWordAnalyzer in Hr.
  destruct (isEmpty (trim w)) eqn:H.
  { unfold MorphologicalAnalyzer.analyze in Hr. rewrite H in Hr.
    destruct (isEmpty w); discriminate Hr. }
  destruct (analyze_cases MorphologicalAnalyzer.new w None H) as [Hc|Hc].
  { rewrite Hc in Hr. injection Hr as <-. simpl in Htag.
    symmetry in Htag. now apply analyzer_tag_known in Htag. }
  destruct Hc as [best [rest [morph [inst [Hs [Hmorph [_ Hc]]]]]]].
  rewrite Hc in Hr. injection Hr as <-.
  destruct (ranked_matches MorphologicalAnalyzer.new (trim w) best rest Hs
              best (or_introl eq_refl)) as [Hin [Hm Hconf]].
  cbn [partOfSpeech] in Htag.
  pose proof (analyzer_of_tag _ _ Hin Ha Htag) as E. rewrite E in *.
  exists morph. cbn [morphology confidence]. rewrite Hconf. auto.
Qed.

(** X20: a word that [analyzeWord] tags as a noun is, once trimmed, a
    stem of two letters or more followed by [o], then [j] or not, then [n]
    or not; the features give that stem as root and tell the two endings
    as plural and accusative, so that the word can be rebuilt from them. *)
Theorem X20_noun_tag_gives_the_form : forall w r,
  analyzeWord (JString w) = Ok r ->
  partOfSpeech r = Noun ->
  exists stem j n,
    trim w = nounForm stem j n
    /\ (2 <= length stem)%nat
    /\ forallb isLetter stem = true
    /\ morphology r = Some (mkFeatures j n None None None None (Some stem)).
Proof.
  intros w r Hr Htag.
  destruct (analyzeWord_by w r NounMorphologicalAnalyzer.new Hr)
    as [m [Hm [Hx [Hmo _]]]]; [simpl; tauto | exact Htag |].
  cbn [Analyzer.match_ NounMorphologicalAnalyzer.new] in Hm.
  injection Hm as Hm.
  destruct (noun_match_inv _ Hm) as [stem [j [n [E [Hlen Hl]]]]].
  exists stem, j, n. split; [exact E|]. split; [exact Hlen|].
  split; [exact Hl|]. rewrite Hmo. f_equal.
  cbn [Analyzer.extractMorphology NounMorphologicalAnalyzer.new] in Hx.
  unfold NounMorphologicalAnalyzer.extractMorphology in Hx.
  rewrite Hm, E, noun_extractRoot in Hx.
  unfold BaseMorphologicalAnalyzer.extractMorphology in Hx.
  cbn [MorphologicalAnalyzer.getDefaultOptions
       BaseMorphologicalAnalyzer.featuresOff includeFeatures negb] in Hx.
  rewrite noun_checkPlural, noun_checkAccusative in Hx.
  now injection Hx as <-.
Qed.

Lemma X20_noun_tag_witness :
  exists r,
    analyzeWord (JString (js " Librojn ")) = Ok r
    /\ exists stem j n,
         trim (js " Librojn ") = nounForm stem j n
         /\ (2 <= length stem)%nat
         /\ forallb isLetter stem = true
         /\ morphology r
            = Some (mkFeatures j n None None None None (Some stem)).
Proof.
  eexists. split; [vm_compute; reflexivity|].
  apply (X20_noun_tag_gives_the_form (js " Librojn ")).
  - vm_compute. reflexivity.
  - reflexivity.
Defined.

(** X21: a word that [analyzeWord] tags as an adjective is, once trimmed,
    a stem of two letters or more followed by [a], then [j] or not, then
    [n] or not; the features give the lower-cased stem as root and tell the
    two endings as plural and accusative and as agreement. *)
Theorem X21_adjective_tag_gives_the_form : forall w r,
  analyzeWord (JString w) = Ok r ->
  partOfSpeech r = Adjective ->
  exists stem j n,
    trim w = adjectiveForm stem j n
    /\ (2 <= length stem)%nat
    /\ forallb isLetter stem = true
    /\ morphology r
       = Some (mkFeatures j n None None None (Some (mkAgreement j n))
                 (Some (toLowerCase stem))).
Proof.
  intros w r Hr Htag.
  destruct (analyzeWord_by w r AdjectiveMorphologicalAnalyzer.new Hr)
    as [m [Hm [Hx [Hmo _]]]]; [simpl; tauto | exact Htag |].
  cbn [Analyzer.match_ AdjectiveMorphologicalAnalyzer.new] in Hm.
  injection Hm as Hm.
  destruct (adjective_match_inv _ Hm) as [stem [j [n [E [Hlen Hl]]]]].
  exists stem, j, n. split; [exact E|]. split; [exact Hlen|].
  split; [exact Hl|]. rewrite Hmo. f_equal.
  cbn [Analyzer.extractMorphology AdjectiveMorphologicalAnalyzer.new] in Hx.
  unfold AdjectiveMorphologicalAnalyzer.extractMorphology in Hx.
  rewrite Hm, E, adjective_extractRoot in Hx.
  unfold BaseMorphologicalAnalyzer.extractMorphology in Hx.
  cbn [MorphologicalAnalyzer.getDefaultOptions
       BaseMorphologicalAnalyzer.featuresOff includeFeatures negb] in Hx.
  rewrite adjective_checkPlural, adjective_checkAccusative in Hx.
  now injection Hx as <-.
Qed.

Lemma X21_adjective_tag_witness :
  exists r,
    analyzeWord (JString (js "Belaj")) = Ok r
    /\ exists stem j n,
         trim (js "Belaj") = adjectiveForm stem j n
         /\ (2 <= length stem)%nat
         /\ forallb isLetter stem = true
         /\ morphology r
            = Some (mkFeatures j n None None None (Some (mkAgreement j n))
                      (Some (toLowerCase stem))).
Proof.
  eexists. split; [vm_compute; reflexivity|].
  apply (X21_adjective_tag_gives_the_form (js "Belaj")).
  - vm_compute. reflexivity.
  - reflexivity.
Defined.

(** X22: a word that [analyzeWord] tags as the article is, once trimmed,
    one of the four spellings of [la]; its score is 1 and its root [la]. *)
Theorem X22_article_tag_gives_la : forall w r,
  analyzeWord (JString w) = Ok r ->
  partOfSpeech r = Article ->
  In (trim w) articleSpellings
  /\ (exists c, confidence r = Some c /\ c == 1)
  /\ morphology r
     = Some (mkFeatures false false None None None None (Some (js "la"))).
Proof.
  intros w r Hr Htag.
  destruct (analyzeWord_by w r ArticleMorphologicalAnalyzer.new Hr)
    as [m [Hm [Hx [Hmo Hconf]]]]; [simpl; tauto | exact Htag |].
  cbn [Analyzer.match_ ArticleMorphologicalAnalyzer.new] in Hm.
  injection Hm as Hm.
  pose proof (article_match_lower _ Hm) as Hla.
  split; [now apply lower_la_spellings|]. split.
  - eexists. split; [exact Hconf|].
    unfold MorphologicalAnalyzer.calculateConfidence.
    cbn [Analyzer.partOfSpeech ArticleMorphologicalAnalyzer.new
         ArticleMorphologicalAnalyzer.partOfSpeech PartOfSpeech_eqb existsb
         andb orb].
    rewrite Hla. change (str_eqb (js "la") (js "la")) with true. cbv iota.
    destruct (5 <? length (trim w))%nat;
      apply Qeq_bool_iff; vm_compute; reflexivity.
  - rewrite Hmo. f_equal.
    cbn [Analyzer.extractMorphology ArticleMorphologicalAnalyzer.new] in Hx.
    unfold ArticleMorphologicalAnalyzer.extractMorphology in Hx.
    rewrite Hm in Hx.
    unfold BaseMorphologicalAnalyzer.extractMorphology in Hx.
    cbn [MorphologicalAnalyzer.getDefaultOptions
         BaseMorphologicalAnalyzer.featuresOff includeFeatures negb] in Hx.
    now injection Hx as <-.
Qed.

Lemma X22_article_tag_witness :
  exists r,
    analyzeWord (JString (js " LA")) = Ok r
    /\ In (trim (js " LA")) articleSpellings
    /\ (exists c, confidence r = Some c /\ c == 1)
    /\ morphology r
       = Some (mkFeatures false false None None None None (Some (js "la"))).
Proof.
  eexists. split; [vm_compute; reflexivity|].
  apply (X22_article_tag_gives_la (js " LA")).
  - vm_compute. reflexivity.
  - reflexivity.
Defined.

(** ** The table of counts *)

Lemma setCount_keys : forall counts tag n x,
  In x (map fst (MorphologicalSentenceAnalyzer.setCount counts tag n)) ->
  x = tag \/ In x (map fst counts).
Proof.
  induction counts as [|[k m] rest IH]; intros tag n x H; simpl in H.
  - destruct H as [<-|[]]. now left.
  - destruct (PartOfSpeech_eqb k tag); simpl in H.
    + right. exact H.
    + destruct H as [<-|H]; [right; now left|].
      destruct (IH _ _ _ H) as [->|Hin]; [now left | right; now right].
Qed.

Lemma setCount_NoDup : forall counts tag n,
  NoDup (map fst counts) ->
  NoDup (map fst (MorphologicalSentenceAnalyzer.setCount counts tag n)).
Proof.
  induction counts as [|[k m] rest IH]; intros tag n H; simpl.
  - constructor; [intros [] | constructor].
  - inversion H as [|? ? Hk Hrest]; subst.
    destruct (PartOfSpeech_eqb k tag) eqn:E; simpl.
    + constructor; assumption.
    + constructor; [|now apply IH].
      intro Hin. apply setCount_keys in Hin. destruct Hin as [->|Hin].
      * assert (PartOfSpeech_eqb tag tag = true)
          by now apply PartOfSpeech_eqb_eq.
        congruence.
      * contradiction.
Qed.

Lemma setCount_sum : forall counts tag n,
  Zsum (map snd (MorphologicalSentenceAnalyzer.setCount counts tag n))
  = (Zsum (map snd counts)
     - MorphologicalSentenceAnalyzer.orDefault
         (MorphologicalSentenceAnalyzer.getCount counts tag) 0
     + n)%Z.
Proof.
  induction counts as [|[k m] rest IH]; intros tag n; simpl.
  - unfold Zsum. simpl. lia.
  - destruct (PartOfSpeech_eqb k tag); simpl.
    + unfold Zsum. simpl. lia.
    + unfold Zsum in *. simpl. rewrite IH. lia.
Qed.

Lemma setCount_positive : forall counts tag n,
  (0 < n)%Z ->
  Forall (fun kv => (0 < snd kv)%Z) counts ->
  Forall (fun kv => (0 < snd kv)%Z)
    (MorphologicalSentenceAnalyzer.setCount counts tag n).
Proof.
  induction counts as [|[k m] rest IH]; intros tag n Hn H; simpl.
  - constructor; [exact Hn | constructor].
  - inversion H as [|? ? Hm Hrest]; subst.
    destruct (PartOfSpeech_eqb k tag).
    + constructor; assumption.
    + constructor; [exact Hm | now apply IH].
Qed.

Lemma getCount_positive : forall counts tag n,
  Forall (fun kv => (0 < snd kv)%Z) counts ->
  MorphologicalSentenceAnalyzer.getCount counts tag = Some n -> (0 < n)%Z.
Proof.
  induction counts as [|[k m] rest IH]; intros tag n H E; simpl in E;
    [discriminate E|].
  inversion H as [|? ? Hm Hrest]; subst.
  destruct (PartOfSpeech_eqb k tag).
  - injection E as <-. exact Hm.
  - now apply (IH tag).
Qed.

Lemma counting_loop_table : forall ws counts,
  NoDup (map fst counts) ->
  Forall (fun kv => (0 < snd kv)%Z) counts ->
  let table :=
    fold_left
      (fun counts w =>
         let pos := partOfSpeech w in
         let old :=
           match MorphologicalSentenceAnalyzer.getCount counts pos with
           | Some n => if (n =? 0)%Z then 0%Z else n
           | None => 0%Z
           end in
         MorphologicalSentenceAnalyzer.setCount counts pos (old + 1)%Z)
      ws counts in
  NoDup (map fst table)
  /\ Forall (fun kv => (0 < snd kv)%Z) table
  /\ Zsum (map snd table)
     = (Zsum (map snd counts) + Z.of_nat (length ws))%Z.
Proof.
  induction ws as [|w ws IH]; intros counts Hnd Hpos.
  - simpl. split; [exact Hnd|]. split; [exact Hpos | lia].
  - cbn [fold_left length]. cbv zeta.
    set (old := match MorphologicalSentenceAnalyzer.getCount counts
                        (partOfSpeech w) with
                | Some n => if (n =? 0)%Z then 0%Z else n
                | None => 0%Z
                end).
    assert (Hold : old = MorphologicalSentenceAnalyzer.orDefault
                           (MorphologicalSentenceAnalyzer.getCount counts
                              (partOfSpeech w)) 0%Z
                   /\ (0 <= old)%Z).
    { unfold old.
      destruct (MorphologicalSentenceAnalyzer.getCount counts
                  (partOfSpeech w)) as [n|] eqn:E; simpl.
      - pose proof (getCount_positive _ _ _ Hpos E) as Hn.
        destruct (Z.eqb_spec n 0); lia.
      - lia. }
    destruct Hold as [Hold Hge].
    destruct (IH (MorphologicalSentenceAnalyzer.setCount counts
                    (partOfSpeech w) (old + 1)%Z)) as [H1 [H2 H3]].
    + now apply setCount_NoDup.
    + apply setCount_positive; [lia | exact Hpos].
    + cbv zeta in H1, H2, H3. split; [exact H1|]. split; [exact H2|].
      rewrite H3, setCount_sum, <- Hold. lia.
Qed.

(** X23: the table of counts of a sentence lists each tag once, every
    count in it is positive, and the counts add up to the number of
    words. *)
Theorem X23_counts_add_up : forall sentence options,
  isEmpty (trim sentence) = false ->
  exists r,
    MorphologicalSentenceAnalyzer.analyzeSentence
      MorphologicalSentenceAnalyzer.new (JString sentence) options = Ok r
    /\ let st := MorphologicalSentenceAnalyzer.statistics r in
       let table := MorphologicalSentenceAnalyzer.partOfSpeechCounts st in
       NoDup (map fst table)
       /\ Forall (fun kv => (0 < snd kv)%Z) table
       /\ Zsum (map snd table) = MorphologicalSentenceAnalyzer.totalWords st.
Proof.
  intros sentence options H.
  unfold MorphologicalSentenceAnalyzer.analyzeSentence.
  rewrite (trim_nonempty sentence H), H.
  eexists. split; [reflexivity|].
  cbn [MorphologicalSentenceAnalyzer.statistics].
  unfold MorphologicalSentenceAnalyzer.calculateStatistics.
  cbn [MorphologicalSentenceAnalyzer.partOfSpeechCounts
       MorphologicalSentenceAnalyzer.totalWords].
  cbv zeta.
  destruct (counting_loop_table
              (MorphologicalSentenceAnalyzer.analyzeTokens
                 MorphologicalSentenceAnalyzer.new
                 (MorphologicalSentenceAnalyzer.mergeOptions
                    (MorphologicalSentenceAnalyzer.orDefault options
                       MorphologicalSentenceAnalyzer.noOptions))
                 (MorphologicalSentenceAnalyzer.tokenize (trim sentence)))
              [] (NoDup_nil _) (Forall_nil _)) as [H1 [H2 H3]].
  cbv zeta in H1, H2, H3.
  split; [exact H1|]. split; [exact H2|]. rewrite H3. unfold Zsum. simpl. lia.
Qed.

Lemma X23_counts_witness :
  exists r,
    MorphologicalSentenceAnalyzer.analyzeSentence
      MorphologicalSentenceAnalyzer.new
      (JString (js "La kato kaj la hundo dormas.")) None = Ok r
    /\ let st := MorphologicalSentenceAnalyzer.statistics r in
       let table := MorphologicalSentenceAnalyzer.partOfSpeechCounts st in
       NoDup (map fst table)
       /\ Forall (fun kv => (0 < snd kv)%Z) table
       /\ Zsum (map snd table) = MorphologicalSentenceAnalyzer.totalWords st.
Proof.
  apply (X23_counts_add_up (js "La kato kaj la hundo dormas.") None).
  reflexivity.
Defined.

(** ** The features that go with a tag *)

Ltac fit_cases :=
  unfold featuresFit; simpl;
  repeat split; intros; try discriminate; try congruence;
  repeat match goal with
         | H : _ \/ _ |- _ => destruct H
         | H : False |- _ => destruct H
         end;
  try discriminate; try congruence.

Lemma extractMorphology_fits : forall a,
  In a ALL_MORPHOLOGICAL_ANALYZERS ->
  forall w options m,
  Analyzer.extractMorphology a w options = Ok m ->
  featuresFit (Analyzer.partOfSpeech a) m.
Proof.
  intros a H w options m E. each_analyzer H; simpl in E;
    [ unfold NounMorphologicalAnalyzer.extractMorphology in E
    | unfold VerbMorphologicalAnalyzer.extractMorphology in E
    | unfold AdjectiveMorphologicalAnalyzer.extractMorphology in E
    | unfold AdverbMorphologicalAnalyzer.extractMorphology in E
    | unfold ArticleMorphologicalAnalyzer.extractMorphology in E
    | unfold ConjunctionMorphologicalAnalyzer.extractMorphology in E
    | unfold InterjectionMorphologicalAnalyzer.extractMorphology in E
    | unfold NumeralMorphologicalAnalyzer.extractMorphology in E
    | unfold PrepositionMorphologicalAnalyzer.extractMorphology in E
    | unfold PronounMorphologicalAnalyzer.extractMorphology in E ];
    unfold BaseMorphologicalAnalyzer.extractMorphology in E;
    match type of E with
    | (if ?b then _ else _) = _ => destruct b; [discriminate E|]
    end;
    injection E as <-;
    destruct (BaseMorphologicalAnalyzer.featuresOff options);
    fit_cases.
Qed.

(** X24: whatever the word and the options, the features of an analysis
    fit its tag: there is a root; tense and mood are given for verbs and
    for nothing else, agreement for adjectives only, the possessive flag
    for pronouns only; adverbs, the article, conjunctions, interjections,
    prepositions and unknown words are neither plural nor accusative. *)
Theorem X24_features_fit_the_tag : forall w options r,
  MorphologicalAnalyzer.analyze MorphologicalAnalyzer.new (JString w) options
  = Ok r ->
  exists f, morphology r = Some f /\ featuresFit (partOfSpeech r) f.
Proof.
  intros w options r Hr.
  destruct (isEmpty (trim w)) eqn:H.
  { unfold MorphologicalAnalyzer.analyze in Hr. rewrite H in Hr.
    destruct (isEmpty w); discriminate Hr. }
  destruct (analyze_cases MorphologicalAnalyzer.new w options H) as [Hc|Hc].
  - rewrite Hc in Hr. injection Hr as <-.
    eexists. split; [reflexivity|]. fit_cases.
  - destruct Hc as [best [rest [morph [inst [Hs [Hmorph [_ Hc]]]]]]].
    rewrite Hc in Hr. injection Hr as <-.
    destruct (ranked_matches MorphologicalAnalyzer.new (trim w) best rest Hs
                best (or_introl eq_refl)) as [Hin _].
    exists morph. split; [reflexivity|].
    exact (extractMorphology_fits _ Hin _ _ _ Hmorph).
Qed.

Lemma X24_features_witness :
  exists r,
    MorphologicalAnalyzer.analyze MorphologicalAnalyzer.new
      (JString (js "belajn")) None = Ok r
    /\ exists f, morphology r = Some f /\ featuresFit (partOfSpeech r) f.
Proof.
  eexists. split; [vm_compute; reflexivity|].
  apply (X24_features_fit_the_tag (js "belajn") None).
  vm_compute. reflexivity.
Defined.

(** ** Words of the fixed lists, in any letter case *)

Lemma lowerUnit_space : forall c, isWhiteSpace c = true -> lowerUnit c = [c].
Proof.
  intros c H. unfold isWhiteSpace in H. apply orb_true_iff in H.
  destruct H as [H|H].
  - apply existsb_exists in H. destruct H as [y [Hy He]].
    apply N.eqb_eq in He. subst y. simpl in Hy.
    repeat (destruct Hy as [Hy|Hy]; [subst c; reflexivity|]).
    contradiction.
  - apply andb_true_iff in H. destruct H as [H1 H2].
    apply N.leb_le in H1, H2. unfold lowerUnit.
    replace (isAsciiCapital c) with false
      by (symmetry; unfold isAsciiCapital; apply andb_false_iff; right;
          apply N.leb_gt; lia).
    replace (isEsperantoCapital c) with false.
    2:{ symmetry. unfold isEsperantoCapital. simpl.
        repeat (apply orb_false_iff; split); try reflexivity;
          apply N.eqb_neq; lia. }
    destruct (N.eqb_spec c 8490); [lia|].
    destruct (N.eqb_spec c 304); [lia|]. reflexivity.
Qed.

(** A string whose lower case is a word of plain units is matched by the
    word as a pattern with the flag [i], and has no white space. *)
Lemma lower_LitI : forall b w,
  toLowerCase w = b -> forallb plainUnit b = true ->
  lang (LitI b) w /\ noSpace w = true /\ length w = length b.
Proof.
  intros b w. revert b. induction w as [|c w IH]; intros b H Hb.
  - simpl in H. subst b. split; [constructor | split; reflexivity].
  - unfold toLowerCase in H. simpl in H. fold (toLowerCase w) in H.
    destruct (lowerUnit_shape c) as [E|[x E]]; rewrite E in H.
    + subst b. cbn [app forallb] in Hb.
      apply andb_true_iff in Hb. destruct Hb as [_ Hb].
      apply andb_true_iff in Hb. destruct Hb as [Hb _].
      vm_compute in Hb. discriminate Hb.
    + cbn [app] in H. subst b. cbn [forallb] in Hb.
      apply andb_true_iff in Hb. destruct Hb as [Hx Hb].
      destruct (IH _ eq_refl Hb) as [Hl [Hs Hlen]].
      unfold plainUnit in Hx.
      apply andb_true_iff in Hx. destruct Hx as [Hx Hnw].
      apply andb_true_iff in Hx. destruct Hx as [Hx H775].
      apply andb_true_iff in Hx. destruct Hx as [Hcan H383].
      apply N.eqb_eq in Hcan.
      apply negb_true_iff in H383, H775, Hnw.
      apply N.eqb_neq in H383, H775.
      assert (Hc : canonicalize c = x).
      { unfold lowerUnit in E. unfold canonicalize.
        destruct (isAsciiCapital c); [congruence|].
        destruct (isEsperantoCapital c); [congruence|].
        destruct (N.eqb_spec c 8490).
        - subst c. injection E as <-. reflexivity.
        - destruct (N.eqb_spec c 304); [discriminate E|].
          injection E as <-. destruct (N.eqb_spec c 383); [congruence|].
          reflexivity. }
      split.
      * simpl. change (c :: w) with ([c] ++ w). constructor; [|exact Hl].
        constructor. apply N.eqb_eq. now rewrite Hc, Hcan.
      * split; [|simpl; now rewrite Hlen].
        simpl. rewrite Hs, andb_true_r. apply negb_true_iff.
        destruct (isWhiteSpace c) eqn:Ew; [|reflexivity].
        rewrite (lowerUnit_space c Ew) in E. injection E as <-.
        congruence.
Qed.

Lemma lang_AnyOf : forall l r s, In r l -> lang r s -> lang (AnyOf l) s.
Proof.
  induction l as [|x l IH]; intros r s Hin H; [contradiction|]. simpl.
  destruct Hin as [->|Hin]; [now apply lang_AltL|].
  apply lang_AltR. now apply (IH r).
Qed.

Lemma lang_JoinI : forall l b w,
  In b l -> toLowerCase w = b -> forallb plainUnit b = true ->
  lang (JoinI l) w.
Proof.
  intros l b w Hin H Hb. unfold JoinI.
  apply (lang_AnyOf _ (LitI b)); [now apply in_map|].
  now apply (lower_LitI b w).
Qed.

(** The score of an analyzer that has no list of its own, on a word
    that is not the article and is short or has none of the three
    shapes. *)
Lemma calculateConfidence_plain : forall a w,
  str_eqb (toLowerCase w) (js "la") = false ->
  (length w <= 5)%nat
  \/ (matches MorphologicalAnalyzer.nounShape w = false
      /\ matches MorphologicalAnalyzer.verbShape w = false
      /\ matches MorphologicalAnalyzer.adjectiveShape w = false) ->
  Analyzer.partOfSpeech a <> Numeral ->
  Analyzer.partOfSpeech a <> Pronoun ->
  MorphologicalAnalyzer.calculateConfidence a w <= 0.8.
Proof.
  intros a w Hla Hw Hn Hp.
  unfold MorphologicalAnalyzer.calculateConfidence. rewrite Hla.
  destruct Hw as [Hlen|[H1 [H2 H3]]].
  - assert (Hl : (5 <? length w)%nat = false) by (apply Nat.ltb_ge; lia).
    rewrite Hl.
    destruct (Analyzer.partOfSpeech a); try congruence;
      cbn [PartOfSpeech_eqb existsb andb orb];
      split_conditions; closed_Qle.
  - rewrite H1, H2, H3.
    destruct (5 <? length w)%nat;
      destruct (Analyzer.partOfSpeech a); try congruence;
      cbn [PartOfSpeech_eqb existsb andb orb];
      split_conditions; closed_Qle.
Qed.

Lemma calculateConfidence_number : forall w,
  includes MorphologicalAnalyzer.basicNumbers (toLowerCase w) = true ->
  MorphologicalAnalyzer.calculateConfidence NumeralMorphologicalAnalyzer.new w
  == 0.95.
Proof.
  intros w H. unfold MorphologicalAnalyzer.calculateConfidence.
  cbn [Analyzer.partOfSpeech NumeralMorphologicalAnalyzer.new
       NumeralMorphologicalAnalyzer.partOfSpeech PartOfSpeech_eqb existsb
       andb orb].
  rewrite H. rewrite andb_false_r. apply Qeq_bool_iff. vm_compute.
  reflexivity.
Qed.

Lemma calculateConfidence_correlative : forall w,
  includes MorphologicalAnalyzer.correlativePronouns (toLowerCase w) = true ->
  MorphologicalAnalyzer.calculateConfidence PronounMorphologicalAnalyzer.new w
  == 0.9.
Proof.
  intros w H. unfold MorphologicalAnalyzer.calculateConfidence.
  cbn [Analyzer.partOfSpeech PronounMorphologicalAnalyzer.new
       PronounMorphologicalAnalyzer.partOfSpeech PartOfSpeech_eqb existsb
       andb orb].
  rewrite H. rewrite andb_false_r. apply Qeq_bool_iff. vm_compute.
  reflexivity.
Qed.

Lemma calculateConfidence_pronoun_bound : forall w,
  MorphologicalAnalyzer.calculateConfidence PronounMorphologicalAnalyzer.new w
  <= 0.9.
Proof.
  intros w. unfold MorphologicalAnalyzer.calculateConfidence.
  cbn [Analyzer.partOfSpeech PronounMorphologicalAnalyzer.new
       PronounMorphologicalAnalyzer.partOfSpeech PartOfSpeech_eqb existsb
       andb orb].
  rewrite andb_false_r. split_conditions; closed_Qle.
Qed.

Lemma calculateConfidence_numeral_plain : forall w,
  includes MorphologicalAnalyzer.basicNumbers (toLowerCase w) = false ->
  MorphologicalAnalyzer.calculateConfidence NumeralMorphologicalAnalyzer.new w
  <= 0.8.
Proof.
  intros w H. unfold MorphologicalAnalyzer.calculateConfidence.
  cbn [Analyzer.partOfSpeech NumeralMorphologicalAnalyzer.new
       NumeralMorphologicalAnalyzer.partOfSpeech PartOfSpeech_eqb existsb
       andb orb].
  rewrite H. rewrite andb_false_r. split_conditions; closed_Qle.
Qed.

(** The three shapes of the dispatcher, read on the lower case. *)
Lemma shapes_lower : forall w,
  matches MorphologicalAnalyzer.nounShape w = true
  \/ matches MorphologicalAnalyzer.verbShape w = true
  \/ matches MorphologicalAnalyzer.adjectiveShape w = true ->
  exists s e,
    toLowerCase w = s ++ e
    /\ In e (map js ["o"; "oj"; "on"; "ojn"; "as"; "is"; "os"; "us"; "u";
                     "i"; "a"; "aj"; "an"; "ajn"]%string).
Proof.
  intros w [H|[H|H]]; apply matches_sound in H.
  - unfold MorphologicalAnalyzer.nounShape in H.
    apply lang_Cat_inv in H. destruct H as [s1 [s2 [-> [_ H2]]]].
    apply lang_Cat_inv in H2. destruct H2 as [s3 [s4 [-> [H3 H4]]]].
    apply lang_Lit_inv in H3. subst s3.
    apply lang_JN_inv in H4. destruct H4 as [j [n ->]].
    rewrite toLowerCase_app. eexists. eexists. split; [reflexivity|].
    destruct j, n; vm_compute; tauto.
  - unfold MorphologicalAnalyzer.verbShape in H.
    apply lang_Cat_inv in H. destruct H as [s1 [s2 [-> [_ H2]]]].
    apply lang_Join_inv in H2.
    rewrite toLowerCase_app. eexists. eexists. split; [reflexivity|].
    vm_compute in H2.
    repeat (destruct H2 as [H2|H2]; [subst s2; vm_compute; tauto|]).
    contradiction.
  - unfold MorphologicalAnalyzer.adjectiveShape in H.
    apply lang_Cat_inv in H. destruct H as [s1 [s2 [-> [_ H2]]]].
    apply lang_Cat_inv in H2. destruct H2 as [s3 [s4 [-> [H3 H4]]]].
    apply lang_Lit_inv in H3. subst s3.
    apply lang_JN_inv in H4. destruct H4 as [j [n ->]].
    rewrite toLowerCase_app. eexists. eexists. split; [reflexivity|].
    destruct j, n; vm_compute; tauto.
Qed.

(** A word that ends like none of the three shapes has none of them. *)
Lemma shapeless_shapes : forall w,
  shapeless (toLowerCase w) = true ->
  matches MorphologicalAnalyzer.nounShape w = false
  /\ matches MorphologicalAnalyzer.verbShape w = false
  /\ matches MorphologicalAnalyzer.adjectiveShape w = false.
Proof.
  intros w H.
  assert (Hno : ~ (matches MorphologicalAnalyzer.nounShape w = true
                   \/ matches MorphologicalAnalyzer.verbShape w = true
                   \/ matches MorphologicalAnalyzer.adjectiveShape w = true)).
  { intro Hs. apply shapes_lower in Hs. destruct Hs as [s [e [E He]]].
    unfold shapeless in H. apply negb_true_iff in H.
    assert (Ht : existsb (fun e => endsWith (toLowerCase w) e)
                   (map js ["o"; "oj"; "on"; "ojn"; "as"; "is"; "os"; "us";
                            "u"; "i"; "a"; "aj"; "an"; "ajn"]%string) = true).
    { apply existsb_exists. exists e. split; [exact He|].
      rewrite E. apply endsWith_app. }
    congruence. }
  repeat split;
    match goal with
    | |- ?m = false => destruct m eqn:E; [exfalso; apply Hno; tauto|reflexivity]
    end.
Qed.

(** What the fixed lists of the dispatcher hold. *)
Lemma basicNumbers_facts : forall b,
  In b MorphologicalAnalyzer.basicNumbers ->
  forallb plainUnit b = true
  /\ isEmpty b = false
  /\ str_eqb b (js "la") = false
  /\ str_eqb b (js "article") = false
  /\ (b = js "milion"
      \/ (length b <= 5)%nat \/ shapeless b = true).
Proof.
  intros b H. vm_compute in H.
  repeat (destruct H as [H|H];
          [subst b; repeat split; try reflexivity;
           first [ left; reflexivity
                 | right; left; simpl; lia
                 | right; right; reflexivity ]|]).
  contradiction.
Qed.

Lemma correlativePronouns_facts : forall b,
  In b MorphologicalAnalyzer.correlativePronouns ->
  forallb plainUnit b = true
  /\ isEmpty b = false
  /\ str_eqb b (js "la") = false
  /\ str_eqb b (js "article") = false
  /\ includes MorphologicalAnalyzer.basicNumbers b = false
  /\ In b PronounMorphologicalAnalyzer.generateCorrelatives
  /\ ((length b <= 5)%nat \/ shapeless b = true).
Proof.
  intros b H. vm_compute in H.
  repeat (destruct H as [H|H];
          [subst b; repeat split; try reflexivity;
           first [ vm_compute; tauto
                 | left; simpl; lia
                 | right; reflexivity ]|]).
  contradiction.
Qed.

(** A string whose lower case is in a list of plain words is a word as
    the dispatcher wants it: trimmed, not empty, and not [Article]. *)
Lemma listed_word : forall b w,
  toLowerCase w = b -> forallb plainUnit b = true ->
  isEmpty b = false -> str_eqb b (js "article") = false ->
  trim w = w /\ isEmpty w = false /\ str_eqb w (js "Article") = false.
Proof.
  intros b w H Hp He Ha.
  destruct (lower_LitI b w H Hp) as [_ [Hs _]].
  split; [now apply trim_noSpace|]. split.
  - destruct w; [subst b; discriminate He | reflexivity].
  - destruct (str_eqb w (js "Article")) eqn:E; [|reflexivity].
    apply str_eqb_eq in E. subst w. subst b. discriminate Ha.
Qed.

(** X25: a basic number in any letter case is analyzed as a numeral with
    the score 0.95; the spellings of [milion] are left out, since one that
    ends in a small [on] has the shape of a noun and the noun's score 1. *)
Theorem X25_basic_numbers : forall w,
  includes MorphologicalAnalyzer.basicNumbers (toLowerCase w) = true ->
  toLowerCase w <> js "milion" ->
  exists r c,
    analyzeWord (JString w) = Ok r
    /\ partOfSpeech r = Numeral
    /\ confidence r = Some c
    /\ c == 0.95.
Proof.
  intros w H Hmil.
  pose proof (proj1 (includes_In _ _) H) as Hin.
  destruct (basicNumbers_facts _ Hin) as [Hp [He [Hla [Ha Hshape]]]].
  destruct (lower_LitI _ w eq_refl Hp) as [Hl [Hs Hlen]].
  destruct (listed_word _ w eq_refl Hp He Ha) as [Htrim [Hne Hart]].
  assert (Hw : (length w <= 5)%nat
               \/ (matches MorphologicalAnalyzer.nounShape w = false
                   /\ matches MorphologicalAnalyzer.verbShape w = false
                   /\ matches MorphologicalAnalyzer.adjectiveShape w = false)).
  { destruct Hshape as [E|[E|E]]; [contradiction | left; lia |].
    right. now apply shapeless_shapes. }
  assert (Hmatch : NumeralMorphologicalAnalyzer.match_ w = true).
  { unfold NumeralMorphologicalAnalyzer.match_. apply matches_complete.
    unfold NumeralMorphologicalAnalyzer.matchRegex. apply lang_AltL.
    rewrite <- (app_nil_r w). constructor; [|apply lang_AltR; constructor].
    unfold Plus. rewrite <- (app_nil_r w). constructor; [|constructor].
    apply (lang_JoinI _ (toLowerCase w)); [exact Hin | reflexivity | exact Hp]. }
  pose proof (calculateConfidence_number w H) as Hscore.
  destruct (analyze_winner (firstn 7 ALL_MORPHOLOGICAL_ANALYZERS)
              NumeralMorphologicalAnalyzer.new
              (skipn 8 ALL_MORPHOLOGICAL_ANALYZERS) w None)
    as [morph [r [_ [Hres [Htag [_ [Hconf _]]]]]]].
  - reflexivity.
  - exact Htrim.
  - exact Hne.
  - exact Hart.
  - cbn [Analyzer.match_ NumeralMorphologicalAnalyzer.new]. now rewrite Hmatch.
  - intros a Hain _. rewrite Hscore.
    apply Qle_lt_trans with (y := 0.8); [|apply Qlt_alt; vm_compute; reflexivity].
    apply calculateConfidence_plain; [exact Hla | exact Hw | |];
      simpl in Hain;
      repeat (destruct Hain as [Hain|Hain]; [subst a; discriminate|]);
      contradiction.
  - intros a Hain _. rewrite Hscore. simpl in Hain.
    destruct Hain as [<-|[<-|[]]].
    + apply Qle_trans with (y := 0.8); [|closed_Qle].
      apply calculateConfidence_plain; [exact Hla | exact Hw | |]; discriminate.
    + apply Qle_trans with (y := 0.9); [|closed_Qle].
      apply calculateConfidence_pronoun_bound.
  - exists r. eexists. unfold analyzeWord, getWordAnalyzer.
    split; [exact Hres|]. split; [exact Htag|]. split; [exact Hconf|].
    exact Hscore.
Qed.

Lemma X25_basic_numbers_witness :
  exists r c,
    analyzeWord (JString (js "Naŭ")) = Ok r
    /\ partOfSpeech r = Numeral
    /\ confidence r = Some c
    /\ c == 0.95.
Proof.
  apply (X25_basic_numbers (js "Naŭ")).
  - reflexivity.
  - discriminate.
Defined.

(** X26: each of the forty correlatives of the dispatcher's list, in any
    letter case, is analyzed as a pronoun with the score 0.9, also those
    that have the form of a noun, a verb or an adjective. *)
Theorem X26_correlatives : forall w,
  includes MorphologicalAnalyzer.correlativePronouns (toLowerCase w) = true ->
  exists r c,
    analyzeWord (JString w) = Ok r
    /\ partOfSpeech r = Pronoun
    /\ confidence r = Some c
    /\ c == 0.9.
Proof.
  intros w H.
  pose proof (proj1 (includes_In _ _) H) as Hin.
  destruct (correlativePronouns_facts _ Hin)
    as [Hp [He [Hla [Ha [Hnum [Hgen Hshape]]]]]].
  destruct (lower_LitI _ w eq_refl Hp) as [Hl [Hs Hlen]].
  destruct (listed_word _ w eq_refl Hp He Ha) as [Htrim [Hne Hart]].
  assert (Hw : (length w <= 5)%nat
               \/ (matches MorphologicalAnalyzer.nounShape w = false
                   /\ matches MorphologicalAnalyzer.verbShape w = false
                   /\ matches MorphologicalAnalyzer.adjectiveShape w = false)).
  { destruct Hshape as [E|E]; [left; lia|].
    right. now apply shapeless_shapes. }
  assert (Hmatch : PronounMorphologicalAnalyzer.match_ w = true).
  { unfold PronounMorphologicalAnalyzer.match_. apply matches_complete.
    unfold PronounMorphologicalAnalyzer.matchRegex.
    apply (lang_AnyOf _
             (Cat (JoinI PronounMorphologicalAnalyzer.generateCorrelatives)
                JNI)); [simpl; tauto|].
    rewrite <- (app_nil_r w). constructor.
    - apply (lang_JoinI _ (toLowerCase w));
        [exact Hgen | reflexivity | exact Hp].
    - unfold JNI. change (@nil N) with (@nil N ++ @nil N).
      constructor; apply lang_AltR; constructor. }
  pose proof (calculateConfidence_correlative w H) as Hscore.
  destruct (analyze_winner (firstn 9 ALL_MORPHOLOGICAL_ANALYZERS)
              PronounMorphologicalAnalyzer.new [] w None)
    as [morph [r [_ [Hres [Htag [_ [Hconf _]]]]]]].
  - reflexivity.
  - exact Htrim.
  - exact Hne.
  - exact Hart.
  - cbn [Analyzer.match_ PronounMorphologicalAnalyzer.new]. now rewrite Hmatch.
  - intros a Hain _. rewrite Hscore.
    apply Qle_lt_trans with (y := 0.8); [|apply Qlt_alt; vm_compute; reflexivity].
    simpl in Hain.
    repeat (destruct Hain as [Hain|Hain];
            [subst a;
             first [ now apply calculateConfidence_numeral_plain
                   | apply calculateConfidence_plain;
                     [exact Hla | exact Hw | discriminate | discriminate] ]|]).
    contradiction.
  - intros a [].
  - exists r. eexists. unfold analyzeWord, getWordAnalyzer.
    split; [exact Hres|]. split; [exact Htag|]. split; [exact Hconf|].
    exact Hscore.
Qed.

Lemma X26_correlatives_witness :
  exists r c,
    analyzeWord (JString (js "Ĉio")) = Ok r
    /\ partOfSpeech r = Pronoun
    /\ confidence r = Some c
    /\ c == 0.9.
Proof.
  apply (X26_correlatives (js "Ĉio")). reflexivity.
Defined.
